(** * Attention, masking and generation of [src/transformer.py]

    A shallow embedding of the tensor programs of the decoder-only
    transformer: the head-folding reshapes of [MultiHeadAttention], the
    padding and causal masks, scaled dot-product attention, the sinusoidal
    positional embedding, and the [forward] and [generate] methods of
    [Transformer].

    Conventions.
    - A tensor is a nested list in row-major order; a rank-3 tensor of
      shape [[B, L, d]] is a list of [B] matrices of [L] rows of [d]
      entries.  [reshape] is defined through the flat row-major buffer, as
      in torch.
    - Float entries are idealised as real numbers ([R]).  Masks hold only
      the floats 0.0 and 1.0, whose products are exact; they are kept as
      integers 0 and 1.  Where the programs meet what the reals lack, it is
      made explicit: a quotient by zero ([tensor_div]) and the underflow of
      a probability to 0.0 ([SamplerUnderflow]).
    - Python integers are [Z]; [%] and [//] are [Z.modulo] and [Z.div]
      (both floor towards minus infinity, as in Python), with the
      division by zero made an explicit exception.
    - An exception is the left summand of [result]. *)

From Stdlib Require Import List ZArith Lia Bool Reals Lra.
Import ListNotations.

Set Implicit Arguments.

(** ** Exceptions *)

Inductive exn : Type :=
| ValueError
| ZeroDivisionError
| RuntimeError
| IndexError.

Definition result (A : Type) : Type := (exn + A)%type.

Definition ok {A : Type} (a : A) : result A := inr a.
Definition raise {A : Type} (e : exn) : result A := inl e.

Definition bind {A B : Type} (m : result A) (k : A -> result B) : result B :=
  match m with
  | inl e => inl e
  | inr a => k a
  end.

Notation "x <- m ;; k" := (bind m (fun x => k))
  (at level 61, m at next level, right associativity).

(** ** Row-major buffers and views *)

Section Buffers.
Context {A : Type}.

  (** The first [k] consecutive blocks of [n] elements of a buffer. *)
Fixpoint chunks (n k : nat) (buf : list A) : list (list A) :=
    match k with
    | O => []
    | S k' => firstn n buf :: chunks n k' (skipn n buf)
    end.

Definition view2 (d0 d1 : nat) (buf : list A) : list (list A) :=
    chunks d1 d0 buf.

Definition view3 (d0 d1 d2 : nat) (buf : list A) : list (list (list A)) :=
    map (view2 d1 d2) (chunks (d1 * d2) d0 buf).

Definition view4 (d0 d1 d2 d3 : nat) (buf : list A)
    : list (list (list (list A))) :=
    map (view3 d1 d2 d3) (chunks (d1 * d2 * d3) d0 buf).

Definition flatten2 (t : list (list A)) : list A := concat t.

Definition flatten3 (t : list (list (list A))) : list A :=
    concat (map flatten2 t).

Definition flatten4 (t : list (list (list (list A)))) : list A :=
    concat (map flatten3 t).

Definition Shape2 (d0 d1 : nat) (t : list (list A)) : Prop :=
    length t = d0 /\ Forall (fun r => length r = d1) t.

Definition Shape3 (d0 d1 d2 : nat) (t : list (list (list A))) : Prop :=
    length t = d0 /\ Forall (Shape2 d1 d2) t.

Definition Shape4 (d0 d1 d2 d3 : nat) (t : list (list (list (list A))))
    : Prop :=
    length t = d0 /\ Forall (Shape3 d1 d2 d3) t.

  (** [x.size()] of a rank-3 tensor.  The inner sizes are read off the
      first slice, so a tensor with an empty outer axis reports zeros. *)
Definition size3 (x : list (list (list A))) : nat * nat * nat :=
    (length x, length (hd [] x), length (hd [] (hd [] x))).

  (** [torch.reshape]: any negative size is rejected here (the programs
      below never pass a lone [-1] next to sizes that fit), and the number
      of elements has to agree. *)
Definition reshape_ok (dims : list Z) (buf : list A) : bool :=
    forallb (fun d => 0 <=? d)%Z dims
    && (Z.of_nat (length buf) =? fold_right Z.mul 1%Z dims)%Z.

Definition reshape3 (d0 d1 d2 : Z) (buf : list A)
    : result (list (list (list A))) :=
    if reshape_ok [d0; d1; d2] buf
    then ok (view3 (Z.to_nat d0) (Z.to_nat d1) (Z.to_nat d2) buf)
    else raise RuntimeError.

Definition reshape4 (d0 d1 d2 d3 : Z) (buf : list A)
    : result (list (list (list (list A)))) :=
    if reshape_ok [d0; d1; d2; d3] buf
    then ok (view4 (Z.to_nat d0) (Z.to_nat d1) (Z.to_nat d2) (Z.to_nat d3) buf)
    else raise RuntimeError.

  (** Prepend the entries of [row] to the columns [cols], pairwise. *)
Fixpoint zip_cons {X : Type} (row : list X) (cols : list (list X))
    : list (list X) :=
    match row, cols with
    | a :: row', c :: cols' => (a :: c) :: zip_cons row' cols'
    | _, _ => []
    end.

  (** Transpose of a matrix with [ncols] columns. *)
Fixpoint transpose {X : Type} (ncols : nat) (m : list (list X))
    : list (list X) :=
    match m with
    | [] => repeat [] ncols
    | row :: rest => zip_cons row (transpose ncols rest)
    end.

  (** [t.permute(0, 2, 1, 3)] on a tensor of shape [[d0, d1, d2, d3]]:
      the two middle axes are exchanged in every outer slice. *)
Definition permute_0213 (d2 : nat) (t : list (list (list (list A))))
    : list (list (list (list A))) :=
    map (transpose d2) t.

End Buffers.

(** Python's [a // b]. *)
Definition floordiv (a b : Z) : result Z :=
  if (b =? 0)%Z then raise ZeroDivisionError else ok (a / b)%Z.

(** Python's [a % b]. *)
Definition pymod (a b : Z) : result Z :=
  if (b =? 0)%Z then raise ZeroDivisionError else ok (a mod b)%Z.

(** ** Elementwise operations, broadcasting and indexing *)

Definition map2 {X Y W : Type} (f : X -> Y -> W) (l1 : list X) (l2 : list Y)
  : list W :=
  map (fun p => f (fst p) (snd p)) (combine l1 l2).

(** One axis of torch broadcasting: sizes agree, or one of them is 1 and
    that operand is repeated along the axis.  Operands whose sizes neither
    agree nor are 1 (a torch RuntimeError) are zipped to the shorter one;
    the operands below are built from one batch size and one length. *)
Definition bcast2 {X Y W : Type} (f : X -> Y -> W) (l1 : list X) (l2 : list Y)
  : list W :=
  match l1, l2 with
  | [a], _ => map (f a) l2
  | _, [b] => map (fun a => f a b) l1
  | _, _ => map2 f l1 l2
  end.

(** [t.repeat(n, 1, ...)]: [n] copies of [t] one after the other along
    the first axis. *)
Definition repeat0 {X : Type} (n : Z) (t : list X) : result (list X) :=
  if (n <? 0)%Z then raise RuntimeError
  else ok (concat (repeat t (Z.to_nat n))).

(** [torch.arange(0, n)]. *)
Definition arange (n : Z) : result (list Z) :=
  if (n <? 0)%Z then raise RuntimeError
  else ok (map Z.of_nat (seq 0 (Z.to_nat n))).

(** [t.max()] of a vector of integers; an empty tensor has no maximum. *)
Definition tensor_max (t : list Z) : result Z :=
  match t with
  | [] => raise RuntimeError
  | a :: t' => ok (fold_left Z.max t' a)
  end.

(** The values of a 64-bit signed integer: the element type of a [long]
    tensor, and the type of a tensor size. *)
Definition int64 (v : Z) : Prop := (- 2 ^ 63 <= v < 2 ^ 63)%Z.

(** [torch.zeros(n).long().fill_(v)], for a value [v] of the element
    type. *)
Definition full (n v : Z) : result (list Z) :=
  if (n <? 0)%Z then raise RuntimeError
  else ok (repeat v (Z.to_nat n)).

(** Entry [[b, i, j]] of a rank-3 integer tensor. *)
Definition get3 (m : list (list (list Z))) (b i j : nat) : Z :=
  nth j (nth i (nth b m []) []) 0%Z.

(** Step-two slices [l[::2]] and [l[1::2]]. *)
Fixpoint evens {X : Type} (l : list X) : list X :=
  match l with
  | [] => []
  | a :: l' =>
      a :: match l' with
           | [] => []
           | _ :: l'' => evens l''
           end
  end.

Definition odds {X : Type} (l : list X) : list X :=
  match l with
  | [] => []
  | _ :: l' => evens l'
  end.

Definition Rsum (l : list R) : R := fold_right Rplus 0%R l.

Definition dot (u v : list R) : R := Rsum (map2 Rmult u v).

(** [a.matmul(b)] of two matrices: every row of [a] against every column
    of [b]; the column count of [b] is read off its first row. *)
Definition matmul (a b : list (list R)) : list (list R) :=
  let cols := transpose (length (hd [] b)) b in
  map (fun row => map (dot row) cols) a.

(** [torch.softmax(row, dim=-1)] on one row.  Over the reals every entry
    is positive; a float entry can underflow to 0.0. *)
Definition softmax (row : list R) : list R :=
  let e := map exp row in
  map (fun x => (x / Rsum e)%R) e.

(** [t.masked_fill(mask == 0, value)] on one entry. *)
Definition masked_fill (value : R) (x : R) (m : Z) : R :=
  if (m =? 0)%Z then value else x.

(** The sentinel [-1e9]. *)
Definition neg_1e9 : R := (-1000000000)%R.

(** ** The masks *)

Inductive device : Type := cpu | cuda.

(** [torch.tril(torch.ones(n, n))]. *)
Definition tril_ones (n : nat) : list (list Z) :=
  map (fun i => map (fun j => if j <=? i then 1%Z else 0%Z) (seq 0 n))
      (seq 0 n).

(** [MultiHeadAttention.create_causal_mask], a static method.  The optional
    reference tensor comes with its device; [TypeError] stands for torch
    receiving [None] where a size is wanted. *)
Definition create_causal_mask {A : Type}
    (x : option (device * list (list (list A))))
    (batch_size seq_len : option Z) (dev : option device)
  : result (list (list (list Z))) :=
  match x, batch_size, seq_len with
  | None, None, None => raise ValueError
  | _, _, _ =>
      let sizes :=
        match x with
        | Some (_, t) =>
            let '(b, l, _) := size3 t in (Some (Z.of_nat b), Some (Z.of_nat l))
        | None => (batch_size, seq_len)
        end in
      match dev, x with
      | None, None => raise ValueError
      | _, _ =>
          match sizes with
          | (Some batch_size, Some seq_len) =>
              if (seq_len <? 0)%Z then raise RuntimeError
              else repeat0 batch_size [tril_ones (Z.to_nat seq_len)]
          | _ => raise RuntimeError
          end
      end
  end.

(** [create_self_attention_mask(sequence_length, causal)]. *)
Definition create_self_attention_mask (dev : device)
    (sequence_length : list Z) (causal : bool)
  : result (list (list (list Z))) :=
  let batch_size := Z.of_nat (length sequence_length) in
  max_sequence_length <- tensor_max sequence_length ;;
  ar <- arange max_sequence_length ;;
  r <- repeat0 batch_size [ar] ;;
  let attention_mask :=
    bcast2 (bcast2 (fun p len => if (p <? len)%Z then 1%Z else 0%Z))
           r (map (fun len => [len]) sequence_length) in
  let attention_mask := map (fun v => [v]) attention_mask in
  let attention_mask :=
    bcast2 (bcast2 (bcast2 Z.mul)) attention_mask
           (map (transpose (Z.to_nat max_sequence_length)) attention_mask) in
  if causal then
    causal_mask <- create_causal_mask (A:=Z) None (Some batch_size)
                     (Some max_sequence_length) (Some dev) ;;
    ok (bcast2 (bcast2 (bcast2 Z.mul)) attention_mask causal_mask)
  else ok attention_mask.

(** [create_attention_mask(src_sequence_length, tgt_sequence_length)]: the
    source positions run along the last axis, the target positions along
    the middle one. *)
Definition create_attention_mask (dev : device)
    (src_sequence_length tgt_sequence_length : list Z)
  : result (list (list (list Z))) :=
  let batch_size := Z.of_nat (length src_sequence_length) in
  src_max_sequence_length <- tensor_max src_sequence_length ;;
  ar <- arange src_max_sequence_length ;;
  r <- repeat0 batch_size [ar] ;;
  let src_attention_mask :=
    bcast2 (bcast2 (fun p len => if (p <? len)%Z then 1%Z else 0%Z))
           r (map (fun len => [len]) src_sequence_length) in
  let src_attention_mask := map (fun v => [v]) src_attention_mask in
  tgt_max_sequence_length <- tensor_max tgt_sequence_length ;;
  ar <- arange tgt_max_sequence_length ;;
  r <- repeat0 batch_size [ar] ;;
  let tgt_attention_mask :=
    bcast2 (bcast2 (fun p len => if (p <? len)%Z then 1%Z else 0%Z))
           r (map (fun len => [len]) tgt_sequence_length) in
  let tgt_attention_mask := map (fun v => [v]) tgt_attention_mask in
  ok (bcast2 (bcast2 (bcast2 Z.mul)) src_attention_mask
        (map (transpose (Z.to_nat tgt_max_sequence_length))
             tgt_attention_mask)).

(** ** ScaledDotProductAttention *)

Module ScaledDotProductAttention.

(** One slice of the batch: a query matrix against a key and a value
    matrix under an optional mask of the scores' shape. *)
Definition forward_slice (dk : nat) (query key value : list (list R))
    (mask : option (list (list Z))) : list (list R) * list (list R) :=
  let scores :=
    map (map (fun s => (s / sqrt (INR dk))%R))
        (matmul query (transpose (length (hd [] key)) key)) in
  let scores :=
    match mask with
    | Some m => map2 (map2 (masked_fill neg_1e9)) scores m
    | None => scores
    end in
  let attention := map softmax scores in
  let attention :=
    match mask with
    | Some m => map2 (map2 (masked_fill 0%R)) attention m
    | None => attention
    end in
  (matmul attention value, attention).

(** [forward(query, key, value, mask)] on rank-3 tensors. *)
Definition forward (query key value : list (list (list R)))
    (mask : option (list (list (list Z))))
  : list (list (list R)) * list (list (list R)) :=
  let dk := length (hd [] (hd [] query)) in
  let slices :=
    match mask with
    | Some m =>
        map2 (fun qk vm => forward_slice dk (fst (fst qk)) (snd (fst qk))
                                         (snd qk) (Some vm))
             (combine (combine query key) value) m
    | None =>
        map (fun qk => forward_slice dk (fst (fst qk)) (snd (fst qk))
                                     (snd qk) None)
            (combine (combine query key) value)
    end in
  (map fst slices, map snd slices).

End ScaledDotProductAttention.

(** ** MultiHeadAttention *)

Module MultiHeadAttention.

(** The learned part: the four [nn.Linear] projections, acting on the
    last axis. *)
Record t : Type := mk {
  in_features : Z;
  head_num : Z;
  bias : bool;
  linear_q : list R -> list R;
  linear_k : list R -> list R;
  linear_v : list R -> list R;
  linear_o : list R -> list R
}.

(** [nn.Linear(in_features, out_features, bias)]: torch allocates a weight
    of shape [[out_features, in_features]] and rejects a negative size with
    a RuntimeError.  The freshly initialised (random) map is passed in. *)
Definition nn_Linear (in_features out_features : Z) (bias : bool)
    (init : list R -> list R) : result (list R -> list R) :=
  if ((in_features <? 0) || (out_features <? 0))%Z then raise RuntimeError
  else ok init.

(** [__init__]: the divisibility guard, then the fields and the four
    projections. *)
Definition __init__ (in_features head_num : Z) (bias : bool)
    (lq lk lv lo : list R -> list R) : result t :=
  r <- pymod in_features head_num ;;
  if negb (r =? 0)%Z then raise ValueError
  else
    linear_q <- nn_Linear in_features in_features bias lq ;;
    linear_k <- nn_Linear in_features in_features bias lk ;;
    linear_v <- nn_Linear in_features in_features bias lv ;;
    linear_o <- nn_Linear in_features in_features bias lo ;;
    ok (mk in_features head_num bias linear_q linear_k linear_v linear_o).

Section Reshapes.
Context {A : Type}.
Variable self : t.

Definition _reshape_to_batches (x : list (list (list A)))
  : result (list (list (list A))) :=
  let '(batch_size, seq_len, in_feature) := size3 x in
  sub_dim <- floordiv (Z.of_nat in_feature) (head_num self) ;;
  x4 <- reshape4 (Z.of_nat batch_size) (Z.of_nat seq_len)
                 (head_num self) sub_dim (flatten3 x) ;;
  reshape3 (Z.of_nat batch_size * head_num self) (Z.of_nat seq_len) sub_dim
           (flatten4 (permute_0213 (Z.to_nat (head_num self)) x4)).

Definition _reshape_from_batches (x : list (list (list A)))
  : result (list (list (list A))) :=
  let '(batch_size, seq_len, in_feature) := size3 x in
  batch_size <- floordiv (Z.of_nat batch_size) (head_num self) ;;
  let out_dim := (Z.of_nat in_feature * head_num self)%Z in
  x4 <- reshape4 batch_size (head_num self) (Z.of_nat seq_len)
                 (Z.of_nat in_feature) (flatten3 x) ;;
  reshape3 batch_size (Z.of_nat seq_len) out_dim
           (flatten4 (permute_0213 seq_len x4)).

(** [_reshape_alignments]: [permute(1, 2, 0)], a reshape that splits the
    folded axis into [(batch_size, head_num)], and [permute(2, 3, 0, 1)].
    The permutations are written as exchanges of neighbouring axes. *)
Definition _reshape_alignments (alignments : list (list (list A)))
  : result (list (list (list (list A)))) :=
  let '(batch_head, len1, len2) := size3 alignments in
  batch_size <- floordiv (Z.of_nat batch_head) (head_num self) ;;
  let a := map (transpose len2) (transpose len1 alignments) in
  a4 <- reshape4 (Z.of_nat len1) (Z.of_nat len2) batch_size (head_num self)
                 (flatten3 a) ;;
  let b := Z.to_nat batch_size in
  let h := Z.to_nat (head_num self) in
  ok (map (transpose h)
        (map (map (transpose h))
           (transpose b (map (transpose b) a4)))).

End Reshapes.

Definition forward (self : t) (q k v : list (list (list R)))
    (mask : option (list (list (list Z))))
  : result (list (list (list R)) * list (list (list (list R)))) :=
  let q := map (map (linear_q self)) q in
  let k := map (map (linear_k self)) k in
  let v := map (map (linear_v self)) v in
  q <- _reshape_to_batches self q ;;
  k <- _reshape_to_batches self k ;;
  v <- _reshape_to_batches self v ;;
  mask <- match mask with
          | Some m => m' <- repeat0 (head_num self) m ;; ok (Some m')
          | None => ok None
          end ;;
  let '(y, alignments) := ScaledDotProductAttention.forward q k v mask in
  y <- _reshape_from_batches self y ;;
  let y := map (map (linear_o self)) y in
  alignments <- _reshape_alignments self alignments ;;
  ok (y, alignments).

End MultiHeadAttention.

(** A layer whose four projections are the identity, for examples. *)
Definition mha_identity (in_features head_num : Z) : MultiHeadAttention.t :=
  MultiHeadAttention.mk in_features head_num true
    (fun r => r) (fun r => r) (fun r => r) (fun r => r).

(** ** TransformerDecoderLayer *)

Module TransformerDecoderLayer.

(** The attention layer and the row-wise learned parts ([nn.LayerNorm] and
    the feed-forward [nn.Sequential] act on the last axis); the two
    dropouts are tensor functions.  A record describes the layer at one
    call: in evaluation mode the dropouts are the identity and the layer is
    a function of its input; in training mode every call of [nn.Dropout]
    draws a fresh mask, so that two calls of one layer are two records. *)
Record t : Type := mk {
  decoder_attention : MultiHeadAttention.t;
  feedforward : list R -> list R;
  norm1 : list R -> list R;
  norm2 : list R -> list R;
  dropout1 : list (list (list R)) -> list (list (list R));
  dropout2 : list (list (list R)) -> list (list (list R))
}.

(** [x + y] on tensors of one shape. *)
Definition add3 (x y : list (list (list R))) : list (list (list R)) :=
  map2 (map2 (map2 Rplus)) x y.

(** [torch.cat([x, y], dim=-1)]. *)
Definition cat_last (x y : list (list (list R))) : list (list (list R)) :=
  map2 (map2 (@app R)) x y.

Definition forward (self : t) (x : list (list (list R)))
    (target_attention_mask : option (list (list (list Z))))
    (log_p : option (list R))
  : result (list (list (list R)) * list (list (list (list R)))) :=
  let sequence_length := length (hd [] x) in
  r <- MultiHeadAttention.forward (decoder_attention self) x x x
         target_attention_mask ;;
  let '(shortcut, tgt_alignments) := r in
  let x := add3 x (dropout1 self shortcut) in
  let x := map (map (norm1 self)) x in
  let ff_inps :=
    match log_p with
    | Some log_p =>
        cat_last x (map (fun v => repeat [v] sequence_length) log_p)
    | None => x
    end in
  let shortcut := map (map (feedforward self)) ff_inps in
  let x := add3 x (dropout2 self shortcut) in
  let x := map (map (norm2 self)) x in
  ok (x, tgt_alignments).

End TransformerDecoderLayer.

(** ** SinusoidalPositionalEmbedding *)

Module SinusoidalPositionalEmbedding.

Record t : Type := mk {
  dmodel : nat;
  num_positions : Z
}.

(** One band: [torch.sin(positions / 10000 ** (freqs / dmodel))] with
    [positions] a column and [freqs] a row. *)
Definition band (dmodel : nat) (positions freqs : list R) : list (list R) :=
  map (fun p =>
         map (fun f => sin (p / Rpower 10000 (f / INR dmodel))) freqs)
      positions.

(** The matrix added to every example.  The source names the two bands
    [sin] and [cos]; both are computed with [torch.sin]. *)
Definition encodings (self : t) (sequence_length : nat) : list (list R) :=
  let positions := map INR (seq 0 sequence_length) in
  let freqs := map INR (seq 0 (dmodel self)) in
  let sin_band := band (dmodel self) positions (evens freqs) in
  let cos_band := band (dmodel self) positions (odds freqs) in
  map2 (@app R) sin_band cos_band.

(** [forward] on an input whose last size is [dmodel] (torch rejects
    another one where broadcasting does not apply); the sequence length is
    read off the first example, so an empty batch reports 0. *)
Definition forward (self : t) (x : list (list (list R)))
  : result (list (list (list R))) :=
  let sequence_length := length (hd [] x) in
  if (Z.of_nat sequence_length >? num_positions self)%Z
  then raise ValueError
  else ok (bcast2 (bcast2 (bcast2 Rplus)) x [encodings self sequence_length]).

End SinusoidalPositionalEmbedding.

(** ** Transformer *)

Fixpoint mapM {X Y : Type} (f : X -> result Y) (l : list X) : result (list Y) :=
  match l with
  | [] => ok []
  | a :: l' => b <- f a ;; bs <- mapM f l' ;; ok (b :: bs)
  end.

(** [range(a, b)]. *)
Definition range (a b : Z) : list Z :=
  map (fun i => (a + Z.of_nat i)%Z) (seq 0 (Z.to_nat (b - a))).

(** [decoded[:, -1, :]]: the last position of every example. *)
Definition select_last {X : Type} (t : list (list X)) : result (list X) :=
  mapM (fun m => match rev m with
                 | [] => raise IndexError
                 | a :: _ => ok a
                 end) t.

(** [l[i] = v] for an index already in range. *)
Fixpoint set_nth {X : Type} (i : nat) (v : X) (l : list X) : list X :=
  match l, i with
  | [], _ => []
  | _ :: l', O => v :: l'
  | a :: l', S i' => a :: set_nth i' v l'
  end.

(** [t[:, idx] = v] on a matrix: negative indices count from the end, and
    an index outside [[-width, width)] is an IndexError. *)
Definition set_column (idx : Z) (v : R) (t : list (list R))
  : result (list (list R)) :=
  let width := Z.of_nat (length (hd [] t)) in
  let i := if (idx <? 0)%Z then (idx + width)%Z else idx in
  if ((0 <=? i) && (i <? width))%Z
  then ok (map (set_nth (Z.to_nat i) v) t)
  else raise IndexError.

(** [t / c] for a Python number [c].  A zero divisor raises nothing in
    torch: every entry of the quotient is an infinity or a NaN.  Such a
    tensor has no counterpart over the reals; [None] stands for it. *)
Definition tensor_div (t : list (list R)) (c : R) : option (list (list R)) :=
  if Req_dec_T c 0 then None
  else Some (map (map (fun x => (x / c)%R)) t).

Module Transformer.

Record t : Type := mk {
  dmodel : nat;
  embedding : list (list R);
  positional_encoding : SinusoidalPositionalEmbedding.t;
  decoder_layers : list TransformerDecoderLayer.t;
  classifier : list R -> list R
}.

Record output : Type := mk_output {
  logits : list (list (list R));
  decoder_alignments : list (list (list (list (list R))));
  target_embeddings : list (list (list R))
}.

(** [nn.Embedding]: a row of the table for an id in range. *)
Definition embedding_lookup (weight : list (list R)) (ids : list (list Z))
  : result (list (list (list R))) :=
  mapM (mapM (fun id =>
                if ((0 <=? id) && (id <? Z.of_nat (length weight)))%Z
                then ok (nth (Z.to_nat id) weight [])
                else raise IndexError)) ids.

Fixpoint _decode_layers (layers : list TransformerDecoderLayer.t)
    (x : list (list (list R)))
    (target_attention_mask : option (list (list (list Z))))
    (log_p : option (list R))
    (decoder_alignments : list (list (list (list (list R)))))
  : result (list (list (list R)) * list (list (list (list (list R))))) :=
  match layers with
  | [] => ok (x, decoder_alignments)
  | decoder_layer :: rest =>
      r <- TransformerDecoderLayer.forward decoder_layer x
             target_attention_mask log_p ;;
      _decode_layers rest (fst r) target_attention_mask log_p
                     (decoder_alignments ++ [snd r])
  end.

Definition _decode (self : t) (x : list (list (list R)))
    (target_attention_mask : option (list (list (list Z))))
    (log_p : option (list R)) :=
  _decode_layers (decoder_layers self) x target_attention_mask log_p [].

Definition _encode_output_ids (self : t) (output_ids : list (list Z))
  : result (list (list (list R))) :=
  target_embeddings <- embedding_lookup (embedding self) output_ids ;;
  SinusoidalPositionalEmbedding.forward (positional_encoding self)
    target_embeddings.

Definition forward (self : t) (dev : device) (output_ids : list (list Z))
    (target_sequence_length : list Z) (log_p : option (list R))
  : result output :=
  target_embeddings <- _encode_output_ids self output_ids ;;
  decoder_mask <- create_self_attention_mask dev target_sequence_length true ;;
  r <- _decode self target_embeddings (Some decoder_mask) log_p ;;
  let logits := map (map (classifier self)) (fst r) in
  ok (mk_output logits (snd r) target_embeddings).

Section Generate.
(** [torch.multinomial(probs, num_samples=1)] draws from a random source,
    threaded through the loop as a state. *)
Variable rng : Type.
Variable multinomial : rng -> list (list R) -> list (list Z) * rng.

Variable self : t.
Variable batch_size : Z.
Variable dev : device.
Variable temperature : R.
Variable mask_ids : list Z.
Variable log_p : option (list R).

(** The first half of the loop body: the logits of the last position. *)
Definition generate_logits (output_ids : list (list Z)) (step : Z)
  : result (list (list R)) :=
  target_sequence_length <- full batch_size step ;;
  decoder_mask <- create_self_attention_mask dev target_sequence_length true ;;
  target_embeddings <- _encode_output_ids self output_ids ;;
  r <- _decode self target_embeddings (Some decoder_mask) log_p ;;
  last_decoded <- select_last (fst r) ;;
  ok (map (classifier self) last_decoded).

(** [for mask_id in mask_ids: last_logits[:, mask_id] = -1e9]. *)
Fixpoint mask_logits (ids : list Z) (last_logits : list (list R))
  : result (list (list R)) :=
  match ids with
  | [] => ok last_logits
  | mask_id :: rest =>
      last_logits <- set_column mask_id neg_1e9 last_logits ;;
      mask_logits rest last_logits
  end.

(** The second half: the distribution the next token is drawn from, as
    [torch.multinomial] accepts it.  The softmax of a tensor of infinities
    and NaNs is a tensor of NaNs, which [torch.multinomial], the next call
    of the loop body, rejects with a RuntimeError before it draws. *)
Definition generate_probs (last_logits : list (list R))
  : result (list (list R)) :=
  last_logits <- mask_logits mask_ids last_logits ;;
  match tensor_div last_logits temperature with
  | Some scaled => ok (map softmax scaled)
  | None => raise RuntimeError
  end.

Definition generate_step (output_ids : list (list Z)) (g : rng) (step : Z)
  : result (list (list Z) * rng) :=
  last_logits <- generate_logits output_ids step ;;
  probs <- generate_probs last_logits ;;
  let '(choices, g) := multinomial g probs in
  ok (map2 (@app Z) output_ids choices, g).

Fixpoint generate_loop (steps : list Z) (output_ids : list (list Z)) (g : rng)
  : result (list (list Z) * rng) :=
  match steps with
  | [] => ok (output_ids, g)
  | step :: rest =>
      r <- generate_step output_ids g step ;;
      generate_loop rest (fst r) (snd r)
  end.

Definition generate (max_target_sequence_length start_id : Z) (g : rng)
  : result (list (list Z) * rng) :=
  output_ids <- full batch_size start_id ;;
  let output_ids := map (fun id => [id]) output_ids in
  generate_loop (range 1 max_target_sequence_length) output_ids g.

End Generate.

End Transformer.

(** ** The masks in closed form *)

(** [v[b, p]]: position [p] is inside a sequence of length [len]. *)
Definition valid (len : Z) (p : nat) : Z :=
  if (Z.of_nat p <? len)%Z then 1%Z else 0%Z.

(** [causal[i, j]]. *)
Definition lower (i j : nat) : Z := if j <=? i then 1%Z else 0%Z.

Definition mask_entry (causal : bool) (len : Z) (i j : nat) : Z :=
  (valid len j * valid len i * (if causal then lower i j else 1))%Z.

Definition mask_closed (causal : bool) (L : nat) (vl : list Z)
  : list (list (list Z)) :=
  map (fun len =>
         map (fun i => map (fun j => mask_entry causal len i j) (seq 0 L))
             (seq 0 L)) vl.

(** ** Contracts and small instances used in the statements *)

(** The call contract of a decoder layer inside the stack: on a hidden
    state of [B] examples and [L] positions, with a mask of shape
    [[B, L, L]] and a conditioning vector of length [B], it returns a
    hidden state of the same batch size and length. *)
Definition LayerContract (layer : TransformerDecoderLayer.t) : Prop :=
  forall (B L : nat) (x : list (list (list R))) (mask : list (list (list Z)))
         (log_p : option (list R)),
    0 < B -> 0 < L -> Shape2 B L x -> Shape3 B L L mask ->
    (forall lp, log_p = Some lp -> length lp = B) ->
    exists y al,
      TransformerDecoderLayer.forward layer x (Some mask) log_p = ok (y, al)
      /\ Shape2 B L y.

(** What the constructors establish for an attention layer: a positive head
    count dividing a positive feature size, and input projections
    ([nn.Linear(in_features, in_features)]) with rows of that size. *)
Definition AttentionWellFormed (a : MultiHeadAttention.t) : Prop :=
  (0 < MultiHeadAttention.head_num a)%Z
  /\ (0 < MultiHeadAttention.in_features a)%Z
  /\ (MultiHeadAttention.in_features a mod MultiHeadAttention.head_num a
      = 0)%Z
  /\ forall r,
      length (MultiHeadAttention.linear_q a r)
      = Z.to_nat (MultiHeadAttention.in_features a)
      /\ length (MultiHeadAttention.linear_k a r)
         = Z.to_nat (MultiHeadAttention.in_features a)
      /\ length (MultiHeadAttention.linear_v a r)
         = Z.to_nat (MultiHeadAttention.in_features a).

(** A decoder layer with such an attention layer and dropouts that keep
    the batch size and the length of their argument. *)
Definition LayerWellFormed (layer : TransformerDecoderLayer.t) : Prop :=
  AttentionWellFormed (TransformerDecoderLayer.decoder_attention layer)
  /\ (forall B L x, Shape2 B L x ->
       Shape2 B L (TransformerDecoderLayer.dropout1 layer x))
  /\ (forall B L x, Shape2 B L x ->
       Shape2 B L (TransformerDecoderLayer.dropout2 layer x)).

(** The call contract of [torch.multinomial(probs, num_samples=1)]: one
    index per row, inside the row. *)
Definition SamplerContract {rng : Type}
    (multinomial : rng -> list (list R) -> list (list Z) * rng) : Prop :=
  forall g probs,
    Forall (fun row => row <> []) probs ->
    Forall2 (fun (row : list R) c =>
               exists id, c = [id] /\ (0 <= id < Z.of_nat (length row))%Z)
            probs (fst (multinomial g probs)).

(** One categorical draw read through the cumulative distribution: the
    first index whose cumulative probability exceeds the uniform draw [u],
    the last index if none does. *)
Fixpoint categorical (u : R) (row : list R) : Z :=
  match row with
  | [] => 0%Z
  | p :: rest =>
      match rest with
      | [] => 0%Z
      | _ :: _ => if Rlt_dec u p then 0%Z else (1 + categorical (u - p) rest)%Z
      end
  end.

(** A random source whose uniform draw is always [u]. *)
Definition multinomial_at (u : R) (g : unit) (probs : list (list R))
  : list (list Z) * unit :=
  (map (fun row => [categorical u row]) probs, g).

(** A model with a vocabulary of two tokens, one feature, no decoder layer
    and a classifier with zero weights and bias. *)
Definition tiny_transformer : Transformer.t :=
  Transformer.mk 1 [[0%R]; [0%R]] (SinusoidalPositionalEmbedding.mk 1 4) []
                 (fun _ => [0%R; 0%R]).

(** A token tensor of shape [[B, n]] over a vocabulary of [V] ids whose
    first column is all [start_id]. *)
Definition TokenTensor (V B n : nat) (start_id : Z) (ids : list (list Z))
  : Prop :=
  Shape2 B n ids
  /\ Forall (Forall (fun id => (0 <= id < Z.of_nat V)%Z)) ids
  /\ Forall (fun row => hd_error row = Some start_id) ids.

(** The position that a Python index [idx] denotes in a row of width [V]. *)
Definition norm_index (V : nat) (idx : Z) : nat :=
  Z.to_nat (if (idx <? 0)%Z then (idx + Z.of_nat V)%Z else idx).

(** One row of the logits after the loop over [mask_ids]. *)
Definition mask_row (V : nat) (ids : list Z) (row : list R) : list R :=
  fold_left (fun r id => set_nth (norm_index V id) neg_1e9 r) ids row.

(** The number of forbidden keys in one row of a mask. *)
Definition masked_count (mask_row : list Z) : nat :=
  length (filter (fun m => (m =? 0)%Z) mask_row).

(** One row of attention weights as [forward] computes it from a row of
    scaled scores and the row of the mask. *)
Definition masked_weights (scores : list R) (mask_row : list Z) : list R :=
  map2 (masked_fill 0%R)
       (softmax (map2 (masked_fill neg_1e9) scores mask_row)) mask_row.

(** Entry [[b, i, j]] of the mask between a source of length [slen] and a
    target of length [tlen]. *)
Definition cross_entry (slen tlen : Z) (i j : nat) : Z :=
  (valid slen j * valid tlen i)%Z.

Definition cross_mask_closed (Ls Lt : nat) (src tgt : list Z)
  : list (list (list Z)) :=
  map2 (fun slen tlen =>
          map (fun i => map (fun j => cross_entry slen tlen i j) (seq 0 Ls))
              (seq 0 Lt)) src tgt.

(** The frequency index behind column [c] of the positional encoding of
    width [d]: the even indices fill the first half, the odd ones the
    second. *)
Definition frequency (d c : nat) : nat :=
  if c <? (d + 1) / 2 then 2 * c else 2 * (c - (d + 1) / 2) + 1.

(** A row cut or zero-padded to [n] entries, and an attention layer whose
    four projections do that: the identity on rows of the right width. *)
Definition fit (n : nat) (r : list R) : list R :=
  firstn n (r ++ repeat 0%R n).

Definition mha_fitted (in_features head_num : Z) : MultiHeadAttention.t :=
  MultiHeadAttention.mk in_features head_num true
    (fit (Z.to_nat in_features)) (fit (Z.to_nat in_features))
    (fit (Z.to_nat in_features)) (fit (Z.to_nat in_features)).

(** A mask that forbids every key after the query's own position. *)
Definition CausalMask (mask : list (list (list Z))) : Prop :=
  forall k i j, i < j -> get3 mask k i j = 0%Z.

(** Evaluation mode of a decoder layer: both dropouts are the identity. *)
Definition EvalMode (layer : TransformerDecoderLayer.t) : Prop :=
  forall x,
    TransformerDecoderLayer.dropout1 layer x = x
    /\ TransformerDecoderLayer.dropout2 layer x = x.

(** One position of a decoder layer in evaluation mode: the row [r] of the
    input, the row [shortcut] of the attention output and the conditioning
    value of the example, if any. *)
Definition layer_row (layer : TransformerDecoderLayer.t) (lp : option R)
    (r shortcut : list R) : list R :=
  let x1 := TransformerDecoderLayer.norm1 layer (map2 Rplus r shortcut) in
  let ff_inp := match lp with
                | Some v => x1 ++ [v]
                | None => x1
                end in
  TransformerDecoderLayer.norm2 layer
    (map2 Rplus x1 (TransformerDecoderLayer.feedforward layer ff_inp)).

(** A decoder layer and a model of two tokens and two features whose learned
    parts cut or zero-pad their rows to two entries, in evaluation mode. *)
Definition small_layer : TransformerDecoderLayer.t :=
  TransformerDecoderLayer.mk (mha_fitted 2 2) (fit 2) (fit 2) (fit 2)
    (fun x => x) (fun x => x).

Definition small_transformer : Transformer.t :=
  Transformer.mk 2 [[0%R; 0%R]; [1%R; 1%R]]
    (SinusoidalPositionalEmbedding.mk 2 4) [small_layer] (fit 2).

(** One call of [nn.Dropout(p)] in training mode returns every entry either
    zeroed or scaled by [1 / (1 - p)], as the Bernoulli draw of the call
    decides; in evaluation mode it returns its argument. *)
Definition DropoutDraw (p : R) (x y : list (list (list R))) : Prop :=
  Forall2 (Forall2 (Forall2 (fun v w => w = 0%R \/ w = (v / (1 - p))%R))) x y.

(** The two extreme draws: every entry is kept, every entry is zeroed. *)
Definition dropout_keep (p : R) (x : list (list (list R)))
  : list (list (list R)) :=
  map (map (map (fun v => (v / (1 - p))%R))) x.

Definition dropout_zero (x : list (list (list R))) : list (list (list R)) :=
  map (map (map (fun _ : R => 0%R))) x.

(** [nn.LayerNorm(n)] on one row, as it is initialised (weight 1, bias 0,
    [eps = 1e-5]): the row is centred and divided by the square root of its
    biased variance plus [eps]. *)
Definition layer_norm (x : list R) : list R :=
  let n := INR (length x) in
  let mean := (Rsum x / n)%R in
  let var := (Rsum (map (fun v => (v - mean) * (v - mean)) x) / n)%R in
  map (fun v => ((v - mean) / sqrt (var + 1 / 100000))%R) x.

(** A decoder layer of two features and two heads in evaluation mode, with
    identity projections and feed-forward map on rows of two entries and
    freshly initialised layer norms, and a model of two tokens built on
    it. *)
Definition normed_layer : TransformerDecoderLayer.t :=
  TransformerDecoderLayer.mk (mha_fitted 2 2) (fit 2) layer_norm layer_norm
    (fun x => x) (fun x => x).

Definition normed_transformer : Transformer.t :=
  Transformer.mk 2 [[0%R; 0%R]; [1%R; 1%R]]
    (SinusoidalPositionalEmbedding.mk 2 4) [normed_layer] (fit 2).

(** The same model at one call in training mode, [d1] and [d2] being what
    the two dropouts of its layer do at that call; its feed-forward map
    returns its output bias (1, 0), as it does when its own dropout zeroes
    every entry. *)
Definition training_transformer
    (d1 d2 : list (list (list R)) -> list (list (list R))) : Transformer.t :=
  Transformer.mk 2 [[0%R; 0%R]; [1%R; 1%R]]
    (SinusoidalPositionalEmbedding.mk 2 4)
    [TransformerDecoderLayer.mk (mha_fitted 2 2) (fun _ => [1%R; 0%R])
       layer_norm layer_norm d1 d2]
    (fit 2).









(* ================================================================== *)
(** * Properties *)

Lemma bind_ok {X Y : Type} (a : X) (k : X -> result Y) :
  bind (ok a) k = k a.
Proof. reflexivity. Qed.

(** ** Buffers, views and transposition *)

Section BufferFacts.
Context {A : Type}.
Implicit Types (buf : list A).

Lemma chunks_length n k buf : length (chunks n k buf) = k.
Proof. revert buf; induction k; intros; simpl; auto. Qed.

Lemma chunks_each n k buf :
    length buf = k * n -> Forall (fun c => length c = n) (chunks n k buf).
Proof.
    revert buf; induction k; intros buf H; simpl; constructor.
    - rewrite length_firstn. simpl in H. lia.
    - apply IHk. rewrite length_skipn. simpl in H. lia.
Qed.

Lemma concat_chunks n k buf :
    length buf = k * n -> concat (chunks n k buf) = buf.
Proof.
    revert buf; induction k; intros buf H; simpl.
    - destruct buf; simpl in *; [reflexivity | discriminate].
    - rewrite IHk.
      + apply firstn_skipn.
      + rewrite length_skipn. simpl in H. lia.
Qed.

Lemma chunks_concat n (ll : list (list A)) :
    Forall (fun c => length c = n) ll ->
    chunks n (length ll) (concat ll) = ll.
Proof.
    induction 1 as [|c ll Hc Hll IH]; simpl; [reflexivity|].
    rewrite firstn_app, skipn_app, Hc, Nat.sub_diag.
    rewrite firstn_all2 by lia. rewrite skipn_all2 by lia.
    simpl. rewrite app_nil_r, IH. reflexivity.
Qed.

Lemma length_concat_uniform n (ll : list (list A)) :
    Forall (fun c => length c = n) ll ->
    length (concat ll) = length ll * n.
Proof.
    induction 1 as [|c ll Hc Hll IH]; simpl; [reflexivity|].
    rewrite length_app, IH, Hc. reflexivity.
Qed.

End BufferFacts.

Section TransposeFacts.
Context {X : Type}.

Lemma zip_cons_length (row : list X) (cols : list (list X)) :
  length row = length cols -> length (zip_cons row cols) = length row.
Proof.
  revert cols; induction row as [|a row IH]; intros [|c cols] H;
    simpl in *; try discriminate; auto.
Qed.

Lemma zip_cons_each k (row : list X) (cols : list (list X)) :
  Forall (fun c => length c = k) cols ->
  Forall (fun c => length c = S k) (zip_cons row cols).
Proof.
  intros H; revert row; induction H as [|c cols Hc Hcols IH]; intros [|a row];
    simpl; constructor; simpl; auto.
Qed.

Lemma transpose_shape n (m : list (list X)) :
  Forall (fun r => length r = n) m ->
  Shape2 n (length m) (transpose n m).
Proof.
  induction 1 as [|r m Hr Hm IH]; simpl.
  - split; [apply repeat_length|]. apply Forall_forall.
    intros c Hc. apply repeat_spec in Hc. subst. reflexivity.
  - destruct IH as [Hlen Hall]. split.
    + rewrite zip_cons_length; lia.
    + apply zip_cons_each, Hall.
Qed.

Lemma transpose_zip_cons k (row : list X) (cols : list (list X)) :
  length row = length cols ->
  Forall (fun c => length c = k) cols ->
  transpose (S k) (zip_cons row cols) = row :: transpose k cols.
Proof.
  revert cols; induction row as [|a row IH]; intros [|c cols] Hlen Hall;
    simpl in *; try discriminate; [reflexivity|].
  inversion Hall; subst. rewrite IH; auto.
Qed.

Lemma transpose_nils n : transpose 0 (repeat (@nil X) n) = [].
Proof. destruct n; reflexivity. Qed.

Lemma transpose_involutive n (m : list (list X)) :
  Forall (fun r => length r = n) m ->
  transpose (length m) (transpose n m) = m.
Proof.
  induction 1 as [|r m Hr Hm IH]; simpl.
  - apply transpose_nils.
  - destruct (transpose_shape Hm) as [Hlen Hall].
    rewrite transpose_zip_cons; [rewrite IH; reflexivity | lia | exact Hall].
Qed.

End TransposeFacts.

Section ViewFacts.
Context {A : Type}.
Implicit Types (buf : list A).

Lemma view2_shape d0 d1 buf :
  length buf = d0 * d1 -> Shape2 d0 d1 (view2 d0 d1 buf).
Proof.
  intros H. split; [apply chunks_length | apply chunks_each, H].
Qed.

Lemma flatten2_view2 d0 d1 buf :
  length buf = d0 * d1 -> flatten2 (view2 d0 d1 buf) = buf.
Proof. apply concat_chunks. Qed.

Lemma view2_flatten2 d0 d1 (t : list (list A)) :
  Shape2 d0 d1 t -> view2 d0 d1 (flatten2 t) = t.
Proof. intros [<- H]. apply chunks_concat, H. Qed.

Lemma flatten2_length d0 d1 (t : list (list A)) :
  Shape2 d0 d1 t -> length (flatten2 t) = d0 * d1.
Proof. intros [<- H]. apply length_concat_uniform, H. Qed.

Lemma view3_shape d0 d1 d2 buf :
  length buf = d0 * (d1 * d2) -> Shape3 d0 d1 d2 (view3 d0 d1 d2 buf).
Proof.
  intros H. split.
  - unfold view3. rewrite length_map. apply chunks_length.
  - unfold view3. apply Forall_map.
    eapply Forall_impl; [|apply chunks_each, H].
    intros c Hc. apply view2_shape, Hc.
Qed.

Lemma flatten3_view3 d0 d1 d2 buf :
  length buf = d0 * (d1 * d2) -> flatten3 (view3 d0 d1 d2 buf) = buf.
Proof.
  intros H. unfold flatten3, view3. rewrite map_map.
  rewrite (map_ext_Forall (fun c => flatten2 (view2 d1 d2 c)) (fun c => c)).
  - rewrite map_id. apply concat_chunks, H.
  - eapply Forall_impl; [|apply chunks_each, H].
    intros c Hc. apply flatten2_view2, Hc.
Qed.

Lemma flatten3_each d0 d1 d2 (t : list (list (list A))) :
  Shape3 d0 d1 d2 t ->
  Forall (fun c => length c = d1 * d2) (map flatten2 t).
Proof.
  intros [_ H]. apply Forall_map. eapply Forall_impl; [|exact H].
  intros m Hm. apply flatten2_length, Hm.
Qed.

Lemma flatten3_length d0 d1 d2 (t : list (list (list A))) :
  Shape3 d0 d1 d2 t -> length (flatten3 t) = d0 * (d1 * d2).
Proof.
  intros H. unfold flatten3.
  rewrite (length_concat_uniform (flatten3_each H)), length_map.
  destruct H as [-> _]. reflexivity.
Qed.

Lemma view3_flatten3 d0 d1 d2 (t : list (list (list A))) :
  Shape3 d0 d1 d2 t -> view3 d0 d1 d2 (flatten3 t) = t.
Proof.
  intros H. pose proof (flatten3_each H) as He.
  destruct H as [Hlen Hall]. unfold view3, flatten3.
  rewrite <- Hlen, <- (length_map flatten2 t), (chunks_concat He), map_map.
  rewrite (map_ext_Forall (fun m => view2 d1 d2 (flatten2 m)) (fun m => m)).
  - apply map_id.
  - eapply Forall_impl; [|exact Hall]. intros m Hm. apply view2_flatten2, Hm.
Qed.

Lemma view4_shape d0 d1 d2 d3 buf :
  length buf = d0 * (d1 * d2 * d3) ->
  Shape4 d0 d1 d2 d3 (view4 d0 d1 d2 d3 buf).
Proof.
  intros H. split.
  - unfold view4. rewrite length_map. apply chunks_length.
  - unfold view4. apply Forall_map.
    eapply Forall_impl; [|apply chunks_each, H].
    intros c Hc. apply view3_shape. rewrite Hc. lia.
Qed.

Lemma flatten4_view4 d0 d1 d2 d3 buf :
  length buf = d0 * (d1 * d2 * d3) ->
  flatten4 (view4 d0 d1 d2 d3 buf) = buf.
Proof.
  intros H. unfold flatten4, view4. rewrite map_map.
  rewrite (map_ext_Forall (fun c => flatten3 (view3 d1 d2 d3 c)) (fun c => c)).
  - rewrite map_id. apply concat_chunks, H.
  - eapply Forall_impl; [|apply chunks_each, H].
    intros c Hc. apply flatten3_view3. rewrite Hc. lia.
Qed.

Lemma flatten4_each d0 d1 d2 d3 (t : list (list (list (list A)))) :
  Shape4 d0 d1 d2 d3 t ->
  Forall (fun c => length c = d1 * d2 * d3) (map flatten3 t).
Proof.
  intros [_ H]. apply Forall_map. eapply Forall_impl; [|exact H].
  intros m Hm. rewrite (flatten3_length Hm). lia.
Qed.

Lemma flatten4_length d0 d1 d2 d3 (t : list (list (list (list A)))) :
  Shape4 d0 d1 d2 d3 t -> length (flatten4 t) = d0 * (d1 * d2 * d3).
Proof.
  intros H. unfold flatten4.
  rewrite (length_concat_uniform (flatten4_each H)), length_map.
  destruct H as [-> _]. reflexivity.
Qed.

Lemma view4_flatten4 d0 d1 d2 d3 (t : list (list (list (list A)))) :
  Shape4 d0 d1 d2 d3 t -> view4 d0 d1 d2 d3 (flatten4 t) = t.
Proof.
  intros H. pose proof (flatten4_each H) as He.
  destruct H as [Hlen Hall]. unfold view4, flatten4.
  rewrite <- Hlen, <- (length_map flatten3 t), (chunks_concat He), map_map.
  rewrite (map_ext_Forall (fun m => view3 d1 d2 d3 (flatten3 m)) (fun m => m)).
  - apply map_id.
  - eapply Forall_impl; [|exact Hall]. intros m Hm. apply view3_flatten3, Hm.
Qed.

Lemma zip_cons_all (P : A -> Prop) (row : list A) (cols : list (list A)) :
  Forall P row -> Forall (Forall P) cols -> Forall (Forall P) (zip_cons row cols).
Proof.
  intros Hrow; revert cols; induction Hrow as [|a row Ha Hrow IH];
    intros [|c cols] Hcols; simpl; auto.
  inversion Hcols; subst. constructor; auto.
Qed.

Lemma transpose_all (P : A -> Prop) n (m : list (list A)) :
  Forall (Forall P) m -> Forall (Forall P) (transpose n m).
Proof.
  induction 1 as [|r m Hr Hm IH]; simpl.
  - apply Forall_forall. intros c Hc. apply repeat_spec in Hc. subst. constructor.
  - apply zip_cons_all; assumption.
Qed.

End ViewFacts.

Section PermuteFacts.
Context {A : Type}.

Lemma Shape3_rows d0 d1 d2 (m : list (list (list A))) :
  Shape3 d0 d1 d2 m -> Forall (fun r => length r = d1) m.
Proof.
  intros [_ H]. eapply Forall_impl; [|exact H]. intros r [Hr _]. exact Hr.
Qed.

Lemma Shape3_vectors d0 d1 d2 (m : list (list (list A))) :
  Shape3 d0 d1 d2 m -> Forall (Forall (fun v => length v = d2)) m.
Proof.
  intros [_ H]. eapply Forall_impl; [|exact H]. intros r [_ Hr]. exact Hr.
Qed.

Lemma transpose_shape3 d0 d1 d2 (m : list (list (list A))) :
  Shape3 d0 d1 d2 m -> Shape3 d1 d0 d2 (transpose d1 m).
Proof.
  intros H. pose proof (transpose_shape (Shape3_rows H)) as [Hlen Hcols].
  pose proof (transpose_all d1 (Shape3_vectors H)) as Hvec.
  destruct H as [Hm _]. rewrite Hm in Hcols. split; [exact Hlen|].
  rewrite Forall_forall in *. intros col Hcol. split; auto.
Qed.

Lemma permute_0213_shape d0 d1 d2 d3 (t : list (list (list (list A)))) :
  Shape4 d0 d1 d2 d3 t -> Shape4 d0 d2 d1 d3 (permute_0213 d2 t).
Proof.
  intros [Hlen Hall]. unfold permute_0213. split.
  - rewrite length_map. exact Hlen.
  - apply Forall_map. eapply Forall_impl; [|exact Hall].
    intros m Hm. apply transpose_shape3, Hm.
Qed.

Lemma permute_0213_involutive d0 d1 d2 d3 (t : list (list (list (list A)))) :
  Shape4 d0 d1 d2 d3 t -> permute_0213 d1 (permute_0213 d2 t) = t.
Proof.
  intros [_ Hall]. unfold permute_0213. rewrite map_map.
  rewrite (map_ext_Forall (fun m => transpose d1 (transpose d2 m)) (fun m => m)).
  - apply map_id.
  - eapply Forall_impl; [|exact Hall]. intros m Hm.
    pose proof (transpose_involutive (Shape3_rows Hm)) as Hinv.
    destruct Hm as [Hm _]. rewrite Hm in Hinv. exact Hinv.
Qed.

End PermuteFacts.

Section ReshapeFacts.
Context {A : Type}.
Implicit Types (buf : list A).

Lemma reshape3_of_nat d0 d1 d2 buf :
  length buf = d0 * (d1 * d2) ->
  reshape3 (Z.of_nat d0) (Z.of_nat d1) (Z.of_nat d2) buf
  = ok (view3 d0 d1 d2 buf).
Proof.
  intros H. unfold reshape3, reshape_ok. simpl.
  replace (0 <=? Z.of_nat d0)%Z with true by (symmetry; apply Z.leb_le; lia).
  replace (0 <=? Z.of_nat d1)%Z with true by (symmetry; apply Z.leb_le; lia).
  replace (0 <=? Z.of_nat d2)%Z with true by (symmetry; apply Z.leb_le; lia).
  simpl.
  replace (Z.of_nat (length buf) =? _)%Z with true
    by (symmetry; apply Z.eqb_eq; rewrite H; lia).
  rewrite !Nat2Z.id. reflexivity.
Qed.

Lemma reshape4_of_nat d0 d1 d2 d3 buf :
  length buf = d0 * (d1 * d2 * d3) ->
  reshape4 (Z.of_nat d0) (Z.of_nat d1) (Z.of_nat d2) (Z.of_nat d3) buf
  = ok (view4 d0 d1 d2 d3 buf).
Proof.
  intros H. unfold reshape4, reshape_ok. simpl.
  replace (0 <=? Z.of_nat d0)%Z with true by (symmetry; apply Z.leb_le; lia).
  replace (0 <=? Z.of_nat d1)%Z with true by (symmetry; apply Z.leb_le; lia).
  replace (0 <=? Z.of_nat d2)%Z with true by (symmetry; apply Z.leb_le; lia).
  replace (0 <=? Z.of_nat d3)%Z with true by (symmetry; apply Z.leb_le; lia).
  simpl.
  replace (Z.of_nat (length buf) =? _)%Z with true
    by (symmetry; apply Z.eqb_eq; rewrite H; lia).
  rewrite !Nat2Z.id. reflexivity.
Qed.

Lemma floordiv_of_nat (a h : nat) :
  0 < h -> floordiv (Z.of_nat a) (Z.of_nat h) = ok (Z.of_nat (a / h)).
Proof.
  intros Hh. unfold floordiv.
  replace (Z.of_nat h =? 0)%Z with false by (symmetry; apply Z.eqb_neq; lia).
  rewrite Nat2Z.inj_div. reflexivity.
Qed.

Lemma size3_of_shape d0 d1 d2 (x : list (list (list A))) :
  Shape3 d0 d1 d2 x -> 0 < d0 ->
  size3 x = (d0, d1, if d1 =? 0 then 0 else d2).
Proof.
  intros [H0 Hall] Hpos. unfold size3.
  destruct x as [|m x]; simpl in *; [lia|].
  inversion Hall as [|? ? [Hm Hrows] _]; subst.
  destruct m as [|r m]; simpl in *; [reflexivity|].
  inversion Hrows; subst. reflexivity.
Qed.

Lemma Shape3_no_rows d0 d2 d2' (x : list (list (list A))) :
  Shape3 d0 0 d2 x -> Shape3 d0 0 d2' x.
Proof.
  intros [H0 Hall]. split; [exact H0|].
  eapply Forall_impl; [|exact Hall].
  intros m [Hm _]. destruct m; [|discriminate]. split; auto.
Qed.

End ReshapeFacts.

Section RoundTrip.
Context {A : Type}.
Variable self : MultiHeadAttention.t.
Variable h : nat.
Hypothesis head_num_pos : 0 < h.
Hypothesis head_num_eq : MultiHeadAttention.head_num self = Z.of_nat h.

Lemma _reshape_to_batches_value B L s (x : list (list (list A))) :
  0 < B -> (L = 0 -> s = 0) ->
  Shape3 B L (h * s) x ->
  MultiHeadAttention._reshape_to_batches self x
  = ok (view3 (B * h) L s
          (flatten4 (permute_0213 h (view4 B L h s (flatten3 x))))).
Proof.
  intros HB HL Hx. unfold MultiHeadAttention._reshape_to_batches.
  rewrite (size3_of_shape Hx HB).
  assert (Hd : (if L =? 0 then 0 else h * s) = h * s).
  { destruct (Nat.eqb_spec L 0) as [->|]; [rewrite HL by reflexivity; lia | reflexivity]. }
  rewrite Hd, head_num_eq, (floordiv_of_nat _ head_num_pos).
  replace (h * s / h) with s by (symmetry; rewrite Nat.mul_comm; apply Nat.div_mul; lia).
  simpl. pose proof (flatten3_length Hx) as Hlen.
  rewrite reshape4_of_nat by (rewrite Hlen; lia).
  simpl. rewrite Nat2Z.id, <- Nat2Z.inj_mul.
  apply reshape3_of_nat.
  rewrite (flatten4_length (d0:=B) (d1:=h) (d2:=L) (d3:=s)); [lia|].
  apply permute_0213_shape, view4_shape. rewrite Hlen. lia.
Qed.

Lemma _reshape_from_batches_value B L s (y : list (list (list A))) :
  0 < B -> (L = 0 -> s = 0) ->
  Shape3 (B * h) L s y ->
  MultiHeadAttention._reshape_from_batches self y
  = ok (view3 B L (s * h)
          (flatten4 (permute_0213 L (view4 B h L s (flatten3 y))))).
Proof.
  intros HB HL Hy. unfold MultiHeadAttention._reshape_from_batches.
  rewrite (size3_of_shape Hy) by lia.
  assert (Hd : (if L =? 0 then 0 else s) = s).
  { destruct (Nat.eqb_spec L 0) as [->|]; [rewrite HL by reflexivity; lia | reflexivity]. }
  rewrite Hd, head_num_eq, (floordiv_of_nat _ head_num_pos).
  rewrite Nat.div_mul by lia.
  simpl. pose proof (flatten3_length Hy) as Hlen.
  rewrite reshape4_of_nat by (rewrite Hlen; lia).
  simpl. rewrite <- Nat2Z.inj_mul.
  apply reshape3_of_nat.
  rewrite (flatten4_length (d0:=B) (d1:=L) (d2:=h) (d3:=s)); [lia|].
  apply permute_0213_shape, view4_shape. rewrite Hlen. lia.
Qed.

End RoundTrip.

Section RoundTripTheorem.
Context {A : Type}.

Lemma round_trip_nonempty (self : MultiHeadAttention.t) (h B L s : nat)
      (x : list (list (list A))) :
  0 < h -> MultiHeadAttention.head_num self = Z.of_nat h ->
  0 < B -> (L = 0 -> s = 0) -> Shape3 B L (h * s) x ->
  (y <- MultiHeadAttention._reshape_to_batches self x ;;
   MultiHeadAttention._reshape_from_batches self y) = ok x.
Proof.
  intros Hh Heq HB HL Hx.
  pose proof (flatten3_length Hx) as Hlen.
  assert (Hx4 : Shape4 B L h s (view4 B L h s (flatten3 x))).
  { apply view4_shape. rewrite Hlen. lia. }
  pose proof (permute_0213_shape Hx4) as Hp.
  pose proof (flatten4_length Hp) as Hplen.
  rewrite (@_reshape_to_batches_value A self h Hh Heq B L s x HB HL Hx). simpl.
  rewrite (@_reshape_from_batches_value A self h Hh Heq B L s); auto.
  - rewrite flatten3_view3 by (rewrite Hplen; lia).
    rewrite (view4_flatten4 Hp), (permute_0213_involutive Hx4).
    rewrite flatten4_view4 by (rewrite Hlen; lia).
    rewrite view3_flatten3; [reflexivity|].
    rewrite Nat.mul_comm. exact Hx.
  - apply view3_shape. rewrite Hplen. lia.
Qed.

Lemma round_trip_empty (self : MultiHeadAttention.t) (h : nat) :
  0 < h -> MultiHeadAttention.head_num self = Z.of_nat h ->
  (y <- MultiHeadAttention._reshape_to_batches self (@nil (list (list A))) ;;
   MultiHeadAttention._reshape_from_batches self y) = ok [].
Proof.
  intros Hh Heq. destruct h as [|h]; [lia|].
  unfold MultiHeadAttention._reshape_to_batches,
    MultiHeadAttention._reshape_from_batches.
  simpl. rewrite Heq. reflexivity.
Qed.

End RoundTripTheorem.

(** ** C6: the head split and its inverse are a round trip *)

(** C6.  For a tensor [x] of shape [[B, L, d]] and a positive head count
    dividing [d], [_reshape_from_batches] applied to the result of
    [_reshape_to_batches] returns [x] itself, and neither reshape raises. *)
Theorem reshape_round_trip (A : Type) (self : MultiHeadAttention.t)
        (B L d : nat) (x : list (list (list A))) :
  (0 < MultiHeadAttention.head_num self)%Z ->
  (Z.of_nat d mod MultiHeadAttention.head_num self = 0)%Z ->
  Shape3 B L d x ->
  (y <- MultiHeadAttention._reshape_to_batches self x ;;
   MultiHeadAttention._reshape_from_batches self y) = ok x.
Proof.
  intros Hpos Hdiv Hx.
  set (h := Z.to_nat (MultiHeadAttention.head_num self)).
  assert (Hh : 0 < h) by (unfold h; lia).
  assert (Heq : MultiHeadAttention.head_num self = Z.of_nat h)
    by (unfold h; lia).
  destruct B as [|B].
  - destruct Hx as [Hlen _]. destruct x; [|discriminate].
    apply (@round_trip_empty A self h Hh Heq).
  - rewrite Heq in Hdiv.
    assert (Hd : d = h * (d / h)).
    { rewrite <- Nat2Z.inj_mod in Hdiv.
      apply Nat.Div0.div_exact; lia. }
    destruct (Nat.eq_dec L 0) as [->|HL].
    + apply (@round_trip_nonempty A self h (S B) 0 0); auto; try lia.
      apply (Shape3_no_rows (h * 0) Hx).
    + apply (@round_trip_nonempty A self h (S B) L (d / h)); auto; try lia.
      rewrite <- Hd. exact Hx.
Qed.

(** Witness: a [[1, 2, 4]] tensor folded into two heads and back. *)
Lemma reshape_round_trip_witness :
  (y <- MultiHeadAttention._reshape_to_batches
          (mha_identity 4 2) [[[1; 2; 3; 4]; [5; 6; 7; 8]]] ;;
   MultiHeadAttention._reshape_from_batches (mha_identity 4 2) y)
  = ok [[[1; 2; 3; 4]; [5; 6; 7; 8]]].
Proof.
  apply (@reshape_round_trip nat (mha_identity 4 2) 1 2 4).
  - simpl. lia.
  - reflexivity.
  - repeat constructor.
Defined.

(** ** C8: the divisibility guard of the constructor *)

(** The constructor past its guard: a head count that divides a feature
    size that is not negative. *)
Lemma init_passes (in_features head_num : Z) (bias : bool)
      (lq lk lv lo : list R -> list R) :
  head_num <> 0%Z -> (head_num | in_features)%Z -> (0 <= in_features)%Z ->
  MultiHeadAttention.__init__ in_features head_num bias lq lk lv lo
  = ok (MultiHeadAttention.mk in_features head_num bias lq lk lv lo).
Proof.
  intros Hnz Hd Hpos. unfold MultiHeadAttention.__init__, pymod.
  replace (head_num =? 0)%Z with false
    by (symmetry; apply Z.eqb_neq; exact Hnz).
  rewrite bind_ok.
  replace (in_features mod head_num =? 0)%Z with true
    by (symmetry; apply Z.eqb_eq, Z.mod_divide; assumption).
  cbn [negb]. unfold MultiHeadAttention.nn_Linear.
  replace (in_features <? 0)%Z with false
    by (symmetry; apply Z.ltb_ge; exact Hpos).
  reflexivity.
Qed.

(** C8.  For a non-zero head count, constructing [MultiHeadAttention]
    raises the configuration error ([ValueError]) exactly when
    [in_features] is not divisible by [head_num].  When it is divisible the
    constructor goes on to its four [nn.Linear] projections: it succeeds
    with the given fields for a feature size that is not negative, and a
    negative one is the RuntimeError of [nn.Linear].  [(10, 3)] raises the
    configuration error and [(12, 3)] succeeds. *)
Theorem init_divisibility_guard (in_features head_num : Z) (bias : bool)
        (lq lk lv lo : list R -> list R) :
  head_num <> 0%Z ->
  (MultiHeadAttention.__init__ in_features head_num bias lq lk lv lo
     = raise ValueError
   <-> ~ (head_num | in_features)%Z)
  /\ ((head_num | in_features)%Z -> (0 <= in_features)%Z ->
      MultiHeadAttention.__init__ in_features head_num bias lq lk lv lo
      = ok (MultiHeadAttention.mk in_features head_num bias lq lk lv lo))
  /\ ((head_num | in_features)%Z -> (in_features < 0)%Z ->
      MultiHeadAttention.__init__ in_features head_num bias lq lk lv lo
      = raise RuntimeError)
  /\ MultiHeadAttention.__init__ 10 3 bias lq lk lv lo = raise ValueError
  /\ MultiHeadAttention.__init__ 12 3 bias lq lk lv lo
     = ok (MultiHeadAttention.mk 12 3 bias lq lk lv lo).
Proof.
  intros Hnz.
  assert (Hdiv : (in_features mod head_num = 0 <-> (head_num | in_features))%Z)
    by (apply Z.mod_divide; exact Hnz).
  split; [|split; [|split; [|split; reflexivity]]].
  - unfold MultiHeadAttention.__init__, pymod.
    replace (head_num =? 0)%Z with false
      by (symmetry; apply Z.eqb_neq; exact Hnz).
    rewrite bind_ok.
    destruct (Z.eqb_spec (in_features mod head_num) 0) as [Hz | Hz];
      cbn [negb].
    + split; [|intros Hn; exfalso; apply Hn, Hdiv, Hz].
      unfold MultiHeadAttention.nn_Linear.
      destruct ((in_features <? 0) || (in_features <? 0))%Z;
        intros Habs; discriminate Habs.
    + split; [intros _ Hd; apply Hz, Hdiv, Hd | reflexivity].
  - intros Hd Hpos. apply (init_passes bias lq lk lv lo Hnz Hd Hpos).
  - intros Hd Hneg. unfold MultiHeadAttention.__init__, pymod.
    replace (head_num =? 0)%Z with false
      by (symmetry; apply Z.eqb_neq; exact Hnz).
    rewrite bind_ok.
    replace (in_features mod head_num =? 0)%Z with true
      by (symmetry; apply Z.eqb_eq, Hdiv, Hd).
    cbn [negb]. unfold MultiHeadAttention.nn_Linear.
    replace (in_features <? 0)%Z with true
      by (symmetry; apply Z.ltb_lt; exact Hneg).
    reflexivity.
Qed.

(** Witness: the head count 3 against the feature sizes 10 and 12. *)
Lemma init_divisibility_guard_witness :
  MultiHeadAttention.__init__ 10 3 true (fun r => r) (fun r => r)
    (fun r => r) (fun r => r) = raise ValueError
  /\ MultiHeadAttention.__init__ 12 3 true (fun r => r) (fun r => r)
       (fun r => r) (fun r => r) = ok (mha_identity 12 3).
Proof.
  pose proof (@init_divisibility_guard 12 3 true (fun r => r) (fun r => r)
                (fun r => r) (fun r => r)) as H.
  destruct H as (_ & Hok & _ & H10 & _); [lia|].
  split; [exact H10|].
  apply Hok; [exists 4%Z; reflexivity | lia].
Defined.

(** ** Broadcasting and zipping *)

Section ZipFacts.
Context {X Y W : Type}.

Lemma bcast2_same_length (f : X -> Y -> W) l1 l2 :
  length l1 = length l2 -> bcast2 f l1 l2 = map2 f l1 l2.
Proof.
  destruct l1 as [|a [|a' l1]], l2 as [|b [|b' l2]];
    simpl; intros H; try discriminate; reflexivity.
Qed.

Lemma bcast2_singleton_r (f : X -> Y -> W) l1 b :
  bcast2 f l1 [b] = map (fun a => f a b) l1.
Proof. destruct l1 as [|a [|a' l1]]; reflexivity. Qed.

Lemma bcast2_singleton_l (f : X -> Y -> W) a l2 :
  bcast2 f [a] l2 = map (f a) l2.
Proof. reflexivity. Qed.

Lemma map2_length (f : X -> Y -> W) l1 l2 :
  length (map2 f l1 l2) = Nat.min (length l1) (length l2).
Proof. unfold map2. rewrite length_map. apply length_combine. Qed.

Lemma map2_map_same {V : Type} (f : X -> Y -> W) (g : V -> X) (h : V -> Y) l :
  map2 f (map g l) (map h l) = map (fun v => f (g v) (h v)) l.
Proof. unfold map2. induction l; simpl; [reflexivity | f_equal; assumption]. Qed.

Lemma map2_repeat_l (f : X -> Y -> W) a l2 :
  map2 f (repeat a (length l2)) l2 = map (f a) l2.
Proof. unfold map2. induction l2; simpl; [reflexivity | f_equal; assumption]. Qed.

Lemma map2_repeat_r (f : X -> Y -> W) l1 b :
  map2 f l1 (repeat b (length l1)) = map (fun a => f a b) l1.
Proof. unfold map2. induction l1; simpl; [reflexivity | f_equal; assumption]. Qed.

End ZipFacts.

Lemma concat_repeat_singleton {X : Type} (a : X) n :
  concat (repeat [a] n) = repeat a n.
Proof. induction n; simpl; [reflexivity | f_equal; assumption]. Qed.

Lemma transpose_row {X : Type} (v : list X) :
  transpose (length v) [v] = map (fun a => [a]) v.
Proof.
  simpl. induction v as [|a v IH]; simpl; [reflexivity | f_equal; exact IH].
Qed.

Lemma nth_map_lt {X Y : Type} (f : X -> Y) l n d d' :
  n < length l -> nth n (map f l) d' = f (nth n l d).
Proof.
  intros H. rewrite (nth_indep _ d' (f d)) by (rewrite length_map; exact H).
  apply map_nth.
Qed.

Lemma create_self_attention_mask_closed dev vl causal M :
  tensor_max vl = ok M -> (0 <= M)%Z ->
  create_self_attention_mask dev vl causal
  = ok (mask_closed causal (Z.to_nat M) vl).
Proof.
  intros Hmax HM. unfold create_self_attention_mask.
  rewrite Hmax. simpl. unfold arange.
  replace (M <? 0)%Z with false by (symmetry; apply Z.ltb_ge; exact HM).
  simpl. unfold repeat0.
  replace (Z.of_nat (length vl) <? 0)%Z with false
    by (symmetry; apply Z.ltb_ge; lia).
  simpl. rewrite Nat2Z.id, concat_repeat_singleton.
  set (L := Z.to_nat M).
  set (f := fun p len : Z => if (p <? len)%Z then 1%Z else 0%Z).
  assert (H1 : bcast2 (bcast2 f) (repeat (map Z.of_nat (seq 0 L)) (length vl))
                 (map (fun len => [len]) vl)
               = map (fun len => map (valid len) (seq 0 L)) vl).
  { rewrite bcast2_same_length by (rewrite repeat_length, length_map; reflexivity).
    rewrite <- (length_map (fun len => [len]) vl) at 1.
    rewrite map2_repeat_l, map_map. apply map_ext. intros len.
    rewrite bcast2_singleton_r, map_map. reflexivity. }
  rewrite H1. clear H1. rewrite !map_map.
  assert (H2 : bcast2 (bcast2 (bcast2 Z.mul))
                 (map (fun len => [map (valid len) (seq 0 L)]) vl)
                 (map (fun len => transpose L [map (valid len) (seq 0 L)]) vl)
               = mask_closed false L vl).
  { rewrite bcast2_same_length by (rewrite !length_map; reflexivity).
    rewrite map2_map_same. unfold mask_closed. apply map_ext. intros len.
    replace (transpose L [map (valid len) (seq 0 L)])
      with (map (fun a => [a]) (map (valid len) (seq 0 L))).
    2:{ rewrite <- transpose_row. rewrite length_map, length_seq. reflexivity. }
    rewrite bcast2_singleton_l, !map_map. apply map_ext. intros i.
    rewrite bcast2_singleton_r, map_map. apply map_ext. intros j.
    unfold mask_entry. lia. }
  rewrite H2. clear H2.
  destruct causal; [|reflexivity].
  unfold create_causal_mask. simpl.
  replace (M <? 0)%Z with false by (symmetry; apply Z.ltb_ge; exact HM).
  unfold repeat0.
  replace (Z.of_nat (length vl) <? 0)%Z with false
    by (symmetry; apply Z.ltb_ge; lia).
  simpl. rewrite concat_repeat_singleton.
  f_equal.
  rewrite bcast2_same_length
    by (unfold mask_closed; rewrite length_map, repeat_length; reflexivity).
  replace (length vl) with (length (mask_closed false L vl))
    by (unfold mask_closed; apply length_map).
  rewrite map2_repeat_r. unfold mask_closed. rewrite map_map.
  apply map_ext. intros len.
  unfold tril_ones.
  rewrite bcast2_same_length by (rewrite !length_map; reflexivity).
  rewrite map2_map_same. apply map_ext. intros i.
  rewrite bcast2_same_length by (rewrite !length_map; reflexivity).
  rewrite map2_map_same. apply map_ext. intros j.
  unfold mask_entry, lower. lia.
Qed.

Lemma mask_closed_shape causal L vl :
  Shape3 (length vl) L L (mask_closed causal L vl).
Proof.
  unfold mask_closed. split; [apply length_map|].
  apply Forall_map, Forall_forall. intros len _. split.
  - rewrite length_map. apply length_seq.
  - apply Forall_map, Forall_forall. intros i _.
    rewrite length_map. apply length_seq.
Qed.

Lemma mask_closed_get3 causal L vl b i j :
  b < length vl -> i < L -> j < L ->
  get3 (mask_closed causal L vl) b i j = mask_entry causal (nth b vl 0%Z) i j.
Proof.
  intros Hb Hi Hj. unfold get3, mask_closed.
  rewrite (nth_map_lt _ vl 0%Z) by exact Hb.
  rewrite (nth_map_lt _ (seq 0 L) 0) by (rewrite length_seq; exact Hi).
  rewrite (nth_map_lt _ (seq 0 L) 0) by (rewrite length_seq; exact Hj).
  rewrite !seq_nth by assumption. reflexivity.
Qed.

(** ** C2: the self-attention mask *)

(** C2.  For a non-empty vector of valid lengths whose maximum [M] is not
    negative, [create_self_attention_mask] returns a mask of shape
    [[batch, M, M]] whose entry [[b, i, j]] is
    [v[b,i] * v[b,j] * causal[i,j]] (the last factor only when [causal]):
    it is 0 or 1, it is 0 whenever [i] or [j] is at or beyond the valid
    length of example [b], for a causal mask it is 0 whenever [j > i], and
    every other entry is 1. *)
Theorem create_self_attention_mask_correct (dev : device) (vl : list Z)
        (causal : bool) (M : Z) :
  tensor_max vl = ok M -> (0 <= M)%Z ->
  exists mask,
    create_self_attention_mask dev vl causal = ok mask
    /\ Shape3 (length vl) (Z.to_nat M) (Z.to_nat M) mask
    /\ forall b i j,
        b < length vl -> i < Z.to_nat M -> j < Z.to_nat M ->
        get3 mask b i j
        = (valid (nth b vl 0%Z) i * valid (nth b vl 0%Z) j
           * (if causal then lower i j else 1))%Z
        /\ (get3 mask b i j = 0%Z \/ get3 mask b i j = 1%Z)
        /\ ((nth b vl 0 <= Z.of_nat i)%Z \/ (nth b vl 0 <= Z.of_nat j)%Z ->
            get3 mask b i j = 0%Z)
        /\ (causal = true -> i < j -> get3 mask b i j = 0%Z)
        /\ ((Z.of_nat i < nth b vl 0)%Z -> (Z.of_nat j < nth b vl 0)%Z ->
            (causal = true -> j <= i) -> get3 mask b i j = 1%Z).
Proof.
  intros Hmax HM. exists (mask_closed causal (Z.to_nat M) vl).
  split; [apply create_self_attention_mask_closed; assumption|].
  split; [apply mask_closed_shape|].
  intros b i j Hb Hi Hj. rewrite (mask_closed_get3 causal vl Hb Hi Hj).
  unfold mask_entry, valid, lower.
  destruct (Z.ltb_spec (Z.of_nat i) (nth b vl 0%Z)) as [Hvi | Hvi];
    destruct (Z.ltb_spec (Z.of_nat j) (nth b vl 0%Z)) as [Hvj | Hvj];
    destruct causal; try destruct (Nat.leb_spec j i) as [Hji | Hji];
    repeat split; intros; try lia; try discriminate;
    try (left; reflexivity); try (right; reflexivity).
  all: try (exfalso; lia).
  all: try (match goal with H : true = true -> _ |- _ =>
                              specialize (H eq_refl); lia end).
Qed.

(** Witness: the lengths [[1; 2]] with the causal constraint. *)
Lemma create_self_attention_mask_correct_witness :
  exists mask,
    create_self_attention_mask cpu [1%Z; 2%Z] true = ok mask
    /\ Shape3 2 2 2 mask
    /\ get3 mask 0 0 0 = 1%Z /\ get3 mask 0 1 1 = 0%Z
    /\ get3 mask 1 0 1 = 0%Z /\ get3 mask 1 1 0 = 1%Z.
Proof.
  destruct (@create_self_attention_mask_correct cpu [1%Z; 2%Z] true 2%Z)
    as (mask & Hm & Hs & He); [reflexivity | lia |].
  exists mask. split; [exact Hm|]. split; [exact Hs|].
  rewrite (proj1 (He 0 0 0 ltac:(simpl; lia) ltac:(simpl; lia) ltac:(simpl; lia))).
  rewrite (proj1 (He 0 1 1 ltac:(simpl; lia) ltac:(simpl; lia) ltac:(simpl; lia))).
  rewrite (proj1 (He 1 0 1 ltac:(simpl; lia) ltac:(simpl; lia) ltac:(simpl; lia))).
  rewrite (proj1 (He 1 1 0 ltac:(simpl; lia) ltac:(simpl; lia) ltac:(simpl; lia))).
  repeat split.
Defined.

(** ** C1: the replicated mask against the folded layout *)

Lemma concat_repeat_length {X : Type} (m : list X) c :
  length (concat (repeat m c)) = c * length m.
Proof.
  induction c as [|c IH]; simpl; [reflexivity|].
  rewrite length_app, IH. reflexivity.
Qed.

Lemma concat_repeat_nth {X : Type} (m : list X) c k d :
  k < c * length m ->
  nth k (concat (repeat m c)) d = nth (k mod length m) m d.
Proof.
  revert k. induction c as [|c IH]; intros k Hk; simpl in *; [lia|].
  destruct (Nat.lt_ge_cases k (length m)) as [Hlt | Hge].
  - rewrite app_nth1 by exact Hlt. rewrite Nat.mod_small by exact Hlt.
    reflexivity.
  - rewrite app_nth2 by exact Hge. rewrite IH by lia.
    replace k with ((k - length m) + 1 * length m) at 2 by lia.
    rewrite Nat.Div0.mod_add. reflexivity.
Qed.

(** The copy of the mask that [mask.repeat(head_num, 1, 1)] puts at the
    folded index [k] is the mask of example [k mod B]. *)
Lemma repeat0_nth {X : Type} (n : Z) (m : list X) (k : nat) (d : X) :
  (0 <= n)%Z -> k < Z.to_nat n * length m ->
  exists rep, repeat0 n m = ok rep
              /\ length rep = Z.to_nat n * length m
              /\ nth k rep d = nth (k mod length m) m d.
Proof.
  intros Hn Hk. unfold repeat0.
  replace (n <? 0)%Z with false by (symmetry; apply Z.ltb_ge; exact Hn).
  eexists. split; [reflexivity|]. split.
  - apply concat_repeat_length.
  - apply concat_repeat_nth, Hk.
Qed.

(** C1 fails on the code.  With two examples of valid lengths 1 and 2 and
    two heads, [_reshape_to_batches] puts head 1 of example 0 at the folded
    index [0 * 2 + 1 = 1], while the mask replicated by
    [mask.repeat(head_num, 1, 1)] carries at index 1 the mask of example 1,
    which differs from the mask of example 0. *)
Theorem mask_repeat_misaligned :
  exists mask folded rep,
    create_self_attention_mask cpu [1%Z; 2%Z] true = ok mask
    /\ MultiHeadAttention._reshape_to_batches (mha_identity 2 2)
         [[[10; 11]; [12; 13]]; [[20; 21]; [22; 23]]] = ok folded
    /\ repeat0 (MultiHeadAttention.head_num (mha_identity 2 2)) mask = ok rep
    /\ nth 1 folded [] = [[11]; [13]]
    /\ nth 1 rep [] = nth 1 mask []
    /\ nth 1 rep [] <> nth 0 mask [].
Proof.
  do 3 eexists.
  split; [reflexivity|]. split; [reflexivity|]. split; [reflexivity|].
  split; [reflexivity|]. split; [reflexivity|].
  simpl. discriminate.
Qed.

(** ** C7: the bands of the positional embedding *)

(** C7 fails on the code.  For [dmodel = 2] the feature at index 1 is the
    band the source calls [cos]; at position 0 a cosine band contributes
    [cos 0 = 1], whereas [forward] returns the input unchanged there: the
    band is computed with [torch.sin]. *)
Theorem positional_cos_band_is_sine :
  SinusoidalPositionalEmbedding.forward
    (SinusoidalPositionalEmbedding.mk 2 4) [[[0%R; 0%R]]] = ok [[[0%R; 0%R]]]
  /\ cos (INR 0 / Rpower 10000 (INR 0 / INR 2)) = 1%R.
Proof.
  split.
  - unfold SinusoidalPositionalEmbedding.forward,
      SinusoidalPositionalEmbedding.encodings,
      SinusoidalPositionalEmbedding.band.
    cbn [length hd Z.of_nat SinusoidalPositionalEmbedding.num_positions
         SinusoidalPositionalEmbedding.dmodel Z.gtb Z.compare seq map evens odds
         map2 combine fst snd app bcast2 INR].
    unfold Rdiv. rewrite !Rmult_0_l, sin_0, !Rplus_0_l. reflexivity.
  - cbn [INR]. unfold Rdiv. rewrite !Rmult_0_l. apply cos_0.
Qed.

(** ** Results of the small tensor helpers *)

Lemma fold_left_max_repeat (v : Z) n : fold_left Z.max (repeat v n) v = v.
Proof. induction n; simpl; [reflexivity | rewrite Z.max_id; exact IHn]. Qed.

Lemma full_ok (n v : Z) :
  (0 <= n)%Z -> full n v = ok (repeat v (Z.to_nat n)).
Proof.
  intros H. unfold full.
  replace (n <? 0)%Z with false by (symmetry; apply Z.ltb_ge; exact H).
  reflexivity.
Qed.

Lemma tensor_max_repeat (v : Z) n :
  0 < n -> tensor_max (repeat v n) = ok v.
Proof.
  destruct n as [|n]; [lia|]. intros _. simpl.
  rewrite fold_left_max_repeat. reflexivity.
Qed.

Lemma select_last_map {X Y : Type} (f : X -> Y) (t : list (list X)) :
  select_last (map (map f) t) = (l <- select_last t ;; ok (map f l)).
Proof.
  unfold select_last. induction t as [|m t IH]; simpl; [reflexivity|].
  rewrite <- map_rev. destruct (rev m) as [|a r]; simpl; [reflexivity|].
  rewrite IH.
  destruct (mapM _ t); reflexivity.
Qed.

(** ** Success and shapes of the generation loop *)

Lemma mapM_ok {X Y : Type} (f : X -> result Y) (P : X -> Prop) (Q : Y -> Prop)
      (l : list X) :
  (forall a, P a -> exists b, f a = ok b /\ Q b) ->
  Forall P l ->
  exists bs, mapM f l = ok bs /\ length bs = length l /\ Forall Q bs.
Proof.
  intros Hf. induction 1 as [|a l Ha Hl IH]; simpl.
  - exists []. repeat split. constructor.
  - destruct (Hf a Ha) as (b & Hb & HQ). destruct IH as (bs & Hbs & Hlen & HQs).
    exists (b :: bs). rewrite Hb, Hbs. simpl. repeat split.
    + f_equal. exact Hlen.
    + constructor; assumption.
Qed.

Lemma embedding_lookup_ok (weight : list (list R)) (ids : list (list Z)) B L :
  Shape2 B L ids ->
  Forall (Forall (fun id => (0 <= id < Z.of_nat (length weight))%Z)) ids ->
  exists emb, Transformer.embedding_lookup weight ids = ok emb
              /\ Shape2 B L emb.
Proof.
  intros [HB HL] Hids. unfold Transformer.embedding_lookup.
  destruct (@mapM_ok (list Z) (list (list R))
              (mapM (fun id =>
                 if ((0 <=? id) && (id <? Z.of_nat (length weight)))%Z
                 then ok (nth (Z.to_nat id) weight [])
                 else raise IndexError))
              (fun row => length row = L
                          /\ Forall (fun id =>
                               (0 <= id < Z.of_nat (length weight))%Z) row)
              (fun m => length m = L) ids) as (emb & Hemb & Hlen & Hall).
  - intros row [Hrow Hin].
    destruct (@mapM_ok Z (list R)
                (fun id =>
                   if ((0 <=? id) && (id <? Z.of_nat (length weight)))%Z
                   then ok (nth (Z.to_nat id) weight [])
                   else raise IndexError)
                (fun id => (0 <= id < Z.of_nat (length weight))%Z)
                (fun _ => True) row) as (m & Hm & Hmlen & _).
    + intros id Hid.
      replace ((0 <=? id) && (id <? Z.of_nat (length weight)))%Z with true.
      * eexists. split; [reflexivity | exact I].
      * symmetry. apply andb_true_iff. split; [apply Z.leb_le | apply Z.ltb_lt]; lia.
    + exact Hin.
    + exists m. split; [exact Hm | lia].
  - rewrite Forall_forall in *. intros row Hrow. split; auto.
  - exists emb. split; [exact Hemb|]. split; [lia | exact Hall].
Qed.

Lemma hd_length_of_shape {X : Type} B L (x : list (list X)) :
  0 < B -> Shape2 B L x -> length (hd [] x) = L.
Proof.
  intros HB [Hlen Hall]. destruct x as [|m x]; simpl in *; [lia|].
  inversion Hall; subst. reflexivity.
Qed.

Lemma encodings_length (self : SinusoidalPositionalEmbedding.t) L :
  length (SinusoidalPositionalEmbedding.encodings self L) = L.
Proof.
  unfold SinusoidalPositionalEmbedding.encodings,
    SinusoidalPositionalEmbedding.band.
  rewrite map2_length, !length_map, length_seq. apply Nat.min_id.
Qed.

Lemma bcast2_length_same {X Y W : Type} (f : X -> Y -> W) l1 l2 :
  length l1 = length l2 -> length (bcast2 f l1 l2) = length l1.
Proof.
  intros H. rewrite bcast2_same_length by exact H.
  rewrite map2_length, H. apply Nat.min_id.
Qed.

Lemma positional_forward_ok (self : SinusoidalPositionalEmbedding.t) B L
      (x : list (list (list R))) :
  0 < B -> Shape2 B L x ->
  (Z.of_nat L <= SinusoidalPositionalEmbedding.num_positions self)%Z ->
  exists y, SinusoidalPositionalEmbedding.forward self x = ok y
            /\ Shape2 B L y.
Proof.
  intros HB Hx HL. unfold SinusoidalPositionalEmbedding.forward.
  rewrite (hd_length_of_shape HB Hx).
  replace (Z.of_nat L >? SinusoidalPositionalEmbedding.num_positions self)%Z
    with false by (symmetry; rewrite Z.gtb_ltb; apply Z.ltb_ge; lia).
  eexists. split; [reflexivity|].
  rewrite bcast2_singleton_r. destruct Hx as [Hlen Hall]. split.
  - rewrite length_map. exact Hlen.
  - apply Forall_map. eapply Forall_impl; [|exact Hall].
    intros m Hm. simpl. rewrite bcast2_length_same; [exact Hm|].
    rewrite encodings_length. exact Hm.
Qed.

Lemma decode_layers_ok (layers : list TransformerDecoderLayer.t) B L
      (mask : list (list (list Z))) (log_p : option (list R)) :
  Forall LayerContract layers ->
  0 < B -> 0 < L -> Shape3 B L L mask ->
  (forall lp, log_p = Some lp -> length lp = B) ->
  forall x acc, Shape2 B L x ->
    exists y als,
      Transformer._decode_layers layers x (Some mask) log_p acc = ok (y, als)
      /\ Shape2 B L y.
Proof.
  intros Hlayers HB HL Hmask Hlp.
  induction Hlayers as [|layer layers Hc _ IH]; intros x acc Hx; simpl.
  - exists x, acc. split; [reflexivity | exact Hx].
  - destruct (Hc B L x mask log_p HB HL Hx Hmask Hlp) as (y & al & Hy & Hsy).
    rewrite Hy. simpl. apply IH, Hsy.
Qed.

Lemma select_last_ok {X : Type} B L (t : list (list X)) :
  Shape2 B L t -> 0 < L ->
  exists l, select_last t = ok l /\ length l = B.
Proof.
  intros [Hlen Hall] HL. unfold select_last.
  destruct (@mapM_ok (list X) X
              (fun m => match rev m with
                        | [] => raise IndexError
                        | a :: _ => ok a
                        end)
              (fun m => length m = L) (fun _ => True) t)
    as (l & Hl & Hll & _).
  - intros m Hm. destruct (rev m) as [|a r] eqn:Hrev.
    + apply (f_equal (@length X)) in Hrev. rewrite length_rev in Hrev.
      simpl in Hrev. lia.
    + exists a. split; [reflexivity | exact I].
  - exact Hall.
  - exists l. split; [exact Hl | lia].
Qed.

Lemma set_nth_length {X : Type} i (v : X) l :
  length (set_nth i v l) = length l.
Proof.
  revert i; induction l as [|a l IH]; intros [|i]; simpl; auto.
Qed.

Lemma set_column_ok (idx : Z) (v : R) B V (t : list (list R)) :
  0 < B -> Shape2 B V t -> (- Z.of_nat V <= idx < Z.of_nat V)%Z ->
  exists t', set_column idx v t = ok t' /\ Shape2 B V t'.
Proof.
  intros HB Ht Hidx. unfold set_column.
  rewrite (hd_length_of_shape HB Ht).
  set (i := if (idx <? 0)%Z then (idx + Z.of_nat V)%Z else idx).
  assert (Hi : (0 <= i < Z.of_nat V)%Z).
  { unfold i. destruct (Z.ltb_spec idx 0); lia. }
  replace ((0 <=? i) && (i <? Z.of_nat V))%Z with true.
  2:{ symmetry. apply andb_true_iff.
      split; [apply Z.leb_le | apply Z.ltb_lt]; lia. }
  eexists. split; [reflexivity|].
  destruct Ht as [Hlen Hall]. split.
  - rewrite length_map. exact Hlen.
  - apply Forall_map. eapply Forall_impl; [|exact Hall].
    intros row Hrow. simpl. rewrite set_nth_length. exact Hrow.
Qed.

Lemma mask_logits_ok (ids : list Z) B V (t : list (list R)) :
  0 < B -> Forall (fun id => (- Z.of_nat V <= id < Z.of_nat V)%Z) ids ->
  Shape2 B V t ->
  exists t', Transformer.mask_logits ids t = ok t' /\ Shape2 B V t'.
Proof.
  intros HB Hids. revert t.
  induction Hids as [|id ids Hid _ IH]; intros t Ht; simpl.
  - exists t. split; [reflexivity | exact Ht].
  - destruct (set_column_ok neg_1e9 HB Ht Hid) as (t1 & Ht1 & Hs1).
    rewrite Ht1. simpl. apply IH, Hs1.
Qed.

Lemma softmax_length (row : list R) : length (softmax row) = length row.
Proof. unfold softmax. rewrite !length_map. reflexivity. Qed.

Lemma tensor_div_ok (t : list (list R)) (c : R) :
  c <> 0%R -> tensor_div t c = Some (map (map (fun x => (x / c)%R)) t).
Proof.
  intros Hc. unfold tensor_div.
  destruct (Req_dec_T c 0) as [Heq | _]; [contradiction | reflexivity].
Qed.

Lemma generate_probs_ok (temperature : R) (mask_ids : list Z) B V
      (last_logits : list (list R)) :
  temperature <> 0%R -> 0 < B ->
  Forall (fun id => (- Z.of_nat V <= id < Z.of_nat V)%Z) mask_ids ->
  Shape2 B V last_logits ->
  exists probs,
    Transformer.generate_probs temperature mask_ids last_logits = ok probs
    /\ Shape2 B V probs.
Proof.
  intros Ht HB Hids Hl. unfold Transformer.generate_probs.
  destruct (mask_logits_ok HB Hids Hl) as (masked & Hm & [Hlen Hall]).
  rewrite Hm. simpl. rewrite tensor_div_ok by exact Ht. simpl.
  eexists. split; [reflexivity|]. split.
  - rewrite !length_map. exact Hlen.
  - rewrite map_map. apply Forall_map. eapply Forall_impl; [|exact Hall].
    intros row Hrow. simpl. rewrite softmax_length, length_map. exact Hrow.
Qed.

Section GenerateFacts.
Variable rng : Type.
Variable multinomial : rng -> list (list R) -> list (list Z) * rng.
Variable self : Transformer.t.
Variable batch_size : Z.
Variable dev : device.
Variable temperature : R.
Variable mask_ids : list Z.
Variable log_p : option (list R).
Variable start_id : Z.

Let B := Z.to_nat batch_size.
Let V := length (Transformer.embedding self).
Let num_positions :=
  SinusoidalPositionalEmbedding.num_positions
    (Transformer.positional_encoding self).

Hypothesis batch_pos : (1 <= batch_size)%Z.
Hypothesis vocab_pos : 0 < V.
Hypothesis layers_ok : Forall LayerContract (Transformer.decoder_layers self).
Hypothesis classifier_width :
  forall r, length (Transformer.classifier self r) = V.
Hypothesis log_p_length : forall lp, log_p = Some lp -> length lp = B.

Lemma generate_logits_ok n (ids : list (list Z)) :
  TokenTensor V B n start_id ids -> 1 <= n ->
  (Z.of_nat n <= num_positions)%Z ->
  exists logits,
    Transformer.generate_logits self batch_size dev log_p ids (Z.of_nat n)
    = ok logits
    /\ Shape2 B V logits.
Proof.
  intros (Hshape & Hvalid & _) Hn Hpos.
  assert (HB : 0 < B) by (unfold B; lia).
  unfold Transformer.generate_logits.
  rewrite full_ok by lia. simpl. fold B.
  rewrite (@create_self_attention_mask_closed dev (repeat (Z.of_nat n) B) true
             (Z.of_nat n)) by (try apply tensor_max_repeat; lia).
  simpl. rewrite Nat2Z.id.
  pose proof (mask_closed_shape true n (repeat (Z.of_nat n) B)) as Hmask.
  rewrite repeat_length in Hmask.
  unfold Transformer._encode_output_ids.
  destruct (embedding_lookup_ok (Transformer.embedding self) Hshape Hvalid)
    as (emb & Hemb & Hsemb).
  rewrite Hemb. simpl.
  destruct (positional_forward_ok (Transformer.positional_encoding self)
              HB Hsemb Hpos) as (enc & Henc & Hsenc).
  rewrite Henc. simpl. unfold Transformer._decode.
  destruct (decode_layers_ok layers_ok HB Hn Hmask log_p_length (x:=enc) []
              Hsenc)
    as (y & als & Hy & Hsy).
  rewrite Hy. simpl.
  destruct (select_last_ok Hsy) as (l & Hl & Hll); [lia|].
  rewrite Hl. simpl. eexists. split; [reflexivity|]. split.
  - rewrite length_map. exact Hll.
  - apply Forall_map, Forall_forall. intros r _. apply classifier_width.
Qed.

Hypothesis temperature_nonzero : temperature <> 0%R.
Hypothesis mask_ids_in_range :
  Forall (fun id => (- Z.of_nat V <= id < Z.of_nat V)%Z) mask_ids.
Hypothesis sampler_ok : SamplerContract multinomial.

Lemma append_choices n (ids : list (list Z)) (probs : list (list R))
      (choices : list (list Z)) :
  TokenTensor V B n start_id ids -> 1 <= n -> Shape2 B V probs ->
  Forall2 (fun (row : list R) c =>
             exists id, c = [id] /\ (0 <= id < Z.of_nat (length row))%Z)
          probs choices ->
  TokenTensor V B (S n) start_id (map2 (@app Z) ids choices).
Proof.
  intros (Hshape & Hvalid & Hstart) Hn [Hplen Hprows] Hch.
  assert (Hclen : length choices = B).
  { rewrite <- (Forall2_length Hch). exact Hplen. }
  assert (Hcs : Forall (fun c => exists id, c = [id]
                                            /\ (0 <= id < Z.of_nat V)%Z) choices).
  { clear - Hch Hprows. induction Hch as [|row c probs choices Hrc _ IH].
    - constructor.
    - inversion Hprows as [|? ? Hrow Hrest]; subst. constructor; [|apply IH, Hrest].
      destruct Hrc as (id & -> & Hid). exists id. split; [reflexivity | lia]. }
  destruct Hshape as [Hlen Hrows].
  assert (Hpairs : forall row c, In (row, c) (combine ids choices) ->
                                 In row ids /\ In c choices).
  { intros row c Hin. split;
      [eapply in_combine_l | eapply in_combine_r]; exact Hin. }
  rewrite Forall_forall in Hrows, Hvalid, Hstart, Hcs.
  unfold map2. repeat split.
  - rewrite length_map, length_combine. lia.
  - apply Forall_map, Forall_forall. intros [row c] Hin. simpl.
    destruct (Hpairs row c Hin) as [Hr Hc].
    destruct (Hcs c Hc) as (id & -> & _).
    rewrite length_app, (Hrows row Hr). simpl. lia.
  - apply Forall_map, Forall_forall. intros [row c] Hin. simpl.
    destruct (Hpairs row c Hin) as [Hr Hc].
    destruct (Hcs c Hc) as (id & -> & Hid).
    apply Forall_app. split; [apply Hvalid, Hr|]. constructor; [exact Hid | constructor].
  - apply Forall_map, Forall_forall. intros [row c] Hin. simpl.
    destruct (Hpairs row c Hin) as [Hr Hc].
    pose proof (Hstart row Hr) as Hhd. destruct row as [|a row]; [discriminate|].
    exact Hhd.
Qed.

Lemma generate_step_ok n (ids : list (list Z)) (g : rng) :
  TokenTensor V B n start_id ids -> 1 <= n ->
  (Z.of_nat n <= num_positions)%Z ->
  exists ids' g',
    Transformer.generate_step multinomial self batch_size dev temperature
      mask_ids log_p ids g (Z.of_nat n) = ok (ids', g')
    /\ TokenTensor V B (S n) start_id ids'.
Proof.
  intros Hids Hn Hpos.
  assert (HB : 0 < B) by (unfold B; lia).
  unfold Transformer.generate_step.
  destruct (generate_logits_ok Hids Hn Hpos) as (logits & Hl & Hsl).
  rewrite Hl. simpl.
  destruct (generate_probs_ok temperature_nonzero HB mask_ids_in_range Hsl)
    as (probs & Hp & Hsp).
  rewrite Hp. simpl.
  assert (Hne : Forall (fun row : list R => row <> []) probs).
  { destruct Hsp as [_ Hrows]. eapply Forall_impl; [|exact Hrows].
    intros row Hrow Habs. subst row. simpl in Hrow. lia. }
  pose proof (sampler_ok g Hne) as Hch.
  destruct (multinomial g probs) as [choices g'] eqn:Hm. simpl in Hch.
  exists (map2 (@app Z) ids choices), g'. split; [reflexivity|].
  apply (append_choices Hids Hn Hsp Hch).
Qed.

Lemma generate_loop_ok k :
  forall a (ids : list (list Z)) (g : rng),
    TokenTensor V B (S a) start_id ids ->
    (Z.of_nat (a + k) <= num_positions)%Z ->
    exists ids' g',
      Transformer.generate_loop multinomial self batch_size dev temperature
        mask_ids log_p
        (map (fun i => (1 + Z.of_nat i)%Z) (seq a k)) ids g = ok (ids', g')
      /\ TokenTensor V B (S a + k) start_id ids'.
Proof.
  induction k as [|k IH]; intros a ids g Hids Hpos;
    cbn [seq map Transformer.generate_loop].
  - exists ids, g. split; [reflexivity|]. rewrite Nat.add_0_r. exact Hids.
  - replace (1 + Z.of_nat a)%Z with (Z.of_nat (S a)) by lia.
    destruct (@generate_step_ok (S a) ids g Hids) as (ids1 & g1 & H1 & Hs1);
      [lia | lia |].
    rewrite H1. simpl.
    destruct (IH (S a) ids1 g1 Hs1) as (ids2 & g2 & H2 & Hs2); [lia|].
    exists ids2, g2. split; [exact H2|].
    replace (S (a + S k)) with (S (S a) + k) by lia. exact Hs2.
Qed.

Lemma generate_ok (max_target_sequence_length : Z) (g : rng) :
  (1 <= max_target_sequence_length <= num_positions + 1)%Z ->
  (0 <= start_id < Z.of_nat V)%Z ->
  exists ids g',
    Transformer.generate multinomial self batch_size dev temperature mask_ids
      log_p max_target_sequence_length start_id g = ok (ids, g')
    /\ TokenTensor V B (Z.to_nat max_target_sequence_length) start_id ids.
Proof.
  intros HT HS. unfold Transformer.generate.
  rewrite full_ok by lia. simpl. fold B. unfold range.
  assert (Hinit : TokenTensor V B 1 start_id
                    (map (fun id => [id]) (repeat start_id B))).
  { repeat split.
    - rewrite length_map. apply repeat_length.
    - apply Forall_map, Forall_forall. intros id _. reflexivity.
    - apply Forall_map, Forall_forall. intros id Hid.
      apply repeat_spec in Hid. subst. simpl. constructor; [exact HS | constructor].
    - apply Forall_map, Forall_forall. intros id Hid.
      apply repeat_spec in Hid. subst. reflexivity. }
  destruct (@generate_loop_ok (Z.to_nat (max_target_sequence_length - 1)) 0
              _ g Hinit) as (ids & g' & Hloop & Hs); [lia|].
  exists ids, g'. split; [exact Hloop|].
  replace (Z.to_nat max_target_sequence_length)
    with (1 + Z.to_nat (max_target_sequence_length - 1)) by lia.
  exact Hs.
Qed.

Lemma generate_loop_app (steps1 steps2 : list Z) (ids : list (list Z))
      (g : rng) :
  Transformer.generate_loop multinomial self batch_size dev temperature
    mask_ids log_p (steps1 ++ steps2) ids g
  = (r <- Transformer.generate_loop multinomial self batch_size dev
            temperature mask_ids log_p steps1 ids g ;;
     Transformer.generate_loop multinomial self batch_size dev temperature
       mask_ids log_p steps2 (fst r) (snd r)).
Proof.
  revert ids g. induction steps1 as [|step steps1 IH]; intros ids g; simpl.
  - reflexivity.
  - destruct (Transformer.generate_step multinomial self batch_size dev
                temperature mask_ids log_p ids g step) as [e | r]; simpl.
    + reflexivity.
    + apply IH.
Qed.



End GenerateFacts.

(** ** Sums and softmax over the reals *)

Open Scope R_scope.


Lemma Rdiv_ge_intro (a b c : R) : 0 < c -> a * c <= b -> a <= b / c.
Proof.
  intros Hc H. apply Rmult_le_reg_r with c; [exact Hc|].
  unfold Rdiv. rewrite Rmult_assoc, Rinv_l, Rmult_1_r; lra.
Qed.

Lemma Rdiv_le_intro (a b c : R) : 0 < c -> b <= a * c -> b / c <= a.
Proof.
  intros Hc H. apply Rmult_le_reg_r with c; [exact Hc|].
  unfold Rdiv. rewrite Rmult_assoc, Rinv_l, Rmult_1_r; lra.
Qed.

Lemma Rsum_nonneg (l : list R) : Forall (fun x => 0 <= x) l -> 0 <= Rsum l.
Proof.
  induction 1 as [|x l Hx _ IH]; simpl; [lra|]. lra.
Qed.

Lemma Rsum_ge_nth (l : list R) (k : nat) :
  Forall (fun x => 0 <= x) l -> (k < length l)%nat -> nth k l 0 <= Rsum l.
Proof.
  intros H; revert k. induction H as [|x l Hx Hl IH]; intros k Hk; simpl in *.
  - lia.
  - pose proof (Rsum_nonneg Hl) as Hs. destruct k as [|k].
    + lra.
    + specialize (IH k ltac:(lia)). lra.
Qed.

Lemma exp_all_nonneg (l : list R) : Forall (fun x => 0 <= x) (map exp l).
Proof.
  apply Forall_map, Forall_forall. intros x _. left. apply exp_pos.
Qed.

Lemma Rsum_exp_pos (l : list R) : l <> [] -> 0 < Rsum (map exp l).
Proof.
  destruct l as [|x l]; [congruence|]. intros _. simpl.
  pose proof (exp_pos x). pose proof (Rsum_nonneg (exp_all_nonneg l)). lra.
Qed.

Lemma softmax_nth (row : list R) (j : nat) :
  (j < length row)%nat ->
  nth j (softmax row) 0 = exp (nth j row 0) / Rsum (map exp row).
Proof.
  intros Hj. unfold softmax.
  rewrite (nth_map_lt _ (map exp row) 0) by (rewrite length_map; exact Hj).
  rewrite (nth_map_lt _ row 0) by exact Hj. reflexivity.
Qed.

Lemma softmax_pos (row : list R) (j : nat) :
  (j < length row)%nat -> 0 < nth j (softmax row) 0.
Proof.
  intros Hj. rewrite softmax_nth by exact Hj.
  apply Rdiv_lt_0_compat; [apply exp_pos|].
  apply Rsum_exp_pos. destruct row; [simpl in Hj; lia | congruence].
Qed.

Lemma softmax_le_ratio (row : list R) (j k : nat) :
  (j < length row)%nat -> (k < length row)%nat ->
  nth j (softmax row) 0 <= exp (nth j row 0 - nth k row 0).
Proof.
  intros Hj Hk. rewrite softmax_nth by exact Hj.
  set (S := Rsum (map exp row)).
  assert (HS : exp (nth k row 0) <= S).
  { unfold S. rewrite <- (nth_map_lt exp row 0 0) by exact Hk.
    apply Rsum_ge_nth; [apply exp_all_nonneg | rewrite length_map; exact Hk]. }
  pose proof (exp_pos (nth k row 0)) as Hek.
  pose proof (exp_pos (nth j row 0)) as Hej.
  unfold Rminus. rewrite exp_plus, exp_Ropp.
  unfold Rdiv. apply Rmult_le_compat_l; [lra|].
  apply Rinv_le_contravar; lra.
Qed.

Close Scope R_scope.

(** ** The logits of forbidden ids *)









(** ** The two-token model *)

Lemma categorical_range (u : R) (row : list R) :
  row <> [] -> (0 <= categorical u row < Z.of_nat (length row))%Z.
Proof.
  revert u. induction row as [|p row IH]; intros u Hne; [congruence|].
  destruct row as [|q row]; [simpl; lia|].
  change (categorical u (p :: q :: row))
    with (if Rlt_dec u p then 0%Z else (1 + categorical (u - p) (q :: row))%Z).
  destruct (Rlt_dec u p); [simpl length; lia|].
  specialize (IH (u - p)%R ltac:(congruence)).
  change (length (p :: q :: row)) with (S (length (q :: row))). lia.
Qed.

Lemma multinomial_at_contract (u : R) : SamplerContract (multinomial_at u).
Proof.
  intros g probs Hne. unfold multinomial_at. simpl.
  induction Hne as [|row probs Hrow _ IH]; simpl; constructor; [|exact IH].
  exists (categorical u row). split; [reflexivity | apply categorical_range, Hrow].
Qed.


(** ** Where a ZeroDivisionError can come from *)

















Section DivisionFacts.
Variable rng : Type.
Variable multinomial : rng -> list (list R) -> list (list Z) * rng.
Variable self : Transformer.t.
Variable batch_size : Z.
Variable dev : device.
Variable temperature : R.
Variable mask_ids : list Z.
Variable log_p : option (list R).

Hypothesis heads_nonzero :
  Forall (fun layer =>
            MultiHeadAttention.head_num
              (TransformerDecoderLayer.decoder_attention layer) <> 0%Z)
         (Transformer.decoder_layers self).






End DivisionFacts.

(** ** One row of masked attention weights *)

Open Scope R_scope.

Lemma Rsum_map_div (l : list R) (c : R) :
  Rsum (map (fun x => x / c) l) = Rsum l / c.
Proof.
  induction l as [|x l IH]; simpl.
  - unfold Rdiv. rewrite Rmult_0_l. reflexivity.
  - rewrite IH. unfold Rdiv. ring.
Qed.

Lemma softmax_sum (row : list R) : row <> [] -> Rsum (softmax row) = 1.
Proof.
  intros Hne. unfold softmax. rewrite Rsum_map_div.
  pose proof (Rsum_exp_pos Hne) as Hpos.
  unfold Rdiv. apply Rinv_r. lra.
Qed.

Lemma softmax_sum_le_1 (row : list R) : Rsum (softmax row) <= 1.
Proof.
  destruct row as [|a row].
  - simpl. lra.
  - rewrite softmax_sum by congruence. lra.
Qed.

Lemma softmax_le_1 (row : list R) (j : nat) :
  (j < length row)%nat -> nth j (softmax row) 0 <= 1.
Proof.
  intros Hj. rewrite softmax_nth by exact Hj.
  assert (Hne : row <> []) by (destruct row; [simpl in Hj; lia | congruence]).
  pose proof (Rsum_exp_pos Hne) as Hpos.
  apply Rdiv_le_intro; [exact Hpos|]. rewrite Rmult_1_l.
  rewrite <- (nth_map_lt exp row 0 0) by exact Hj.
  apply Rsum_ge_nth; [apply exp_all_nonneg | rewrite length_map; exact Hj].
Qed.

Lemma combine_nth_lt {X Y : Type} (l1 : list X) (l2 : list Y) j d1 d2 :
  (j < length l1)%nat -> (j < length l2)%nat ->
  nth j (combine l1 l2) (d1, d2) = (nth j l1 d1, nth j l2 d2).
Proof.
  revert l2 j. induction l1 as [|a l1 IH]; intros [|b l2] [|j] H1 H2;
    simpl in *; try lia; try reflexivity.
  apply IH; lia.
Qed.

Lemma map2_nth {X Y W : Type} (f : X -> Y -> W) l1 l2 j d1 d2 d :
  (j < length l1)%nat -> (j < length l2)%nat ->
  nth j (map2 f l1 l2) d = f (nth j l1 d1) (nth j l2 d2).
Proof.
  intros H1 H2. unfold map2.
  rewrite (nth_map_lt _ (combine l1 l2) (d1, d2))
    by (rewrite length_combine; lia).
  rewrite combine_nth_lt by assumption. reflexivity.
Qed.

Lemma Forall_nth_intro {X : Type} (P : X -> Prop) (l : list X) (d : X) :
  (forall j, (j < length l)%nat -> P (nth j l d)) -> Forall P l.
Proof.
  intros H. apply Forall_forall. intros x Hx.
  destruct (In_nth l x d Hx) as (j & Hj & <-). apply H, Hj.
Qed.

Lemma masked_weights_length (scores : list R) (mr : list Z) n :
  length scores = n -> length mr = n -> length (masked_weights scores mr) = n.
Proof.
  intros Hs Hm. unfold masked_weights.
  rewrite map2_length, softmax_length, map2_length. lia.
Qed.

Lemma masked_weights_nth (scores : list R) (mr : list Z) n j :
  length scores = n -> length mr = n -> (j < n)%nat ->
  nth j (masked_weights scores mr) 0
  = if (nth j mr 0%Z =? 0)%Z then 0
    else nth j (softmax (map2 (masked_fill neg_1e9) scores mr)) 0.
Proof.
  intros Hs Hm Hj. unfold masked_weights.
  rewrite (map2_nth _ _ _ 0 0%Z)
    by (rewrite ?softmax_length, ?map2_length; lia).
  reflexivity.
Qed.

Lemma masked_scores_nth (scores : list R) (mr : list Z) n j :
  length scores = n -> length mr = n -> (j < n)%nat ->
  nth j (map2 (masked_fill neg_1e9) scores mr) 0
  = if (nth j mr 0%Z =? 0)%Z then neg_1e9 else nth j scores 0.
Proof.
  intros Hs Hm Hj. rewrite (map2_nth _ _ _ 0 0%Z) by lia. reflexivity.
Qed.

(** Weights of a fully masked row. *)
Lemma masked_weights_all_masked (scores : list R) (mr : list Z) :
  Forall (fun m => m = 0%Z) mr ->
  Forall (fun w => w = 0) (masked_weights scores mr).
Proof.
  intros Hm. unfold masked_weights, map2.
  apply Forall_map, Forall_forall. intros [p m] Hin. simpl.
  apply in_combine_r in Hin. rewrite Forall_forall in Hm.
  rewrite (Hm m Hin). reflexivity.
Qed.

Lemma masked_weights_range (scores : list R) (mr : list Z) n :
  length scores = n -> length mr = n ->
  Forall (fun w => 0 <= w <= 1) (masked_weights scores mr).
Proof.
  intros Hs Hm. apply (@Forall_nth_intro R _ _ 0). intros j Hj.
  rewrite (@masked_weights_length scores mr n Hs Hm) in Hj.
  rewrite (@masked_weights_nth scores mr n j Hs Hm Hj).
  destruct (nth j mr 0%Z =? 0)%Z; [lra|].
  assert (Hlen : (j < length (map2 (masked_fill neg_1e9) scores mr))%nat)
    by (rewrite map2_length; lia).
  pose proof (softmax_pos _ Hlen). pose proof (softmax_le_1 _ Hlen). lra.
Qed.

Lemma Forall2_nth_intro {X Y : Type} (P : X -> Y -> Prop) (l1 : list X)
      (l2 : list Y) (d1 : X) (d2 : Y) :
  length l1 = length l2 ->
  (forall j, (j < length l1)%nat -> P (nth j l1 d1) (nth j l2 d2)) ->
  Forall2 P l1 l2.
Proof.
  revert l2. induction l1 as [|a l1 IH]; intros [|b l2] Hlen H;
    simpl in *; try discriminate; constructor.
  - apply (H 0%nat). lia.
  - apply IH; [lia|]. intros j Hj. apply (H (S j)). lia.
Qed.

Lemma masked_sum_bounds (p : list R) (mr : list Z) (c : R) :
  0 <= c ->
  Forall2 (fun pj mj => 0 <= pj /\ (mj = 0%Z -> pj <= c)) p mr ->
  Rsum (map2 (masked_fill 0) p mr) <= Rsum p
  /\ Rsum p <= Rsum (map2 (masked_fill 0) p mr) + INR (masked_count mr) * c.
Proof.
  intros Hc H. induction H as [|pj mj p mr [Hpj Hmj] _ [IH1 IH2]].
  - unfold map2, masked_count. simpl. lra.
  - unfold map2, masked_count in *.
    cbn [map combine fst snd Rsum fold_right filter]. unfold masked_fill at 1 3.
    destruct (Z.eqb_spec mj 0) as [Hz | Hz].
    + specialize (Hmj Hz). cbn [length]. rewrite S_INR. unfold Rsum in *.
      rewrite Rmult_plus_distr_r, Rmult_1_l. lra.
    + unfold Rsum in *. lra.
Qed.

Lemma softmax_weights_pointwise (x : list R) (mr : list Z) (c : R) :
  length x = length mr ->
  (forall j, (j < length x)%nat -> nth j mr 0%Z = 0%Z ->
             nth j (softmax x) 0 <= c) ->
  Forall2 (fun pj mj => 0 <= pj /\ (mj = 0%Z -> pj <= c)) (softmax x) mr.
Proof.
  intros Hlen H. apply (@Forall2_nth_intro R Z _ _ _ 0 0%Z).
  - rewrite softmax_length. exact Hlen.
  - intros j Hj. rewrite softmax_length in Hj. split.
    + left. apply softmax_pos, Hj.
    + intros Hz. apply H; assumption.
Qed.

Lemma masked_weights_sum_le_1 (scores : list R) (mr : list Z) n :
  length scores = n -> length mr = n ->
  Rsum (masked_weights scores mr) <= 1.
Proof.
  intros Hs Hm. unfold masked_weights.
  set (x := map2 (masked_fill neg_1e9) scores mr).
  assert (Hx : length x = n) by (unfold x; rewrite map2_length; lia).
  destruct (@masked_sum_bounds (softmax x) mr 1) as [Hle _]; [lra | |].
  - apply softmax_weights_pointwise; [lia|].
    intros j Hj _. apply softmax_le_1, Hj.
  - eapply Rle_trans; [exact Hle | apply softmax_sum_le_1].
Qed.

Lemma masked_weights_sum_lower (scores : list R) (mr : list Z) n j0 :
  length scores = n -> length mr = n -> (j0 < n)%nat ->
  nth j0 mr 0%Z <> 0%Z ->
  1 - INR (masked_count mr) * exp (neg_1e9 - nth j0 scores 0)
  <= Rsum (masked_weights scores mr).
Proof.
  intros Hs Hm Hj0 Hopen. unfold masked_weights.
  set (x := map2 (masked_fill neg_1e9) scores mr).
  assert (Hx : length x = n) by (unfold x; rewrite map2_length; lia).
  set (c := exp (neg_1e9 - nth j0 scores 0)).
  destruct (@masked_sum_bounds (softmax x) mr c) as [_ Hge].
  - left. apply exp_pos.
  - apply softmax_weights_pointwise; [lia|].
    intros j Hj Hz.
    eapply Rle_trans; [apply (@softmax_le_ratio x j j0); lia|].
    unfold x, c.
    rewrite (@masked_scores_nth scores mr n j Hs Hm) by lia.
    rewrite (@masked_scores_nth scores mr n j0 Hs Hm Hj0).
    rewrite Hz. simpl.
    destruct (Z.eqb_spec (nth j0 mr 0%Z) 0); [contradiction|]. lra.
  - rewrite softmax_sum in Hge by (destruct x; [simpl in Hx; lia | congruence]).
    lra.
Qed.

Close Scope R_scope.

(** ** Scaled dot-product attention, slice by slice *)

Lemma matmul_key_transpose (query key : list (list R)) Lk d :
  Shape2 Lk d key -> 0 < d ->
  matmul query (transpose (length (hd [] key)) key)
  = map (fun row => map (dot row) key) query.
Proof.
  intros [Hlen Hrows] Hd. unfold matmul.
  replace (transpose (length (hd [] (transpose (length (hd [] key)) key)))
                     (transpose (length (hd [] key)) key)) with key;
    [reflexivity|].
  destruct key as [|r key]; [reflexivity|].
  assert (Hr : length r = d) by (inversion Hrows; assumption).
  cbn [hd]. rewrite Hr.
  destruct (transpose_shape Hrows) as [Ht Hcols].
  rewrite (hd_length_of_shape (B:=d) (L:=length (r :: key)) Hd)
    by (split; assumption).
  symmetry. apply transpose_involutive, Hrows.
Qed.

Lemma attention_rows (scores : list (list R)) (m : list (list Z)) :
  map2 (map2 (masked_fill 0%R))
       (map softmax (map2 (map2 (masked_fill neg_1e9)) scores m)) m
  = map2 masked_weights scores m.
Proof.
  unfold map2. revert m.
  induction scores as [|s scores IH]; intros [|mr m]; simpl; try reflexivity.
  rewrite IH. reflexivity.
Qed.

Lemma forward_slice_masked (query key value : list (list R))
      (m : list (list Z)) Lk d :
  Shape2 Lk d key -> 0 < d ->
  ScaledDotProductAttention.forward_slice d query key value (Some m)
  = (matmul (map2 masked_weights
               (map (fun q => map (fun kr => (dot q kr / sqrt (INR d))%R) key)
                    query) m) value,
     map2 masked_weights
          (map (fun q => map (fun kr => (dot q kr / sqrt (INR d))%R) key)
               query) m).
Proof.
  intros Hk Hd. unfold ScaledDotProductAttention.forward_slice.
  rewrite (matmul_key_transpose query Hk Hd), map_map.
  rewrite attention_rows.
  replace (map (fun x => map (fun s => (s / sqrt (INR d))%R) (map (dot x) key))
               query)
    with (map (fun q => map (fun kr => (dot q kr / sqrt (INR d))%R) key) query)
    by (apply map_ext; intros q; rewrite map_map; reflexivity).
  reflexivity.
Qed.

Lemma forward_nth_slice (query key value : list (list (list R)))
      (mask : list (list (list Z))) (b : nat) :
  b < length query -> b < length key -> b < length value -> b < length mask ->
  let r := ScaledDotProductAttention.forward query key value (Some mask) in
  let s := ScaledDotProductAttention.forward_slice
             (length (hd [] (hd [] query)))
             (nth b query []) (nth b key []) (nth b value [])
             (Some (nth b mask [])) in
  nth b (fst r) [] = fst s /\ nth b (snd r) [] = snd s.
Proof.
  intros Hq Hk Hv Hm. unfold ScaledDotProductAttention.forward.
  cbn [fst snd].
  set (f := fun (qk : list (list R) * list (list R) * list (list R))
                (vm : list (list Z)) =>
              ScaledDotProductAttention.forward_slice
                (length (hd [] (hd [] query))) (fst (fst qk)) (snd (fst qk))
                (snd qk) (Some vm)).
  assert (Hlen : b < length (map2 f (combine (combine query key) value) mask)).
  { rewrite map2_length, !length_combine. lia. }
  assert (Hnth : nth b (map2 f (combine (combine query key) value) mask)
                     ([], [])
                 = f (nth b query [], nth b key [], nth b value [])
                     (nth b mask [])).
  { rewrite (map2_nth f _ _ ([], [], []) [])
      by (rewrite ?length_combine; lia).
    rewrite !combine_nth_lt by (rewrite ?length_combine; lia).
    reflexivity. }
  split.
  - rewrite (nth_map_lt fst _ ([], [])) by exact Hlen.
    rewrite Hnth. reflexivity.
  - rewrite (nth_map_lt snd _ ([], [])) by exact Hlen.
    rewrite Hnth. reflexivity.
Qed.

Lemma dot_zeros (w col : list R) :
  Forall (fun v => v = 0%R) w -> dot w col = 0%R.
Proof.
  intros Hw. unfold dot, map2. revert col.
  induction Hw as [|v w Hv _ IH]; intros [|c col]; simpl; try reflexivity.
  rewrite IH, Hv. lra.
Qed.

(** ** C3: masked attention weights *)

Lemma nth_Shape2 {X : Type} B L d (t : list (list (list X))) b :
  Shape3 B L d t -> b < B -> Shape2 L d (nth b t []).
Proof.
  intros [Hlen Hall] Hb. rewrite Forall_forall in Hall.
  apply Hall, nth_In. lia.
Qed.

Lemma nth_row_length {X : Type} L d (m : list (list X)) i :
  Shape2 L d m -> i < L -> length (nth i m []) = d.
Proof.
  intros [Hlen Hall] Hi. rewrite Forall_forall in Hall.
  apply Hall, nth_In. lia.
Qed.

(** C3 fails as stated.  One query against two keys with scaled scores
    [-2e9] and [0] under the mask [[1; 0]]: after the sentinel the scores
    are [-2e9] and [-1e9], the softmax puts almost all weight on the masked
    key, and the post-mask weights of this row, which has an allowed key,
    sum to less than one half. *)
Lemma attention_row_sum_counterexample :
  nth 0 (nth 0 (nth 0 [[[1%Z; 0%Z]]] []) []) 0%Z = 1%Z
  /\ (Rsum (nth 0 (nth 0 (snd (ScaledDotProductAttention.forward
                                 [[[1%R]]] [[[(-2000000000)%R]; [0%R]]]
                                 [[[0%R]; [0%R]]] (Some [[[1%Z; 0%Z]]])))
                      []) [])
      < 1 / 2)%R.
Proof.
  split; [reflexivity|].
  unfold ScaledDotProductAttention.forward,
    ScaledDotProductAttention.forward_slice, matmul, softmax, dot.
  cbn [map map2 combine fst snd hd length transpose zip_cons repeat nth
       Rsum fold_right masked_fill Z.eqb INR].
  rewrite sqrt_1.
  assert (Hlt : (exp ((1 * -2000000000 + 0) / 1) < exp neg_1e9)%R).
  { apply exp_increasing. unfold neg_1e9. lra. }
  pose proof (exp_pos ((1 * -2000000000 + 0) / 1)) as Hpos.
  set (a := exp ((1 * -2000000000 + 0) / 1)) in *.
  set (c := exp neg_1e9) in *.
  assert (Hq : (a / (a + (c + 0)) < 1 / 2)%R).
  { apply Rmult_lt_reg_r with (a + (c + 0))%R; [lra|].
    unfold Rdiv at 1. rewrite Rmult_assoc, Rinv_l by lra. lra. }
  lra.
Qed.

(** C3, amended.  In [ScaledDotProductAttention.forward] with a mask, for
    tensors of matching shapes and a positive feature size: a query row
    whose mask entries are all 0 gets weights that are exactly all zero and
    an output row that is exactly all zero; the weights of every row lie in
    [[0, 1]] and sum to at most 1; and for a row with an allowed key [j0]
    of scaled score [s] the sum is at least [1 - m * exp (-1e9 - s)], [m]
    being the number of masked keys of the row.  So the sum is 1 up to a
    negligible term whenever some allowed score is well above the [-1e9]
    sentinel, and exactly 1 when no key of the row is masked. *)
Theorem attention_masked_rows (B Lq Lk d dv : nat)
        (query key value : list (list (list R)))
        (mask : list (list (list Z))) (b i : nat) :
  0 < d ->
  Shape3 B Lq d query -> Shape3 B Lk d key -> Shape3 B Lk dv value ->
  Shape3 B Lq Lk mask ->
  b < B -> i < Lq ->
  let r := ScaledDotProductAttention.forward query key value (Some mask) in
  let w := nth i (nth b (snd r) []) [] in
  let o := nth i (nth b (fst r) []) [] in
  let mr := nth i (nth b mask []) [] in
  length w = Lk
  /\ (Forall (fun m => m = 0%Z) mr ->
      Forall (fun v => v = 0%R) w /\ Forall (fun v => v = 0%R) o)
  /\ Forall (fun v => (0 <= v <= 1)%R) w
  /\ (Rsum w <= 1)%R
  /\ (forall j0, j0 < Lk -> nth j0 mr 0%Z <> 0%Z ->
      (1 - INR (masked_count mr)
           * exp (neg_1e9
                  - dot (nth i (nth b query []) []) (nth j0 (nth b key []) [])
                    / sqrt (INR d))
       <= Rsum w)%R).
Proof.
  intros Hd Hq Hk Hv Hm Hb Hi r w o mr.
  pose proof (nth_Shape2 Hq Hb) as Hqb.
  pose proof (nth_Shape2 Hk Hb) as Hkb.
  pose proof (nth_Shape2 Hm Hb) as Hmb.
  assert (Hdk : length (hd [] (hd [] query)) = d).
  { destruct Hq as [Hlen Hall]. destruct query as [|q0 query]; [simpl in *; lia|].
    inversion Hall as [|? ? Hq0 _]; subst. cbn [hd].
    apply (hd_length_of_shape (B:=Lq)); [lia | exact Hq0]. }
  destruct (@forward_nth_slice query key value mask b) as [Hfst Hsnd];
    try (destruct Hq, Hk, Hv, Hm; lia).
  rewrite Hdk, (forward_slice_masked _ _ _ Hkb Hd) in Hfst, Hsnd.
  cbn [fst snd] in Hfst, Hsnd.
  set (scores := map (fun q => map (fun kr => (dot q kr / sqrt (INR d))%R)
                                   (nth b key [])) (nth b query [])) in *.
  assert (Hsc : length scores = Lq).
  { unfold scores. rewrite length_map. apply Hqb. }
  assert (Hw : w = masked_weights (nth i scores []) mr).
  { unfold w, r. rewrite Hsnd.
    apply (map2_nth masked_weights _ _ [] []); [lia|].
    destruct Hmb as [Hlen _]. lia. }
  assert (Hsi : nth i scores []
                = map (fun kr => (dot (nth i (nth b query []) []) kr
                                  / sqrt (INR d))%R) (nth b key [])).
  { unfold scores. rewrite (nth_map_lt _ (nth b query []) [])
      by (destruct Hqb as [Hlen _]; lia).
    reflexivity. }
  assert (Hsl : length (nth i scores []) = Lk).
  { rewrite Hsi, length_map. apply Hkb. }
  assert (Hml : length mr = Lk) by (apply (nth_row_length Hmb Hi)).
  rewrite Hw. split; [apply (@masked_weights_length _ _ Lk Hsl Hml)|].
  split.
  { intros Hall. pose proof (masked_weights_all_masked (nth i scores []) Hall)
      as Hzero.
    split; [exact Hzero|].
    unfold o, r. rewrite Hfst. unfold matmul.
    rewrite (nth_map_lt _ _ [])
      by (rewrite map2_length; destruct Hmb as [Hlen _]; lia).
    rewrite (map2_nth masked_weights _ _ [] [])
      by (destruct Hmb as [Hlen _]; lia).
    apply Forall_map, Forall_forall. intros col _.
    apply dot_zeros, Hzero. }
  split; [apply (@masked_weights_range _ _ Lk Hsl Hml)|].
  split; [apply (@masked_weights_sum_le_1 _ _ Lk Hsl Hml)|].
  intros j0 Hj0 Hopen.
  pose proof (@masked_weights_sum_lower _ _ Lk j0 Hsl Hml Hj0 Hopen) as Hlow.
  rewrite Hsi in Hlow at 1.
  rewrite (nth_map_lt _ (nth b key []) [])
    in Hlow by (destruct Hkb as [Hlen _]; lia).
  exact Hlow.
Qed.

(** Witness: one query whose row of the mask is all zero. *)
Lemma attention_masked_rows_witness :
  Forall (fun v => v = 0%R)
         (nth 0 (nth 0 (snd (ScaledDotProductAttention.forward
                               [[[1%R]]] [[[0%R]; [0%R]]] [[[1%R]; [2%R]]]
                               (Some [[[0%Z; 0%Z]]]))) []) [])
  /\ Forall (fun v => v = 0%R)
            (nth 0 (nth 0 (fst (ScaledDotProductAttention.forward
                                  [[[1%R]]] [[[0%R]; [0%R]]] [[[1%R]; [2%R]]]
                                  (Some [[[0%Z; 0%Z]]]))) []) []).
Proof.
  destruct (@attention_masked_rows 1 1 2 1 1
              [[[1%R]]] [[[0%R]; [0%R]]] [[[1%R]; [2%R]]] [[[0%Z; 0%Z]]] 0 0)
    as (_ & Hzero & _).
  - lia.
  - unfold Shape3, Shape2. repeat split; repeat constructor.
  - unfold Shape3, Shape2. repeat split; repeat constructor.
  - unfold Shape3, Shape2. repeat split; repeat constructor.
  - unfold Shape3, Shape2. repeat split; repeat constructor.
  - lia.
  - lia.
  - apply Hzero. repeat constructor.
Defined.

(** ** Decoder layers honour the call contract *)

Lemma map2_outer_shape {X Y W : Type} (f : list X -> list Y -> list W)
      B L (x : list (list X)) (y : list (list Y)) :
  (forall r1 r2, length r1 = L -> length r2 = L -> length (f r1 r2) = L) ->
  Shape2 B L x -> Shape2 B L y -> Shape2 B L (map2 f x y).
Proof.
  intros Hf [Hxl Hx] [Hyl Hy]. split.
  - rewrite map2_length. lia.
  - unfold map2. apply Forall_map, Forall_forall. intros [r1 r2] Hin. simpl.
    rewrite Forall_forall in Hx, Hy.
    apply Hf; [apply Hx; eapply in_combine_l | apply Hy; eapply in_combine_r];
      exact Hin.
Qed.

Lemma map_outer_shape {X Y : Type} (f : list X -> list Y) B L
      (x : list (list X)) :
  (forall r, length r = L -> length (f r) = L) ->
  Shape2 B L x -> Shape2 B L (map f x).
Proof.
  intros Hf [Hxl Hx]. split; [rewrite length_map; exact Hxl|].
  apply Forall_map. eapply Forall_impl; [|exact Hx]. intros r Hr. apply Hf, Hr.
Qed.

Lemma projected_shape (f : list R -> list R) B L d
      (x : list (list (list R))) :
  (forall r, length (f r) = d) ->
  Shape2 B L x -> Shape3 B L d (map (map f) x).
Proof.
  intros Hf [Hlen Hall]. split; [rewrite length_map; exact Hlen|].
  apply Forall_map. eapply Forall_impl; [|exact Hall].
  intros m Hm. split; [rewrite length_map; exact Hm|].
  apply Forall_map, Forall_forall. intros r _. apply Hf.
Qed.

Section AttentionShapes.
Variable self : MultiHeadAttention.t.
Variables h s : nat.
Hypothesis head_pos : 0 < h.
Hypothesis sub_pos : 0 < s.
Hypothesis head_eq : MultiHeadAttention.head_num self = Z.of_nat h.

Lemma reshape_to_batches_shape B L (x : list (list (list R))) :
  0 < B -> 0 < L -> Shape3 B L (h * s) x ->
  exists y, MultiHeadAttention._reshape_to_batches self x = ok y
            /\ Shape3 (B * h) L s y.
Proof.
  intros HB HL Hx.
  rewrite (@_reshape_to_batches_value R self h head_pos head_eq B L s x HB
             ltac:(lia) Hx).
  eexists. split; [reflexivity|]. apply view3_shape.
  rewrite (flatten4_length (d0:=B) (d1:=h) (d2:=L) (d3:=s)); [lia|].
  apply permute_0213_shape, view4_shape.
  rewrite (flatten3_length Hx). lia.
Qed.

Lemma reshape_from_batches_shape B L (y : list (list (list R))) :
  0 < B -> 0 < L -> Shape3 (B * h) L s y ->
  exists x, MultiHeadAttention._reshape_from_batches self y = ok x
            /\ Shape3 B L (s * h) x.
Proof.
  intros HB HL Hy.
  rewrite (@_reshape_from_batches_value R self h head_pos head_eq B L s y HB
             ltac:(lia) Hy).
  eexists. split; [reflexivity|]. apply view3_shape.
  rewrite (flatten4_length (d0:=B) (d1:=L) (d2:=h) (d3:=s)); [lia|].
  apply permute_0213_shape, view4_shape.
  rewrite (flatten3_length Hy). lia.
Qed.

Lemma reshape_alignments_ok B L (al : list (list (list R))) :
  0 < B -> 0 < L -> Shape3 (B * h) L L al ->
  exists al4, MultiHeadAttention._reshape_alignments self al = ok al4.
Proof.
  intros HB HL Hal. unfold MultiHeadAttention._reshape_alignments.
  rewrite (size3_of_shape Hal) by lia.
  replace (L =? 0) with false by (symmetry; apply Nat.eqb_neq; lia).
  rewrite head_eq, (floordiv_of_nat _ head_pos), Nat.div_mul by lia.
  rewrite bind_ok.
  assert (Ha : Shape3 L L (B * h)
                 (map (transpose L) (transpose L al))).
  { pose proof (transpose_shape3 Hal) as [Hlen Hall]. split.
    - rewrite length_map. exact Hlen.
    - apply Forall_map. eapply Forall_impl; [|exact Hall].
      intros m Hm. destruct (transpose_shape (n:=L) (m:=m)) as [Ht Hc].
      + destruct Hm as [_ Hrows]. exact Hrows.
      + destruct Hm as [Hm _]. rewrite Hm in Hc. split; assumption. }
  rewrite reshape4_of_nat by (rewrite (flatten3_length Ha); lia).
  rewrite bind_ok. eexists. reflexivity.
Qed.

End AttentionShapes.

Lemma matmul_shape (a b : list (list R)) La Lb d :
  length a = La -> 0 < Lb -> Shape2 Lb d b -> Shape2 La d (matmul a b).
Proof.
  intros Ha HLb Hb. unfold matmul.
  rewrite (hd_length_of_shape HLb Hb).
  destruct Hb as [Hlen Hrows]. destruct (transpose_shape Hrows) as [Ht _].
  split; [rewrite length_map; exact Ha|].
  apply Forall_map, Forall_forall. intros row _.
  rewrite length_map. exact Ht.
Qed.

Lemma attention_forward_shapes N L s (q k v : list (list (list R)))
      (mask : list (list (list Z))) :
  0 < N -> 0 < L -> 0 < s ->
  Shape3 N L s q -> Shape3 N L s k -> Shape3 N L s v -> Shape3 N L L mask ->
  Shape3 N L s (fst (ScaledDotProductAttention.forward q k v (Some mask)))
  /\ Shape3 N L L (snd (ScaledDotProductAttention.forward q k v (Some mask))).
Proof.
  intros HN HL Hs Hq Hk Hv Hm.
  assert (Hdk : length (hd [] (hd [] q)) = s).
  { destruct Hq as [Hlen Hall]. destruct q as [|q0 q]; [simpl in *; lia|].
    inversion Hall as [|? ? Hq0 _]; subst. cbn [hd].
    apply (hd_length_of_shape (B:=L)); [lia | exact Hq0]. }
  assert (Hlens : length q = N /\ length k = N /\ length v = N
                  /\ length mask = N)
    by (destruct Hq, Hk, Hv, Hm; auto).
  destruct Hlens as (Hql & Hkl & Hvl & Hml).
  assert (Hslice : forall b, b < N ->
            Shape2 L s (nth b (fst (ScaledDotProductAttention.forward
                                      q k v (Some mask))) [])
            /\ Shape2 L L (nth b (snd (ScaledDotProductAttention.forward
                                         q k v (Some mask))) [])).
  { intros b Hb.
    destruct (@forward_nth_slice q k v mask b) as [Hfst Hsnd]; try lia.
    pose proof (nth_Shape2 Hq Hb) as Hqb.
    pose proof (nth_Shape2 Hk Hb) as Hkb.
    pose proof (nth_Shape2 Hv Hb) as Hvb.
    pose proof (nth_Shape2 Hm Hb) as Hmb.
    rewrite Hdk, (forward_slice_masked _ _ _ Hkb Hs) in Hfst, Hsnd.
    cbn [fst snd] in Hfst, Hsnd. rewrite Hfst, Hsnd.
    assert (Hw : Shape2 L L
                   (map2 masked_weights
                      (map (fun q0 => map (fun kr =>
                              (dot q0 kr / sqrt (INR s))%R) (nth b k []))
                           (nth b q [])) (nth b mask []))).
    { apply map2_outer_shape; [| |exact Hmb].
      - intros r1 r2 H1 H2. apply (@masked_weights_length r1 r2 L H1 H2).
      - destruct Hqb as [Hlq _]. split; [rewrite length_map; exact Hlq|].
        apply Forall_map, Forall_forall. intros q0 _.
        rewrite length_map. apply Hkb. }
    split; [|exact Hw].
    apply (@matmul_shape _ (nth b v []) L L s); [apply Hw | exact HL | exact Hvb]. }
  unfold Shape3. repeat split.
  - unfold ScaledDotProductAttention.forward. cbn [fst].
    rewrite length_map, map2_length, !length_combine. lia.
  - apply (@Forall_nth_intro _ _ _ []). intros b Hb. apply Hslice.
    revert Hb. unfold ScaledDotProductAttention.forward. cbn [fst].
    rewrite length_map, map2_length, !length_combine. lia.
  - unfold ScaledDotProductAttention.forward. cbn [snd].
    rewrite length_map, map2_length, !length_combine. lia.
  - apply (@Forall_nth_intro _ _ _ []). intros b Hb. apply Hslice.
    revert Hb. unfold ScaledDotProductAttention.forward. cbn [snd].
    rewrite length_map, map2_length, !length_combine. lia.
Qed.

Lemma concat_repeat_shape {X : Type} B L d (m : list (list (list X))) c :
  Shape3 B L d m -> Shape3 (B * c) L d (concat (repeat m c)).
Proof.
  intros [Hlen Hall]. split.
  - rewrite concat_repeat_length. lia.
  - apply Forall_forall. intros x Hx. rewrite Forall_forall in Hall.
    apply Hall. apply in_concat in Hx. destruct Hx as (l & Hl & Hxl).
    apply repeat_spec in Hl. subst l. exact Hxl.
Qed.

Lemma attention_layer_ok (a : MultiHeadAttention.t) B L
      (xq xk xv : list (list (list R))) (mask : list (list (list Z))) :
  AttentionWellFormed a -> 0 < B -> 0 < L ->
  Shape2 B L xq -> Shape2 B L xk -> Shape2 B L xv -> Shape3 B L L mask ->
  exists y al,
    MultiHeadAttention.forward a xq xk xv (Some mask) = ok (y, al)
    /\ Shape2 B L y.
Proof.
  intros (HH & HF & Hdiv & Hlin) HB HL Hxq Hxk Hxv Hmask.
  set (h := Z.to_nat (MultiHeadAttention.head_num a)).
  set (s := Z.to_nat (MultiHeadAttention.in_features a
                      / MultiHeadAttention.head_num a)).
  assert (Hh : 0 < h) by (unfold h; lia).
  assert (Heq : MultiHeadAttention.head_num a = Z.of_nat h) by (unfold h; lia).
  assert (Hexact : (MultiHeadAttention.in_features a
                    = MultiHeadAttention.head_num a
                      * (MultiHeadAttention.in_features a
                         / MultiHeadAttention.head_num a))%Z)
    by (apply Z.div_exact; lia).
  assert (Hs : 0 < s) by (unfold s; nia).
  assert (Hhs : Z.to_nat (MultiHeadAttention.in_features a) = h * s).
  { unfold h, s. rewrite <- Z2Nat.inj_mul by nia. f_equal. exact Hexact. }
  unfold MultiHeadAttention.forward.
  destruct (@reshape_to_batches_shape a h s Hh Hs Heq B L
              (map (map (MultiHeadAttention.linear_q a)) xq) HB HL)
    as (q & Hq & Hsq).
  { apply projected_shape; [|exact Hxq]. intros r. rewrite <- Hhs. apply Hlin. }
  destruct (@reshape_to_batches_shape a h s Hh Hs Heq B L
              (map (map (MultiHeadAttention.linear_k a)) xk) HB HL)
    as (k & Hk & Hsk).
  { apply projected_shape; [|exact Hxk]. intros r. rewrite <- Hhs. apply Hlin. }
  destruct (@reshape_to_batches_shape a h s Hh Hs Heq B L
              (map (map (MultiHeadAttention.linear_v a)) xv) HB HL)
    as (v & Hv & Hsv).
  { apply projected_shape; [|exact Hxv]. intros r. rewrite <- Hhs. apply Hlin. }
  rewrite Hq, bind_ok, Hk, bind_ok, Hv, bind_ok.
  unfold repeat0.
  replace (MultiHeadAttention.head_num a <? 0)%Z with false
    by (symmetry; apply Z.ltb_ge; lia).
  rewrite !bind_ok. fold h.
  pose proof (concat_repeat_shape h Hmask) as Hm'.
  destruct (@attention_forward_shapes (B * h) L s q k v
              (concat (repeat mask h))) as [Hy Hal]; try assumption; try lia.
  destruct (ScaledDotProductAttention.forward q k v
              (Some (concat (repeat mask h)))) as [y al].
  cbn [fst snd] in Hy, Hal.
  destruct (@reshape_from_batches_shape a h s Hh Hs Heq B L y HB HL Hy)
    as (y' & Hy' & Hsy').
  rewrite Hy', bind_ok.
  destruct (@reshape_alignments_ok a h s Hh Hs Heq B L al HB HL Hal) as (al' & Hal').
  rewrite Hal', bind_ok.
  eexists. eexists. split; [reflexivity|].
  destruct Hsy' as [Hlen Hall]. split; [rewrite length_map; exact Hlen|].
  apply Forall_map. eapply Forall_impl; [|exact Hall].
  intros m [Hm _]. rewrite length_map. exact Hm.
Qed.

(** A well-formed decoder layer honours the call contract of the stack. *)
Lemma layer_contract (layer : TransformerDecoderLayer.t) :
  LayerWellFormed layer -> LayerContract layer.
Proof.
  intros (Hatt & Hd1 & Hd2) B L x mask log_p HB HL Hx Hmask Hlp.
  unfold TransformerDecoderLayer.forward.
  destruct (attention_layer_ok Hatt HB HL Hx Hx Hx Hmask)
    as (shortcut & al & Hfwd & Hss).
  rewrite Hfwd, bind_ok.
  eexists. eexists. split; [reflexivity|].
  assert (Hadd : forall u w : list (list (list R)),
             Shape2 B L u -> Shape2 B L w ->
             Shape2 B L (TransformerDecoderLayer.add3 u w)).
  { intros u w Hu Hw. unfold TransformerDecoderLayer.add3.
    apply map2_outer_shape; [|exact Hu | exact Hw].
    intros r1 r2 H1 H2. rewrite map2_length. lia. }
  assert (Hrow : forall (f : list R -> list R) (u : list (list (list R))),
             Shape2 B L u -> Shape2 B L (map (map f) u)).
  { intros f u Hu. apply map_outer_shape; [|exact Hu].
    intros r Hr. rewrite length_map. exact Hr. }
  assert (Hx1 : Shape2 B L
                  (map (map (TransformerDecoderLayer.norm1 layer))
                     (TransformerDecoderLayer.add3 x
                        (TransformerDecoderLayer.dropout1 layer shortcut)))).
  { apply Hrow, Hadd; [exact Hx | apply Hd1, Hss]. }
  apply Hrow, Hadd; [exact Hx1|]. apply Hd2, Hrow.
  destruct log_p as [lp|]; [|exact Hx1].
  unfold TransformerDecoderLayer.cat_last.
  apply map2_outer_shape; [|exact Hx1|].
  - intros r1 r2 H1 H2. rewrite map2_length. lia.
  - split; [rewrite length_map; apply Hlp; reflexivity|].
    apply Forall_map, Forall_forall. intros v _.
    rewrite (hd_length_of_shape HB Hx). apply repeat_length.
Qed.

Lemma map2_map_both {X Y W U V : Type} (f : X -> Y -> W) (g : U -> X)
      (h : V -> Y) (l1 : list U) (l2 : list V) :
  map2 f (map g l1) (map h l2) = map2 (fun a b => f (g a) (h b)) l1 l2.
Proof.
  unfold map2. revert l2. induction l1 as [|a l1 IH]; intros [|b l2]; simpl;
    try reflexivity.
  f_equal. apply IH.
Qed.

Lemma padding_rows (L : nat) (lens : list Z) :
  bcast2 (bcast2 (fun p len : Z => if (p <? len)%Z then 1%Z else 0%Z))
         (repeat (map Z.of_nat (seq 0 L)) (length lens))
         (map (fun len => [len]) lens)
  = map (fun len => map (valid len) (seq 0 L)) lens.
Proof.
  rewrite bcast2_same_length by (rewrite repeat_length, length_map; reflexivity).
  rewrite <- (length_map (fun len => [len]) lens) at 1.
  rewrite map2_repeat_l, map_map. apply map_ext. intros len.
  rewrite bcast2_singleton_r, map_map. reflexivity.
Qed.

Lemma create_attention_mask_closed dev src tgt Ms Mt :
  length tgt = length src ->
  tensor_max src = ok Ms -> (0 <= Ms)%Z ->
  tensor_max tgt = ok Mt -> (0 <= Mt)%Z ->
  create_attention_mask dev src tgt
  = ok (cross_mask_closed (Z.to_nat Ms) (Z.to_nat Mt) src tgt).
Proof.
  intros Hlen Hs HMs Ht HMt. unfold create_attention_mask.
  rewrite Hs, bind_ok. unfold arange.
  replace (Ms <? 0)%Z with false by (symmetry; apply Z.ltb_ge; exact HMs).
  rewrite bind_ok. unfold repeat0.
  replace (Z.of_nat (length src) <? 0)%Z with false
    by (symmetry; apply Z.ltb_ge; lia).
  rewrite bind_ok, Ht, bind_ok.
  replace (Mt <? 0)%Z with false by (symmetry; apply Z.ltb_ge; exact HMt).
  rewrite !bind_ok, Nat2Z.id, !concat_repeat_singleton.
  rewrite padding_rows. rewrite <- Hlen, padding_rows.
  rewrite !map_map. f_equal.
  rewrite bcast2_same_length by (rewrite !length_map; symmetry; exact Hlen).
  rewrite map2_map_both. unfold cross_mask_closed, map2.
  apply map_ext. intros [slen tlen]. cbn [fst snd].
  replace (transpose (Z.to_nat Mt) [map (valid tlen) (seq 0 (Z.to_nat Mt))])
    with (map (fun a => [a]) (map (valid tlen) (seq 0 (Z.to_nat Mt)))).
  2:{ rewrite <- transpose_row. rewrite length_map, length_seq. reflexivity. }
  rewrite bcast2_singleton_l, !map_map. apply map_ext. intros i.
  rewrite bcast2_singleton_r, map_map. reflexivity.
Qed.

Lemma cross_mask_closed_shape Ls Lt src tgt :
  length tgt = length src ->
  Shape3 (length src) Lt Ls (cross_mask_closed Ls Lt src tgt).
Proof.
  intros Hlen. unfold cross_mask_closed. split.
  - rewrite map2_length. lia.
  - unfold map2. apply Forall_map, Forall_forall. intros p _. split.
    + rewrite length_map, length_seq. reflexivity.
    + apply Forall_map, Forall_forall. intros i _.
      rewrite length_map, length_seq. reflexivity.
Qed.

Lemma cross_mask_closed_get3 Ls Lt src tgt b i j :
  b < length src -> b < length tgt -> i < Lt -> j < Ls ->
  get3 (cross_mask_closed Ls Lt src tgt) b i j
  = cross_entry (nth b src 0%Z) (nth b tgt 0%Z) i j.
Proof.
  intros Hb Hb' Hi Hj. unfold get3, cross_mask_closed.
  rewrite (map2_nth _ src tgt 0%Z 0%Z [] Hb Hb').
  rewrite (nth_map_lt _ (seq 0 Lt) 0) by (rewrite length_seq; exact Hi).
  rewrite (nth_map_lt _ (seq 0 Ls) 0) by (rewrite length_seq; exact Hj).
  rewrite !seq_nth by assumption. reflexivity.
Qed.

Lemma fold_left_max_neg (t : list Z) (a : Z) :
  (fold_left Z.max t a < 0)%Z <-> Forall (fun len => (len < 0)%Z) (a :: t).
Proof.
  revert a. induction t as [|b t IH]; intros a; simpl.
  - split; intros H; [constructor; [exact H | constructor] | inversion H; assumption].
  - rewrite IH. split; intros H.
    + inversion H as [|? ? Hm Ht]; subst. constructor; [lia|].
      constructor; [lia | exact Ht].
    + inversion H as [|? ? Ha Hbt]; subst. inversion Hbt as [|? ? Hb Ht]; subst.
      constructor; [lia | exact Ht].
Qed.

Lemma tensor_max_cases (t : list Z) :
  (t = [] /\ tensor_max t = raise RuntimeError)
  \/ (exists M, tensor_max t = ok M
                /\ ((M < 0)%Z <-> Forall (fun len => (len < 0)%Z) t)
                /\ t <> []).
Proof.
  destruct t as [|a t]; [left; split; reflexivity|].
  right. exists (fold_left Z.max t a). split; [reflexivity|].
  split; [apply fold_left_max_neg | discriminate].
Qed.

Lemma negative_max_raises dev vl causal M :
  tensor_max vl = ok M -> (M < 0)%Z ->
  create_self_attention_mask dev vl causal = raise RuntimeError.
Proof.
  intros Hmax HM. unfold create_self_attention_mask.
  rewrite Hmax, bind_ok. unfold arange.
  replace (M <? 0)%Z with true by (symmetry; apply Z.ltb_lt; exact HM).
  reflexivity.
Qed.

(** X1.  [create_attention_mask] on two length vectors of one batch size,
    each with a non-negative maximum, returns a mask of shape
    [[batch, max(tgt), max(src)]] whose entry [[b, i, j]] is 1 exactly when
    source position [j] is inside the source of example [b] and target
    position [i] is inside its target, and 0 otherwise. *)
Theorem create_attention_mask_correct (dev : device) (src tgt : list Z)
        (Ms Mt : Z) :
  length tgt = length src ->
  tensor_max src = ok Ms -> (0 <= Ms)%Z ->
  tensor_max tgt = ok Mt -> (0 <= Mt)%Z ->
  exists mask,
    create_attention_mask dev src tgt = ok mask
    /\ Shape3 (length src) (Z.to_nat Mt) (Z.to_nat Ms) mask
    /\ forall b i j,
        b < length src -> i < Z.to_nat Mt -> j < Z.to_nat Ms ->
        (get3 mask b i j = 1%Z
         <-> (Z.of_nat j < nth b src 0)%Z /\ (Z.of_nat i < nth b tgt 0)%Z)
        /\ (get3 mask b i j = 0%Z
            <-> (nth b src 0 <= Z.of_nat j)%Z \/ (nth b tgt 0 <= Z.of_nat i)%Z).
Proof.
  intros Hlen Hs HMs Ht HMt.
  exists (cross_mask_closed (Z.to_nat Ms) (Z.to_nat Mt) src tgt).
  split; [apply create_attention_mask_closed; assumption|].
  split; [apply cross_mask_closed_shape; exact Hlen|].
  intros b i j Hb Hi Hj.
  rewrite cross_mask_closed_get3 by (try assumption; lia).
  unfold cross_entry, valid.
  destruct (Z.ltb_spec (Z.of_nat j) (nth b src 0%Z));
    destruct (Z.ltb_spec (Z.of_nat i) (nth b tgt 0%Z));
    split; split; intros; try lia; try discriminate.
Qed.

(** Witness: sources of lengths 1 and 2 against targets of lengths 3 and 1. *)
Lemma create_attention_mask_correct_witness :
  exists mask,
    create_attention_mask cpu [1%Z; 2%Z] [3%Z; 1%Z] = ok mask
    /\ Shape3 2 3 2 mask.
Proof.
  destruct (@create_attention_mask_correct cpu [1%Z; 2%Z] [3%Z; 1%Z] 2%Z 3%Z)
    as (mask & Hm & Hs & _); [reflexivity | reflexivity | lia | reflexivity | lia |].
  exists mask. split; [exact Hm | exact Hs].
Defined.

(** X2.  On two length vectors of one batch size, [create_attention_mask]
    raises exactly when all the source lengths or all the target lengths are
    negative (in particular when the vectors are empty), the error is a
    RuntimeError, and otherwise a mask is returned. *)
Theorem create_attention_mask_raises (dev : device) (src tgt : list Z) :
  length tgt = length src ->
  (create_attention_mask dev src tgt = raise RuntimeError
   <-> Forall (fun len => (len < 0)%Z) src
       \/ Forall (fun len => (len < 0)%Z) tgt)
  /\ (forall e, create_attention_mask dev src tgt = raise e -> e = RuntimeError)
  /\ (~ (Forall (fun len => (len < 0)%Z) src
         \/ Forall (fun len => (len < 0)%Z) tgt) ->
      exists mask, create_attention_mask dev src tgt = ok mask).
Proof.
  intros Hlen.
  assert (Hcases :
    (create_attention_mask dev src tgt = raise RuntimeError
     /\ (Forall (fun len => (len < 0)%Z) src
         \/ Forall (fun len => (len < 0)%Z) tgt))
    \/ ((exists mask, create_attention_mask dev src tgt = ok mask)
        /\ ~ (Forall (fun len => (len < 0)%Z) src
              \/ Forall (fun len => (len < 0)%Z) tgt))).
  { destruct (tensor_max_cases src) as [[Hnil Hr] | (Ms & Hs & Hneg & Hne)].
    - left. split; [|left; subst src; constructor].
      unfold create_attention_mask. rewrite Hr. reflexivity.
    - destruct (Z.ltb_spec Ms 0) as [HMs | HMs].
      + left. split; [|left; apply Hneg; exact HMs].
        unfold create_attention_mask. rewrite Hs, bind_ok. unfold arange.
        replace (Ms <? 0)%Z with true by (symmetry; apply Z.ltb_lt; exact HMs).
        reflexivity.
      + destruct (tensor_max_cases tgt) as [[Hnil Hr] | (Mt & Ht & Hnegt & Hnet)].
        * exfalso. subst tgt. destruct src; [congruence | discriminate].
        * destruct (Z.ltb_spec Mt 0) as [HMt | HMt].
          -- left. split; [|right; apply Hnegt; exact HMt].
             unfold create_attention_mask. rewrite Hs, bind_ok. unfold arange.
             replace (Ms <? 0)%Z with false
               by (symmetry; apply Z.ltb_ge; exact HMs).
             rewrite bind_ok. unfold repeat0.
             replace (Z.of_nat (length src) <? 0)%Z with false
               by (symmetry; apply Z.ltb_ge; lia).
             rewrite bind_ok, Ht, bind_ok.
             replace (Mt <? 0)%Z with true
               by (symmetry; apply Z.ltb_lt; exact HMt).
             reflexivity.
          -- right. split.
             ++ eexists. apply create_attention_mask_closed; eassumption.
             ++ intros [H | H]; [apply Hneg in H | apply Hnegt in H]; lia. }
  destruct Hcases as [[Hr Hc] | [[mask Hm] Hc]].
  - split; [split; intros; assumption|].
    split; [intros e He; rewrite Hr in He; unfold raise in He; congruence|].
    intros Hn. contradiction.
  - split; [split; [intros Hr; rewrite Hm in Hr; discriminate | intros; contradiction]|].
    split; [intros e He; rewrite Hm in He; discriminate|].
    intros _. exists mask. exact Hm.
Qed.

(** Witness: a batch whose source lengths are all negative. *)
Lemma create_attention_mask_raises_witness :
  create_attention_mask cpu [(-1)%Z; (-2)%Z] [3%Z; 1%Z] = raise RuntimeError.
Proof.
  destruct (@create_attention_mask_raises cpu [(-1)%Z; (-2)%Z] [3%Z; 1%Z]
              eq_refl) as [[_ H] _].
  apply H. left. repeat constructor.
Defined.

(** X3.  [create_self_attention_mask] raises exactly when every valid
    length is negative (in particular on an empty vector, which has no
    maximum); the error is a RuntimeError and the causal flag plays no part
    in it. *)
Theorem create_self_attention_mask_raises (dev : device) (vl : list Z)
        (causal : bool) :
  (create_self_attention_mask dev vl causal = raise RuntimeError
   <-> Forall (fun len => (len < 0)%Z) vl)
  /\ (forall e, create_self_attention_mask dev vl causal = raise e ->
                e = RuntimeError)
  /\ (~ Forall (fun len => (len < 0)%Z) vl ->
      exists mask, create_self_attention_mask dev vl causal = ok mask).
Proof.
  assert (Hcases :
    (create_self_attention_mask dev vl causal = raise RuntimeError
     /\ Forall (fun len => (len < 0)%Z) vl)
    \/ ((exists mask, create_self_attention_mask dev vl causal = ok mask)
        /\ ~ Forall (fun len => (len < 0)%Z) vl)).
  { destruct (tensor_max_cases vl) as [[Hnil Hr] | (M & Hmax & Hneg & Hne)].
    - left. split; [|subst vl; constructor].
      unfold create_self_attention_mask. rewrite Hr. reflexivity.
    - destruct (Z.ltb_spec M 0) as [HM | HM].
      + left. split; [|apply Hneg; exact HM].
        apply negative_max_raises with (M := M); assumption.
      + right. split.
        * eexists. apply create_self_attention_mask_closed; eassumption.
        * intros H. apply Hneg in H. lia. }
  destruct Hcases as [[Hr Hc] | [[mask Hm] Hc]].
  - split; [split; intros; assumption|].
    split; [intros e He; rewrite Hr in He; unfold raise in He; congruence|].
    intros Hn. contradiction.
  - split; [split; [intros Hr; rewrite Hm in Hr; discriminate | intros; contradiction]|].
    split; [intros e He; rewrite Hm in He; discriminate|].
    intros _. exists mask. exact Hm.
Qed.

(** X4.  Without the causal constraint the self-attention mask is the
    source-target mask of a length vector against itself, errors included. *)
Theorem create_self_attention_mask_is_cross_mask (dev : device) (vl : list Z) :
  create_self_attention_mask dev vl false = create_attention_mask dev vl vl.
Proof.
  unfold create_self_attention_mask, create_attention_mask.
  destruct (tensor_max vl) as [e | M]; [reflexivity|].
  rewrite !bind_ok.
  destruct (arange M) as [e | ar] eqn:Har; [reflexivity|].
  rewrite !bind_ok.
  destruct (repeat0 (Z.of_nat (length vl)) [ar]) as [e | r] eqn:Hr;
    [reflexivity|].
  rewrite !bind_ok, Har, bind_ok, Hr, bind_ok. reflexivity.
Qed.

Lemma tril_ones_entry (n i j : nat) :
  i < n -> j < n -> nth j (nth i (tril_ones n) []) 0%Z = lower i j.
Proof.
  intros Hi Hj. unfold tril_ones, lower.
  rewrite (nth_map_lt _ (seq 0 n) 0) by (rewrite length_seq; exact Hi).
  rewrite (nth_map_lt _ (seq 0 n) 0) by (rewrite length_seq; exact Hj).
  rewrite !seq_nth by assumption. reflexivity.
Qed.

(** X5.  [create_causal_mask] raises a ValueError when it is given neither
    a reference tensor nor any size, and when it is given neither a
    reference tensor nor a device.  A reference tensor of shape
    [[B, L, d]] overrides the explicit sizes and needs no device; the result
    is [B] copies of the [L] by [L] lower-triangular matrix of ones, whose
    entry [[i, j]] is 1 exactly when [j <= i]. *)
Theorem create_causal_mask_correct (A : Type) :
  (forall dev, create_causal_mask (A:=A) None None None dev = raise ValueError)
  /\ (forall batch_size seq_len,
         create_causal_mask (A:=A) None batch_size seq_len None
         = raise ValueError)
  /\ (forall (d : device) (x : list (list (list A))) B L w batch_size seq_len
             dev,
         Shape3 B L w x ->
         create_causal_mask (Some (d, x)) batch_size seq_len dev
         = ok (repeat (tril_ones L) B))
  /\ (forall B L dev,
         (0 <= B)%Z -> (0 <= L)%Z ->
         create_causal_mask (A:=A) None (Some B) (Some L) (Some dev)
         = ok (repeat (tril_ones (Z.to_nat L)) (Z.to_nat B)))
  /\ (forall n i j, i < n -> j < n ->
         nth j (nth i (tril_ones n) []) 0%Z = if j <=? i then 1%Z else 0%Z).
Proof.
  split; [intros dev; reflexivity|].
  split; [intros [b|] [l|]; reflexivity|].
  split.
  { intros d x B L w batch_size seq_len dev [Hlen Hall].
    destruct x as [|m x].
    - simpl in Hlen. subst B.
      destruct batch_size, seq_len, dev; reflexivity.
    - inversion Hall as [|? ? [Hm _] _]; subst.
      assert (Hgo :
        (if (Z.of_nat (length m) <? 0)%Z
         then raise RuntimeError
         else repeat0 (Z.of_nat (length (m :: x)))
                [tril_ones (Z.to_nat (Z.of_nat (length m)))])
        = ok (repeat (tril_ones (length m)) (length (m :: x)))).
      { replace (Z.of_nat (length m) <? 0)%Z with false
          by (symmetry; apply Z.ltb_ge; lia).
        unfold repeat0.
        replace (Z.of_nat (length (m :: x)) <? 0)%Z with false
          by (symmetry; apply Z.ltb_ge; lia).
        rewrite !Nat2Z.id, concat_repeat_singleton. reflexivity. }
      destruct batch_size, seq_len, dev; exact Hgo. }
  split.
  { intros B L dev HB HL. unfold create_causal_mask.
    replace (L <? 0)%Z with false by (symmetry; apply Z.ltb_ge; lia).
    unfold repeat0.
    replace (B <? 0)%Z with false by (symmetry; apply Z.ltb_ge; lia).
    rewrite concat_repeat_singleton. reflexivity. }
  intros n i j Hi Hj. rewrite tril_ones_entry by assumption. reflexivity.
Qed.

Lemma evens_odds_seq (n a : nat) :
  evens (seq a n) = map (fun i => a + 2 * i) (seq 0 ((n + 1) / 2))
  /\ odds (seq a n) = map (fun i => a + 1 + 2 * i) (seq 0 (n / 2)).
Proof.
  revert a. induction n as [n IH] using lt_wf_ind. intros a.
  destruct n as [|[|n]].
  - split; reflexivity.
  - split; simpl; [f_equal; lia | reflexivity].
  - destruct (IH n ltac:(lia) (S (S a))) as [He Ho].
    assert (Ho1 : odds (seq (S a) (S n)) = evens (seq (S (S a)) n))
      by reflexivity.
    replace ((S (S n) + 1) / 2) with (S ((n + 1) / 2)).
    2:{ replace (S (S n) + 1) with ((n + 1) + 1 * 2) by lia.
        rewrite Nat.div_add by lia. lia. }
    replace (S (S n) / 2) with (S (n / 2)).
    2:{ replace (S (S n)) with (n + 1 * 2) by lia.
        rewrite Nat.div_add by lia. lia. }
    split.
    + change (evens (seq a (S (S n)))) with (a :: evens (seq (S (S a)) n)).
      rewrite He. cbn [seq map]. f_equal; [lia|].
      rewrite <- seq_shift, map_map. apply map_ext. intros i. lia.
    + change (odds (seq a (S (S n))))
        with (S a :: odds (seq (S (S a)) n)).
      rewrite Ho. cbn [seq map]. f_equal; [lia|].
      rewrite <- seq_shift, map_map. apply map_ext. intros i. lia.
Qed.

Lemma evens_map {X Y : Type} (f : X -> Y) (l : list X) :
  evens (map f l) = map f (evens l).
Proof.
  induction l as [l IH] using (induction_ltof1 _ (@length X)).
  unfold ltof in IH.
  destruct l as [|a [|b l]]; try reflexivity.
  cbn [map evens]. f_equal. apply IH. simpl. lia.
Qed.

Lemma odds_map {X Y : Type} (f : X -> Y) (l : list X) :
  odds (map f l) = map f (odds l).
Proof. destruct l; [reflexivity|]. simpl. apply evens_map. Qed.

Lemma halves_length (d : nat) : (d + 1) / 2 + d / 2 = d.
Proof.
  pose proof (Nat.div_mod_eq d 2). pose proof (Nat.div_mod_eq (d + 1) 2).
  pose proof (Nat.mod_upper_bound d 2). pose proof (Nat.mod_upper_bound (d + 1) 2).
  assert ((d + 1) mod 2 = 1 - d mod 2).
  { replace (d + 1) with (1 + d) by lia.
    rewrite Nat.Div0.add_mod by lia.
    destruct (d mod 2) as [|[|k]] eqn:E; simpl; try reflexivity. lia. }
  lia.
Qed.

Lemma map_seq_shift {Y : Type} (f : nat -> Y) (a n : nat) :
  map f (seq a n) = map (fun i => f (a + i)) (seq 0 n).
Proof.
  revert a f. induction n as [|n IH]; intros a f; [reflexivity|].
  cbn [seq map]. f_equal; [f_equal; lia|].
  rewrite (IH (S a) f), (IH 1 (fun i => f (a + i))).
  apply map_ext. intros i. f_equal. lia.
Qed.

Lemma frequency_order (d : nat) :
  evens (seq 0 d) ++ odds (seq 0 d) = map (frequency d) (seq 0 d).
Proof.
  destruct (evens_odds_seq d 0) as [He Ho]. rewrite He, Ho.
  transitivity (map (frequency d) (seq 0 ((d + 1) / 2 + d / 2)));
    [|rewrite halves_length; reflexivity].
  rewrite seq_app, map_app. f_equal.
  - apply map_ext_in. intros i Hi. apply in_seq in Hi. unfold frequency.
    destruct (Nat.ltb_spec i ((d + 1) / 2)); lia.
  - cbn [Nat.add]. rewrite (map_seq_shift (frequency d)).
    apply map_ext. intros i. unfold frequency.
    destruct (Nat.ltb_spec ((d + 1) / 2 + i) ((d + 1) / 2)); lia.
Qed.

Lemma encodings_closed (self : SinusoidalPositionalEmbedding.t) (L : nat) :
  SinusoidalPositionalEmbedding.encodings self L
  = map (fun l =>
           map (fun c =>
                  sin (INR l
                       / Rpower 10000
                           (INR (frequency
                                   (SinusoidalPositionalEmbedding.dmodel self) c)
                            / INR (SinusoidalPositionalEmbedding.dmodel self))))
               (seq 0 (SinusoidalPositionalEmbedding.dmodel self)))
        (seq 0 L).
Proof.
  unfold SinusoidalPositionalEmbedding.encodings,
    SinusoidalPositionalEmbedding.band.
  rewrite map2_map_same, map_map. apply map_ext. intros l.
  rewrite evens_map, odds_map, !map_map, <- map_app, frequency_order, map_map.
  reflexivity.
Qed.

Lemma nth3_bcast_add (x : list (list (list R))) (enc : list (list R)) B L d
      b l c :
  Shape3 B L d x -> Shape2 L d enc -> b < B -> l < L -> c < d ->
  nth c (nth l (nth b (bcast2 (bcast2 (bcast2 Rplus)) x [enc]) []) []) 0%R
  = (nth c (nth l (nth b x []) []) 0 + nth c (nth l enc []) 0)%R.
Proof.
  intros [Hlen Hall] [Hel Heall] Hb Hl Hc.
  assert (Hout : bcast2 (bcast2 (bcast2 Rplus)) x [enc]
                 = map (fun m => bcast2 (bcast2 Rplus) m enc) x).
  { destruct x as [|m [|m' x]]; reflexivity. }
  rewrite Hout, (nth_map_lt _ x []) by lia.
  assert (Hm : Shape2 L d (nth b x [])).
  { rewrite Forall_forall in Hall. apply Hall, nth_In. lia. }
  destruct Hm as [Hml Hmall].
  rewrite bcast2_same_length by lia.
  rewrite (map2_nth _ (nth b x []) enc [] [] []) by lia.
  assert (Hr : length (nth l (nth b x []) []) = d).
  { rewrite Forall_forall in Hmall. apply Hmall, nth_In. lia. }
  assert (Her : length (nth l enc []) = d).
  { rewrite Forall_forall in Heall. apply Heall, nth_In. lia. }
  rewrite bcast2_same_length by lia.
  rewrite (map2_nth _ _ _ 0%R 0%R 0%R) by lia. reflexivity.
Qed.

Lemma encodings_shape (self : SinusoidalPositionalEmbedding.t) (L : nat) :
  Shape2 L (SinusoidalPositionalEmbedding.dmodel self)
         (SinusoidalPositionalEmbedding.encodings self L).
Proof.
  rewrite encodings_closed. split.
  - rewrite length_map, length_seq. reflexivity.
  - apply Forall_map, Forall_forall. intros l _.
    rewrite length_map, length_seq. reflexivity.
Qed.

Lemma encodings_entry (self : SinusoidalPositionalEmbedding.t) (L l c : nat) :
  l < L -> c < SinusoidalPositionalEmbedding.dmodel self ->
  nth c (nth l (SinusoidalPositionalEmbedding.encodings self L) []) 0%R
  = sin (INR l
         / Rpower 10000
             (INR (frequency (SinusoidalPositionalEmbedding.dmodel self) c)
              / INR (SinusoidalPositionalEmbedding.dmodel self))).
Proof.
  intros Hl Hc. rewrite encodings_closed.
  rewrite (nth_map_lt _ (seq 0 L) 0) by (rewrite length_seq; exact Hl).
  rewrite (nth_map_lt _ (seq 0 (SinusoidalPositionalEmbedding.dmodel self)) 0)
    by (rewrite length_seq; exact Hc).
  rewrite !seq_nth by assumption. reflexivity.
Qed.

Lemma positional_forward_value (self : SinusoidalPositionalEmbedding.t) B L d
      (x : list (list (list R))) :
  0 < B -> Shape3 B L d x ->
  (Z.of_nat L <= SinusoidalPositionalEmbedding.num_positions self)%Z ->
  SinusoidalPositionalEmbedding.forward self x
  = ok (bcast2 (bcast2 (bcast2 Rplus)) x
          [SinusoidalPositionalEmbedding.encodings self L]).
Proof.
  intros HB Hx HL. unfold SinusoidalPositionalEmbedding.forward.
  assert (Hhd : length (hd [] x) = L).
  { destruct Hx as [Hlen Hall]. destruct x as [|m x]; simpl in *; [lia|].
    inversion Hall as [|? ? [Hm _] _]; subst. reflexivity. }
  rewrite Hhd.
  replace (Z.of_nat L >? SinusoidalPositionalEmbedding.num_positions self)%Z
    with false; [reflexivity|].
  symmetry. rewrite Z.gtb_ltb. apply Z.ltb_ge. exact HL.
Qed.

Lemma bcast_add_shape (x : list (list (list R))) (enc : list (list R)) B L d :
  Shape3 B L d x -> Shape2 L d enc ->
  Shape3 B L d (bcast2 (bcast2 (bcast2 Rplus)) x [enc]).
Proof.
  intros [Hlen Hall] [Hel Heall].
  assert (Hout : bcast2 (bcast2 (bcast2 Rplus)) x [enc]
                 = map (fun m => bcast2 (bcast2 Rplus) m enc) x).
  { destruct x as [|m [|m' x]]; reflexivity. }
  rewrite Hout. split; [rewrite length_map; exact Hlen|].
  apply Forall_map. eapply Forall_impl; [|exact Hall].
  intros m [Hml Hmall]. rewrite bcast2_same_length by lia.
  apply map2_outer_shape; [|split; assumption | split; assumption].
  intros r1 r2 H1 H2. rewrite bcast2_length_same; lia.
Qed.

Lemma positional_forward_entries (self : SinusoidalPositionalEmbedding.t)
        (B L : nat) (x : list (list (list R))) :
  0 < B ->
  Shape3 B L (SinusoidalPositionalEmbedding.dmodel self) x ->
  (Z.of_nat L <= SinusoidalPositionalEmbedding.num_positions self)%Z ->
  exists y,
    SinusoidalPositionalEmbedding.forward self x = ok y
    /\ Shape3 B L (SinusoidalPositionalEmbedding.dmodel self) y
    /\ forall b l c,
        b < B -> l < L -> c < SinusoidalPositionalEmbedding.dmodel self ->
        nth c (nth l (nth b y []) []) 0%R
        = (nth c (nth l (nth b x []) []) 0
           + sin (INR l
                  / Rpower 10000
                      (INR (frequency
                              (SinusoidalPositionalEmbedding.dmodel self) c)
                       / INR (SinusoidalPositionalEmbedding.dmodel self))))%R.
Proof.
  intros HB Hx HL. eexists. split.
  - exact (@positional_forward_value self B L _ x HB Hx HL).
  - split; [apply bcast_add_shape; [exact Hx | apply encodings_shape]|].
    intros b l c Hb Hl Hc.
    rewrite (nth3_bcast_add Hx (encodings_shape self L) Hb Hl Hc).
    rewrite encodings_entry by assumption. reflexivity.
Qed.

(** X6.  On embeddings of shape [[B, L, dmodel]] with [L] at most
    [num_positions], the positional embedding returns a tensor of the same
    shape in which entry [[b, l, c]] is the input entry plus
    [sin(l / 10000 ** (f / dmodel))], where [f] is [2c] in the first
    [ceil(dmodel / 2)] columns and [2(c - ceil(dmodel / 2)) + 1] in the
    others: the two bands are laid side by side, not interleaved, they are
    both sines, and the same matrix is added to every example. *)
Theorem positional_forward_closed (self : SinusoidalPositionalEmbedding.t)
        (B L : nat) (x : list (list (list R))) :
  0 < B ->
  Shape3 B L (SinusoidalPositionalEmbedding.dmodel self) x ->
  (Z.of_nat L <= SinusoidalPositionalEmbedding.num_positions self)%Z ->
  exists y,
    SinusoidalPositionalEmbedding.forward self x = ok y
    /\ Shape3 B L (SinusoidalPositionalEmbedding.dmodel self) y
    /\ forall b l c,
        b < B -> l < L -> c < SinusoidalPositionalEmbedding.dmodel self ->
        nth c (nth l (nth b y []) []) 0%R
        = (nth c (nth l (nth b x []) []) 0
           + sin (INR l
                  / Rpower 10000
                      (INR (frequency
                              (SinusoidalPositionalEmbedding.dmodel self) c)
                       / INR (SinusoidalPositionalEmbedding.dmodel self))))%R.
Proof. apply positional_forward_entries. Qed.

(** Witness: one example of two positions and three features. *)
Lemma positional_forward_closed_witness :
  exists y,
    SinusoidalPositionalEmbedding.forward
      (SinusoidalPositionalEmbedding.mk 3 4)
      [[[1; 2; 3]; [4; 5; 6]]]%R = ok y
    /\ Shape3 1 2 3 y.
Proof.
  destruct (@positional_forward_closed (SinusoidalPositionalEmbedding.mk 3 4)
              1 2 [[[1; 2; 3]; [4; 5; 6]]]%R) as (y & Hy & Hs & _).
  - lia.
  - split; [reflexivity|]. repeat constructor.
  - simpl. lia.
  - exists y. split; [exact Hy | exact Hs].
Defined.

(** X7.  The positional embedding leaves the first position of every
    example unchanged (the encoding of position 0 is zero in both bands)
    and moves no entry by more than 1. *)
Theorem positional_forward_bounds (self : SinusoidalPositionalEmbedding.t)
        (B L : nat) (x y : list (list (list R))) :
  0 < B ->
  Shape3 B L (SinusoidalPositionalEmbedding.dmodel self) x ->
  SinusoidalPositionalEmbedding.forward self x = ok y ->
  forall b, b < B ->
    (0 < L -> nth 0 (nth b y []) [] = nth 0 (nth b x []) [])
    /\ forall l c, l < L -> c < SinusoidalPositionalEmbedding.dmodel self ->
         (Rabs (nth c (nth l (nth b y []) []) 0
                - nth c (nth l (nth b x []) []) 0) <= 1)%R.
Proof.
  intros HB Hx Hy b Hb.
  assert (HL : (Z.of_nat L
                <= SinusoidalPositionalEmbedding.num_positions self)%Z).
  { destruct (Z_le_gt_dec (Z.of_nat L)
                (SinusoidalPositionalEmbedding.num_positions self)) as [H | H];
      [exact H|].
    exfalso. unfold SinusoidalPositionalEmbedding.forward in Hy.
    rewrite (hd_length_of_shape HB (conj (proj1 Hx) (Shape3_rows Hx))) in Hy.
    replace (Z.of_nat L >? SinusoidalPositionalEmbedding.num_positions self)%Z
      with true in Hy; [discriminate|].
    symmetry. rewrite Z.gtb_ltb. apply Z.ltb_lt. lia. }
  destruct (positional_forward_entries self HB Hx HL) as (y' & Hy' & Hs & He).
  rewrite Hy in Hy'. injection Hy' as <-.
  assert (Hrow : forall (t : list (list (list R))) l,
             Shape3 B L (SinusoidalPositionalEmbedding.dmodel self) t ->
             l < L ->
             length (nth l (nth b t []) [])
             = SinusoidalPositionalEmbedding.dmodel self).
  { intros t l Ht Hl. apply (nth_row_length (L := L)); [|exact Hl].
    apply (nth_Shape2 Ht Hb). }
  split.
  - intros HL0. apply (nth_ext _ _ 0%R 0%R).
    + rewrite !Hrow by assumption. reflexivity.
    + intros c Hc. rewrite Hrow in Hc by assumption.
      rewrite He by assumption. simpl INR.
      unfold Rdiv. rewrite Rmult_0_l, sin_0. lra.
  - intros l c Hl Hc. rewrite He by assumption.
    match goal with |- (Rabs (?a + ?s - ?a) <= 1)%R =>
      replace (a + s - a)%R with s by lra end.
    apply Rabs_le. apply SIN_bound.
Qed.

(** Witness: the first position of a two-position example. *)
Lemma positional_forward_bounds_witness :
  exists y,
    SinusoidalPositionalEmbedding.forward
      (SinusoidalPositionalEmbedding.mk 3 4)
      [[[1; 2; 3]; [4; 5; 6]]]%R = ok y
    /\ nth 0 (nth 0 y []) [] = [1; 2; 3]%R.
Proof.
  eexists. split; [reflexivity|].
  assert (Hx : Shape3 1 2 (SinusoidalPositionalEmbedding.dmodel
                             (SinusoidalPositionalEmbedding.mk 3 4))
                 [[[1; 2; 3]; [4; 5; 6]]]%R).
  { split; [reflexivity|]. repeat constructor. }
  destruct (@positional_forward_bounds (SinusoidalPositionalEmbedding.mk 3 4)
              1 2 [[[1; 2; 3]; [4; 5; 6]]]%R _ ltac:(lia) Hx eq_refl 0
              ltac:(lia)) as [H0 _].
  apply H0. lia.
Defined.

(** ** C9: the length guard of the positional embedding *)

Lemma positional_forward_raises (self : SinusoidalPositionalEmbedding.t) B L d
      (x : list (list (list R))) :
  0 < B -> Shape3 B L d x ->
  (SinusoidalPositionalEmbedding.forward self x = raise ValueError
   <-> (Z.of_nat L > SinusoidalPositionalEmbedding.num_positions self)%Z).
Proof.
  intros HB Hx.
  destruct (Z_le_gt_dec (Z.of_nat L)
              (SinusoidalPositionalEmbedding.num_positions self)) as [Hle | Hgt].
  - rewrite (@positional_forward_value self B L d x HB Hx Hle).
    split; [intros Habs; discriminate Habs | intros Hgt; lia].
  - split; [intros _; exact Hgt|]. intros _.
    unfold SinusoidalPositionalEmbedding.forward.
    rewrite (hd_length_of_shape HB (conj (proj1 Hx) (Shape3_rows Hx))).
    replace (Z.of_nat L >? SinusoidalPositionalEmbedding.num_positions self)%Z
      with true; [reflexivity|].
    symmetry. rewrite Z.gtb_ltb. apply Z.ltb_lt. lia.
Qed.

Lemma encodings_of_dmodel (self self' : SinusoidalPositionalEmbedding.t)
      (L : nat) :
  SinusoidalPositionalEmbedding.dmodel self'
  = SinusoidalPositionalEmbedding.dmodel self ->
  SinusoidalPositionalEmbedding.encodings self' L
  = SinusoidalPositionalEmbedding.encodings self L.
Proof.
  intros Hd. unfold SinusoidalPositionalEmbedding.encodings.
  rewrite Hd. reflexivity.
Qed.

(** C9.  On a non-empty batch of shape [[B, L, dmodel]],
    [SinusoidalPositionalEmbedding.forward] raises its length error exactly
    when [L] exceeds [num_positions].  Otherwise it returns a tensor of the
    input's shape, and the result is determined by the input and the shape
    [(L, dmodel)] alone: it is the same for every embedding of that
    [dmodel] whose table is long enough, and what is added to the input is
    the same for every example of every input of that shape. *)
Theorem positional_forward_guard (self : SinusoidalPositionalEmbedding.t)
        (B L : nat) (x : list (list (list R))) :
  0 < B ->
  Shape3 B L (SinusoidalPositionalEmbedding.dmodel self) x ->
  (SinusoidalPositionalEmbedding.forward self x = raise ValueError
   <-> (Z.of_nat L > SinusoidalPositionalEmbedding.num_positions self)%Z)
  /\ ((Z.of_nat L <= SinusoidalPositionalEmbedding.num_positions self)%Z ->
      exists y,
        SinusoidalPositionalEmbedding.forward self x = ok y
        /\ Shape3 B L (SinusoidalPositionalEmbedding.dmodel self) y
        /\ forall (self' : SinusoidalPositionalEmbedding.t) (B' : nat)
                  (x' : list (list (list R))),
             SinusoidalPositionalEmbedding.dmodel self'
             = SinusoidalPositionalEmbedding.dmodel self ->
             0 < B' ->
             Shape3 B' L (SinusoidalPositionalEmbedding.dmodel self) x' ->
             (Z.of_nat L
              <= SinusoidalPositionalEmbedding.num_positions self')%Z ->
             exists y',
               SinusoidalPositionalEmbedding.forward self' x' = ok y'
               /\ (x' = x -> y' = y)
               /\ forall b b' l c,
                    b < B -> b' < B' -> l < L ->
                    c < SinusoidalPositionalEmbedding.dmodel self ->
                    (nth c (nth l (nth b' y' []) []) 0
                     - nth c (nth l (nth b' x' []) []) 0
                     = nth c (nth l (nth b y []) []) 0
                       - nth c (nth l (nth b x []) []) 0)%R).
Proof.
  intros HB Hx. split; [apply (positional_forward_raises self HB Hx)|].
  intros HL.
  destruct (positional_forward_entries self HB Hx HL) as (y & Hy & Hs & He).
  exists y. split; [exact Hy|]. split; [exact Hs|].
  intros self' B' x' Hd HB' Hx' HL'.
  rewrite <- Hd in Hx'.
  destruct (positional_forward_entries self' HB' Hx' HL')
    as (y' & Hy' & _ & He').
  exists y'. split; [exact Hy'|]. split.
  - intros ->.
    rewrite (@positional_forward_value self B L _ x HB Hx HL) in Hy.
    rewrite Hd in Hx'.
    rewrite (@positional_forward_value self' B' L _ x HB' Hx' HL') in Hy'.
    rewrite (@encodings_of_dmodel self self' L Hd) in Hy'.
    rewrite Hy in Hy'. injection Hy' as ->. reflexivity.
  - intros b b' l c Hb Hb' Hl Hc.
    rewrite (He b l c Hb Hl Hc).
    rewrite (He' b' l c Hb' Hl ltac:(rewrite Hd; exact Hc)).
    rewrite Hd. lra.
Qed.

(** Witness: a length-2 input against a table of 4 positions, and a second
    input of the same shape against a table of 7. *)
Lemma positional_forward_guard_witness :
  exists y y',
    SinusoidalPositionalEmbedding.forward
      (SinusoidalPositionalEmbedding.mk 2 4) [[[0; 0]; [0; 0]]]%R = ok y
    /\ SinusoidalPositionalEmbedding.forward
         (SinusoidalPositionalEmbedding.mk 2 7)
         [[[1; 2]; [3; 4]]; [[5; 6]; [7; 8]]]%R = ok y'
    /\ (nth 1 (nth 1 (nth 1 y' []) []) 0 - 8
        = nth 1 (nth 1 (nth 0 y []) []) 0 - 0)%R.
Proof.
  assert (Hx : Shape3 1 2 2 [[[0; 0]; [0; 0]]]%R)
    by (split; [reflexivity | repeat constructor]).
  assert (Hx' : Shape3 2 2 2 [[[1; 2]; [3; 4]]; [[5; 6]; [7; 8]]]%R)
    by (split; [reflexivity | repeat constructor]).
  destruct (@positional_forward_guard (SinusoidalPositionalEmbedding.mk 2 4)
              1 2 [[[0; 0]; [0; 0]]]%R ltac:(lia) Hx) as [_ H].
  destruct H as (y & Hy & _ & Hsame); [simpl; lia|].
  destruct (Hsame (SinusoidalPositionalEmbedding.mk 2 7) 2
              [[[1; 2]; [3; 4]]; [[5; 6]; [7; 8]]]%R eq_refl ltac:(lia) Hx'
              ltac:(simpl; lia)) as (y' & Hy' & _ & Hd).
  exists y, y'. split; [exact Hy|]. split; [exact Hy'|].
  apply (Hd 0 1 1 1); simpl; lia.
Defined.

Lemma zip_cons_nth {X : Type} (row : list X) (cols : list (list X)) c d :
  c < length row -> c < length cols ->
  nth c (zip_cons row cols) [] = nth c row d :: nth c cols [].
Proof.
  revert cols c. induction row as [|a row IH]; intros [|col cols] c Hr Hc;
    simpl in *; try lia.
  destruct c; [reflexivity|]. apply IH; lia.
Qed.

Lemma transpose_nth_col {X : Type} (n : nat) (m : list (list X)) c d :
  Forall (fun r => length r = n) m -> c < n ->
  nth c (transpose n m) [] = map (fun r => nth c r d) m.
Proof.
  intros Hall Hc. induction Hall as [|row rest Hrow Hrest IH]; simpl.
  - apply nth_repeat_lt. exact Hc.
  - rewrite (zip_cons_nth _ _ d).
    + rewrite IH. reflexivity.
    + lia.
    + destruct (transpose_shape Hrest) as [Ht _]. lia.
Qed.

Lemma matmul_entry (a b : list (list R)) Lb dv i c :
  0 < Lb -> Shape2 Lb dv b -> i < length a -> c < dv ->
  nth c (nth i (matmul a b) []) 0%R
  = dot (nth i a []) (map (fun r => nth c r 0%R) b).
Proof.
  intros HLb Hb Hi Hc. unfold matmul.
  rewrite (hd_length_of_shape HLb Hb).
  rewrite (nth_map_lt _ a []) by exact Hi.
  destruct Hb as [Hlen Hrows].
  destruct (transpose_shape Hrows) as [Ht _].
  rewrite (nth_map_lt _ (transpose dv b) []) by lia.
  rewrite (transpose_nth_col 0%R Hrows Hc). reflexivity.
Qed.

Lemma forward_slice_unmasked (query key value : list (list R)) Lk d :
  Shape2 Lk d key -> 0 < d ->
  ScaledDotProductAttention.forward_slice d query key value None
  = (matmul (map (fun q =>
                    softmax (map (fun kr => (dot q kr / sqrt (INR d))%R) key))
                 query) value,
     map (fun q => softmax (map (fun kr => (dot q kr / sqrt (INR d))%R) key))
         query).
Proof.
  intros Hk Hd. unfold ScaledDotProductAttention.forward_slice.
  rewrite (matmul_key_transpose query Hk Hd), !map_map.
  replace (map (fun x => softmax (map (fun s => (s / sqrt (INR d))%R)
                                      (map (dot x) key))) query)
    with (map (fun q => softmax (map (fun kr => (dot q kr / sqrt (INR d))%R)
                                     key)) query)
    by (apply map_ext; intros q; rewrite map_map; reflexivity).
  reflexivity.
Qed.

Lemma forward_nth_slice_none (query key value : list (list (list R)))
      (b : nat) :
  b < length query -> b < length key -> b < length value ->
  let r := ScaledDotProductAttention.forward query key value None in
  let s := ScaledDotProductAttention.forward_slice
             (length (hd [] (hd [] query)))
             (nth b query []) (nth b key []) (nth b value []) None in
  nth b (fst r) [] = fst s /\ nth b (snd r) [] = snd s.
Proof.
  intros Hq Hk Hv. unfold ScaledDotProductAttention.forward.
  cbn [fst snd].
  set (f := fun (qk : list (list R) * list (list R) * list (list R)) =>
              ScaledDotProductAttention.forward_slice
                (length (hd [] (hd [] query))) (fst (fst qk)) (snd (fst qk))
                (snd qk) None).
  assert (Hlen : b < length (map f (combine (combine query key) value))).
  { rewrite length_map, !length_combine. lia. }
  assert (Hnth : nth b (map f (combine (combine query key) value)) ([], [])
                 = f (nth b query [], nth b key [], nth b value [])).
  { rewrite (nth_map_lt f _ ([], [], []))
      by (rewrite ?length_combine; lia).
    rewrite !combine_nth_lt by (rewrite ?length_combine; lia).
    reflexivity. }
  split.
  - rewrite (nth_map_lt fst _ ([], [])) by exact Hlen.
    rewrite Hnth. reflexivity.
  - rewrite (nth_map_lt snd _ ([], [])) by exact Hlen.
    rewrite Hnth. reflexivity.
Qed.

Lemma dk_of_shape (B Lq d : nat) (query : list (list (list R))) :
  0 < B -> 0 < Lq -> Shape3 B Lq d query ->
  length (hd [] (hd [] query)) = d.
Proof.
  intros HB HL [Hlen Hall]. destruct query as [|q0 q]; [simpl in *; lia|].
  inversion Hall as [|? ? Hq0 _]; subst. cbn [hd].
  apply (hd_length_of_shape (B:=Lq)); [lia | exact Hq0].
Qed.

Open Scope R_scope.

Lemma dot_cons (a c : R) (w col : list R) :
  dot (a :: w) (c :: col) = a * c + dot w col.
Proof. reflexivity. Qed.

Lemma dot_bounds (w col : list R) (lo hi : R) :
  length w = length col ->
  Forall (fun x => 0 <= x) w -> Forall (fun v => lo <= v <= hi) col ->
  lo * Rsum w <= dot w col <= hi * Rsum w.
Proof.
  revert col. induction w as [|a w IH]; intros [|c col] Hlen Hw Hcol;
    simpl in Hlen; try discriminate.
  - unfold dot, Rsum. simpl. lra.
  - inversion Hw as [|? ? Ha Hw']; subst.
    inversion Hcol as [|? ? Hc Hcol']; subst.
    rewrite dot_cons. specialize (IH col ltac:(lia) Hw' Hcol').
    unfold Rsum in *. cbn [fold_right]. nra.
Qed.

Close Scope R_scope.

(** X8.  Without a mask, every row of attention weights is a probability
    distribution over the keys (each weight in [0, 1], the row summing to
    1), and every entry of the output is the matching convex combination of
    the value entries, so it lies within their range. *)
Theorem attention_unmasked_rows (B Lq Lk d dv : nat)
        (query key value : list (list (list R))) (b i : nat) :
  0 < d -> 0 < Lk ->
  Shape3 B Lq d query -> Shape3 B Lk d key -> Shape3 B Lk dv value ->
  b < B -> i < Lq ->
  let r := ScaledDotProductAttention.forward query key value None in
  let w := nth i (nth b (snd r) []) [] in
  let o := nth i (nth b (fst r) []) [] in
  length w = Lk
  /\ Forall (fun v => (0 <= v <= 1)%R) w
  /\ Rsum w = 1%R
  /\ forall c, c < dv ->
       nth c o 0%R = dot w (map (fun row => nth c row 0%R) (nth b value []))
       /\ forall lo hi,
            (forall j, j < Lk ->
                       (lo <= nth c (nth j (nth b value []) []) 0 <= hi)%R) ->
            (lo <= nth c o 0 <= hi)%R.
Proof.
  intros Hd HLk Hq Hk Hv Hb Hi r w o.
  assert (HB : 0 < B) by lia. assert (HLq : 0 < Lq) by lia.
  destruct (@forward_nth_slice_none query key value b) as [Hfst Hsnd];
    try (destruct Hq, Hk, Hv; lia).
  pose proof (nth_Shape2 Hq Hb) as Hqb.
  pose proof (nth_Shape2 Hk Hb) as Hkb.
  pose proof (nth_Shape2 Hv Hb) as Hvb.
  rewrite (dk_of_shape HB HLq Hq), (forward_slice_unmasked _ _ Hkb Hd)
    in Hfst, Hsnd.
  cbn [fst snd] in Hfst, Hsnd.
  set (scores := map (fun kr => (dot (nth i (nth b query []) []) kr
                                 / sqrt (INR d))%R) (nth b key [])).
  assert (Hw : w = softmax scores).
  { unfold w, r. rewrite Hsnd.
    rewrite (nth_map_lt _ (nth b query []) []) by (destruct Hqb; lia).
    reflexivity. }
  assert (Hsl : length scores = Lk).
  { unfold scores. rewrite length_map. apply Hkb. }
  assert (Hwl : length w = Lk) by (rewrite Hw, softmax_length; exact Hsl).
  assert (Hne : scores <> []).
  { intros E. rewrite E in Hsl. simpl in Hsl. lia. }
  assert (Hpos : Forall (fun v => (0 <= v <= 1)%R) w).
  { apply (@Forall_nth_intro _ _ _ 0%R). intros j Hj. rewrite Hw in *.
    rewrite softmax_length in Hj. split.
    - left. apply softmax_pos. exact Hj.
    - apply softmax_le_1. exact Hj. }
  assert (Hsum : Rsum w = 1%R) by (rewrite Hw; apply softmax_sum; exact Hne).
  split; [exact Hwl|]. split; [exact Hpos|]. split; [exact Hsum|].
  intros c Hc.
  assert (Ho : nth c o 0%R
               = dot w (map (fun row => nth c row 0%R) (nth b value []))).
  { unfold o, r. rewrite Hfst.
    rewrite (@matmul_entry _ (nth b value []) Lk dv i c HLk Hvb)
      by (rewrite ?length_map; destruct Hqb; lia).
    rewrite (nth_map_lt _ (nth b query []) []) by (destruct Hqb; lia).
    fold scores. rewrite <- Hw. reflexivity. }
  split; [exact Ho|].
  intros lo hi Hrange. rewrite Ho.
  destruct (@dot_bounds w (map (fun row => nth c row 0%R) (nth b value []))
              lo hi) as [Hlo Hhi].
  - rewrite length_map, Hwl. symmetry. apply Hvb.
  - eapply Forall_impl; [|exact Hpos]. intros v [Hv0 _]. exact Hv0.
  - apply Forall_map. apply (@Forall_nth_intro _ _ _ []). intros j Hj.
    apply Hrange. destruct Hvb as [Hvl _]. lia.
  - rewrite Hsum in Hlo, Hhi. lra.
Qed.

(** Witness: one query against two keys. *)
Lemma attention_unmasked_rows_witness :
  Rsum (nth 0 (nth 0 (snd (ScaledDotProductAttention.forward
                             [[[1%R]]] [[[0%R]; [2%R]]] [[[1%R]; [3%R]]]
                             None)) []) []) = 1%R.
Proof.
  destruct (@attention_unmasked_rows 1 1 2 1 1
              [[[1%R]]] [[[0%R]; [2%R]]] [[[1%R]; [3%R]]] 0 0)
    as (_ & _ & Hsum & _); try lia;
    try (split; [reflexivity | repeat constructor]).
  exact Hsum.
Defined.

(** Row [[b, i]] of masked attention, read off the slices. *)
Lemma attention_row_masked (B Lq Lk d dv : nat)
      (query key value : list (list (list R)))
      (mask : list (list (list Z))) (b i : nat) :
  0 < d -> 0 < Lk ->
  Shape3 B Lq d query -> Shape3 B Lk d key -> Shape3 B Lk dv value ->
  Shape3 B Lq Lk mask -> b < B -> i < Lq ->
  let r := ScaledDotProductAttention.forward query key value (Some mask) in
  let w := masked_weights
             (map (fun kr => (dot (nth i (nth b query []) []) kr
                              / sqrt (INR d))%R) (nth b key []))
             (nth i (nth b mask []) []) in
  nth i (nth b (snd r) []) [] = w
  /\ length (nth i (nth b (fst r) []) []) = dv
  /\ forall c, c < dv ->
       nth c (nth i (nth b (fst r) []) []) 0%R
       = dot w (map (fun row => nth c row 0%R) (nth b value [])).
Proof.
  intros Hd HLk Hq Hk Hv Hm Hb Hi r w.
  assert (HB : 0 < B) by lia. assert (HLq : 0 < Lq) by lia.
  destruct (@forward_nth_slice query key value mask b) as [Hfst Hsnd];
    try (destruct Hq, Hk, Hv, Hm; lia).
  pose proof (nth_Shape2 Hq Hb) as Hqb.
  pose proof (nth_Shape2 Hk Hb) as Hkb.
  pose proof (nth_Shape2 Hv Hb) as Hvb.
  pose proof (nth_Shape2 Hm Hb) as Hmb.
  rewrite (dk_of_shape HB HLq Hq), (forward_slice_masked _ _ _ Hkb Hd)
    in Hfst, Hsnd.
  cbn [fst snd] in Hfst, Hsnd.
  assert (Hrow : nth i (map2 masked_weights
                          (map (fun q => map (fun kr =>
                                  (dot q kr / sqrt (INR d))%R) (nth b key []))
                               (nth b query [])) (nth b mask [])) [] = w).
  { rewrite (map2_nth _ _ _ [] [] [])
      by (rewrite ?length_map; destruct Hqb, Hmb; lia).
    rewrite (nth_map_lt _ (nth b query []) []) by (destruct Hqb; lia).
    reflexivity. }
  assert (Hlen : length (map2 masked_weights
                          (map (fun q => map (fun kr =>
                                  (dot q kr / sqrt (INR d))%R) (nth b key []))
                               (nth b query [])) (nth b mask [])) = Lq).
  { rewrite map2_length, length_map. destruct Hqb, Hmb; lia. }
  split; [unfold r; rewrite Hsnd; exact Hrow|].
  split.
  - unfold r. rewrite Hfst.
    apply (nth_row_length (L := Lq)); [|exact Hi].
    apply (@matmul_shape _ (nth b value []) Lq Lk dv Hlen HLk Hvb).
  - intros c Hc. unfold r. rewrite Hfst.
    rewrite (@matmul_entry _ (nth b value []) Lk dv i c HLk Hvb) by lia.
    rewrite Hrow. reflexivity.
Qed.

Lemma masked_scores_agree (s s' : list R) (mr : list Z) n :
  length s = n -> length s' = n -> length mr = n ->
  (forall j, j < n -> nth j mr 0%Z <> 0%Z -> nth j s' 0%R = nth j s 0%R) ->
  masked_weights s' mr = masked_weights s mr.
Proof.
  intros Hs Hs' Hm Hagree. unfold masked_weights. f_equal. f_equal.
  apply (nth_ext _ _ 0%R 0%R).
  - rewrite !map2_length. lia.
  - intros j Hj. rewrite map2_length in Hj.
    rewrite (@masked_scores_nth s' mr n j Hs' Hm) by lia.
    rewrite (@masked_scores_nth s mr n j Hs Hm) by lia.
    destruct (Z.eqb_spec (nth j mr 0%Z) 0); [reflexivity|].
    apply Hagree; [lia | assumption].
Qed.

Lemma dot_agree (w col col' : list R) :
  length col = length w -> length col' = length w ->
  (forall j, j < length w ->
             nth j w 0%R = 0%R \/ nth j col' 0%R = nth j col 0%R) ->
  dot w col' = dot w col.
Proof.
  intros Hc Hc' Hagree. unfold dot. f_equal.
  apply (nth_ext _ _ 0%R 0%R).
  - rewrite !map2_length. lia.
  - intros j Hj. rewrite map2_length in Hj.
    rewrite !(map2_nth Rmult _ _ 0%R 0%R 0%R) by lia.
    destruct (Hagree j ltac:(lia)) as [H0 | He].
    + rewrite H0. lra.
    + rewrite He. reflexivity.
Qed.

Lemma attention_row_congruence (B Lq Lk d dv : nat)
      (query key value query' key' value' : list (list (list R)))
      (mask : list (list (list Z))) (b i : nat) :
  0 < d -> 0 < Lk ->
  Shape3 B Lq d query -> Shape3 B Lk d key -> Shape3 B Lk dv value ->
  Shape3 B Lq d query' -> Shape3 B Lk d key' -> Shape3 B Lk dv value' ->
  Shape3 B Lq Lk mask -> b < B -> i < Lq ->
  nth i (nth b query' []) [] = nth i (nth b query []) [] ->
  (forall j, j < Lk -> nth j (nth i (nth b mask []) []) 0%Z <> 0%Z ->
     nth j (nth b key' []) [] = nth j (nth b key []) []
     /\ nth j (nth b value' []) [] = nth j (nth b value []) []) ->
  let r := ScaledDotProductAttention.forward query key value (Some mask) in
  let r' := ScaledDotProductAttention.forward query' key' value' (Some mask) in
  nth i (nth b (snd r') []) [] = nth i (nth b (snd r) []) []
  /\ nth i (nth b (fst r') []) [] = nth i (nth b (fst r) []) [].
Proof.
  intros Hd HLk Hq Hk Hv Hq' Hk' Hv' Hm Hb Hi Hqi Hagree r r'.
  destruct (attention_row_masked Hd HLk Hq Hk Hv Hm Hb Hi)
    as (Hw & Hol & Ho).
  destruct (attention_row_masked Hd HLk Hq' Hk' Hv' Hm Hb Hi)
    as (Hw' & Hol' & Ho').
  fold r in Hw, Hol, Ho. fold r' in Hw', Hol', Ho'.
  pose proof (nth_Shape2 Hk Hb) as Hkb.
  pose proof (nth_Shape2 Hk' Hb) as Hkb'.
  pose proof (nth_Shape2 Hv Hb) as Hvb.
  pose proof (nth_Shape2 Hv' Hb) as Hvb'.
  pose proof (nth_row_length (nth_Shape2 Hm Hb) Hi) as Hmr.
  assert (Hweights :
    masked_weights
      (map (fun kr => (dot (nth i (nth b query' []) []) kr / sqrt (INR d))%R)
           (nth b key' []))
      (nth i (nth b mask []) [])
    = masked_weights
        (map (fun kr => (dot (nth i (nth b query []) []) kr / sqrt (INR d))%R)
             (nth b key []))
        (nth i (nth b mask []) [])).
  { apply (@masked_scores_agree _ _ _ Lk);
      try (rewrite length_map; apply Hkb || apply Hkb'); try exact Hmr.
    intros j Hj Hmj.
    rewrite (nth_map_lt _ (nth b key' []) []) by (destruct Hkb'; lia).
    rewrite (nth_map_lt _ (nth b key []) []) by (destruct Hkb; lia).
    rewrite Hqi, (proj1 (Hagree j Hj Hmj)). reflexivity. }
  split; [rewrite Hw, Hw'; exact Hweights|].
  apply (nth_ext _ _ 0%R 0%R); [lia|].
  intros c Hc. rewrite Hol' in Hc. rewrite Ho, Ho' by exact Hc.
  rewrite Hweights.
  set (w := masked_weights _ _).
  assert (Hwl : length w = Lk).
  { apply masked_weights_length; [rewrite length_map; apply Hkb | exact Hmr]. }
  apply dot_agree.
  - rewrite length_map, Hwl. apply Hvb.
  - rewrite length_map, Hwl. apply Hvb'.
  - intros j Hj. rewrite Hwl in Hj.
    destruct (Z.eq_dec (nth j (nth i (nth b mask []) []) 0%Z) 0) as [E | E].
    + left. unfold w.
      rewrite (@masked_weights_nth _ _ Lk j) by
        (try exact Hmr; try exact Hj; rewrite length_map; apply Hkb).
      rewrite E. reflexivity.
    + right.
      rewrite (nth_map_lt _ (nth b value' []) []) by (destruct Hvb'; lia).
      rewrite (nth_map_lt _ (nth b value []) []) by (destruct Hvb; lia).
      rewrite (proj2 (Hagree j Hj E)). reflexivity.
Qed.

(** X9.  With a mask, row [i] of the attention weights and of the output
    of example [b] depends only on query row [i] and on the keys and values
    at the positions the mask allows for that row: replacing every other
    query row, and the keys and values at the masked positions, changes
    neither. *)
Theorem attention_masked_positions_ignored (B Lq Lk d dv : nat)
        (query key value query' key' value' : list (list (list R)))
        (mask : list (list (list Z))) (b i : nat) :
  0 < d -> 0 < Lk ->
  Shape3 B Lq d query -> Shape3 B Lk d key -> Shape3 B Lk dv value ->
  Shape3 B Lq d query' -> Shape3 B Lk d key' -> Shape3 B Lk dv value' ->
  Shape3 B Lq Lk mask -> b < B -> i < Lq ->
  nth i (nth b query' []) [] = nth i (nth b query []) [] ->
  (forall j, j < Lk -> nth j (nth i (nth b mask []) []) 0%Z <> 0%Z ->
     nth j (nth b key' []) [] = nth j (nth b key []) []
     /\ nth j (nth b value' []) [] = nth j (nth b value []) []) ->
  let r := ScaledDotProductAttention.forward query key value (Some mask) in
  let r' := ScaledDotProductAttention.forward query' key' value' (Some mask) in
  nth i (nth b (snd r') []) [] = nth i (nth b (snd r) []) []
  /\ nth i (nth b (fst r') []) [] = nth i (nth b (fst r) []) [].
Proof. apply attention_row_congruence. Qed.

(** Witness: the second key and value are masked and replaced. *)
Lemma attention_masked_positions_ignored_witness :
  nth 0 (nth 0 (fst (ScaledDotProductAttention.forward
                       [[[1%R]]] [[[0%R]; [5%R]]] [[[1%R]; [7%R]]]
                       (Some [[[1%Z; 0%Z]]]))) []) []
  = nth 0 (nth 0 (fst (ScaledDotProductAttention.forward
                         [[[1%R]]] [[[0%R]; [2%R]]] [[[1%R]; [3%R]]]
                         (Some [[[1%Z; 0%Z]]]))) []) [].
Proof.
  destruct (@attention_masked_positions_ignored 1 1 2 1 1
              [[[1%R]]] [[[0%R]; [2%R]]] [[[1%R]; [3%R]]]
              [[[1%R]]] [[[0%R]; [5%R]]] [[[1%R]; [7%R]]]
              [[[1%Z; 0%Z]]] 0 0) as [_ Ho]; try lia;
    try (split; [reflexivity | repeat constructor]).
  - reflexivity.
  - intros [|[|j]] Hj Hm; simpl in *; try lia. split; reflexivity.
  - exact Ho.
Defined.

(** ** The head split in closed form *)

Section LayoutFacts.
Context {A : Type}.

Lemma nth_firstn_lt (n j : nat) (l : list A) d :
  j < n -> nth j (firstn n l) d = nth j l d.
Proof.
  revert j l. induction n as [|n IH]; intros j l Hj; [lia|].
  destruct l as [|a l]; [destruct j; reflexivity|].
  destruct j; [reflexivity|]. simpl. apply IH. lia.
Qed.

Lemma nth_skipn (m j : nat) (l : list A) d :
  nth j (skipn m l) d = nth (m + j) l d.
Proof.
  revert l. induction m as [|m IH]; intros l; [reflexivity|].
  destruct l as [|a l]; [destruct j; reflexivity|].
  simpl. apply IH.
Qed.

Lemma nth_chunks (n c k : nat) (buf : list A) :
  k < c -> nth k (chunks n c buf) [] = firstn n (skipn (k * n) buf).
Proof.
  revert k buf. induction c as [|c IH]; intros k buf Hk; [lia|].
  destruct k; [reflexivity|].
  cbn [chunks nth]. rewrite IH by lia. rewrite skipn_skipn.
  f_equal. f_equal. simpl. lia.
Qed.

Lemma nth_chunks_entry (n c k j : nat) (buf : list A) d :
  k < c -> j < n ->
  nth j (nth k (chunks n c buf) []) d = nth (k * n + j) buf d.
Proof.
  intros Hk Hj. rewrite nth_chunks by exact Hk.
  rewrite nth_firstn_lt by exact Hj. apply nth_skipn.
Qed.

Lemma nth_concat_uniform (n k j : nat) (ll : list (list A)) d :
  Forall (fun c => length c = n) ll -> k < length ll -> j < n ->
  nth (k * n + j) (concat ll) d = nth j (nth k ll []) d.
Proof.
  intros Hall. revert k. induction Hall as [|c ll Hc Hall IH]; intros k Hk Hj;
    simpl in *; [lia|].
  destruct k.
  - simpl. rewrite app_nth1 by lia. reflexivity.
  - rewrite app_nth2 by (simpl; lia).
    replace (S k * n + j - length c) with (k * n + j) by (simpl; lia).
    apply IH; lia.
Qed.

Lemma chunks_shape (n c : nat) (buf : list A) :
  length buf = c * n -> Shape2 c n (chunks n c buf).
Proof.
  intros H. split; [apply chunks_length | apply chunks_each; exact H].
Qed.

(** Splitting the last axis of size [h * s] into [(h, s)]. *)
Lemma split_last_axis (B L h s : nat) (x : list (list (list A))) :
  Shape3 B L (h * s) x ->
  view4 B L h s (flatten3 x) = map (map (chunks s h)) x.
Proof.
  intros Hx.
  assert (Hx4 : Shape4 B L h s (map (map (chunks s h)) x)).
  { destruct Hx as [Hlen Hall]. split; [rewrite length_map; exact Hlen|].
    apply Forall_map. eapply Forall_impl; [|exact Hall].
    intros m [Hm Hrows]. split; [rewrite length_map; exact Hm|].
    apply Forall_map. eapply Forall_impl; [|exact Hrows].
    intros r Hr. apply chunks_shape. exact Hr. }
  rewrite <- (view4_flatten4 Hx4). f_equal.
  unfold flatten4, flatten3, flatten2. rewrite map_map. f_equal.
  destruct Hx as [_ Hall]. apply map_ext_in. intros m Hm.
  rewrite Forall_forall in Hall. destruct (Hall m Hm) as [_ Hrows].
  rewrite !map_map. f_equal.
  rewrite <- (map_id m) at 1. apply map_ext_in. intros r Hr.
  rewrite Forall_forall in Hrows. symmetry. apply concat_chunks.
  apply Hrows. exact Hr.
Qed.

Lemma concat_shape3 (B h L s : nat) (y4 : list (list (list (list A)))) :
  Shape4 B h L s y4 -> Shape3 (B * h) L s (concat y4).
Proof.
  intros [Hlen Hall]. split.
  - rewrite (@length_concat_uniform _ h).
    + rewrite Hlen. reflexivity.
    + eapply Forall_impl; [|exact Hall]. intros g [Hg _]. exact Hg.
  - apply Forall_concat. eapply Forall_impl; [|exact Hall].
    intros g [_ Hg]. exact Hg.
Qed.

Lemma flatten3_concat (y4 : list (list (list (list A)))) :
  flatten3 (concat y4) = flatten4 y4.
Proof.
  induction y4 as [|g y4 IH]; [reflexivity|].
  unfold flatten4, flatten3 in *. cbn [concat map].
  rewrite map_app, concat_app, IH. reflexivity.
Qed.

(** Merging the first two axes. *)
Lemma merge_first_axes (B h L s : nat) (y4 : list (list (list (list A)))) :
  Shape4 B h L s y4 ->
  view3 (B * h) L s (flatten4 y4) = concat y4.
Proof.
  intros Hy. rewrite <- flatten3_concat.
  apply view3_flatten3, concat_shape3, Hy.
Qed.

(** Splitting the first axis of size [B * h] into [(B, h)]. *)
Lemma split_first_axis (B h L s : nat) (y : list (list (list A))) :
  Shape3 (B * h) L s y ->
  view4 B h L s (flatten3 y) = chunks h B y.
Proof.
  intros Hy.
  assert (Hcat : concat (chunks h B y) = y)
    by (apply concat_chunks; apply Hy).
  assert (Hy4 : Shape4 B h L s (chunks h B y)).
  { split; [apply chunks_length|].
    destruct Hy as [Hlen Hall].
    pose proof (chunks_each h B y Hlen) as Hch.
    apply Forall_forall. intros g Hg. split.
    - rewrite Forall_forall in Hch. apply Hch, Hg.
    - apply Forall_forall. intros m Hm. rewrite Forall_forall in Hall.
      apply Hall. rewrite <- Hcat. apply in_concat. exists g. split; assumption. }
  rewrite <- (view4_flatten4 Hy4). f_equal.
  rewrite <- flatten3_concat, Hcat. reflexivity.
Qed.

(** Merging the last two axes. *)
Lemma merge_last_axes (B L h s : nat) (z4 : list (list (list (list A)))) :
  Shape4 B L h s z4 ->
  view3 B L (h * s) (flatten4 z4) = map (map (@concat A)) z4.
Proof.
  intros Hz.
  assert (Hz3 : Shape3 B L (h * s) (map (map (@concat A)) z4)).
  { destruct Hz as [Hlen Hall]. split; [rewrite length_map; exact Hlen|].
    apply Forall_map. eapply Forall_impl; [|exact Hall].
    intros m [Hm Hrows]. split; [rewrite length_map; exact Hm|].
    apply Forall_map. eapply Forall_impl; [|exact Hrows].
    intros g [Hg Hgs]. rewrite (@length_concat_uniform _ s _ Hgs), Hg.
    reflexivity. }
  rewrite <- (view3_flatten3 Hz3). f_equal.
  unfold flatten4, flatten3, flatten2. rewrite !map_map.
  f_equal; try (apply map_ext; intros m; rewrite map_map; reflexivity).
Qed.

End LayoutFacts.

Section ReshapeClosed.
Context {A : Type}.
Variable self : MultiHeadAttention.t.
Variable h : nat.
Hypothesis head_num_pos : 0 < h.
Hypothesis head_num_eq : MultiHeadAttention.head_num self = Z.of_nat h.

Lemma reshape_to_batches_closed B L s (x : list (list (list A))) :
  0 < B -> (L = 0 -> s = 0) -> Shape3 B L (h * s) x ->
  MultiHeadAttention._reshape_to_batches self x
  = ok (concat (map (fun m => transpose h (map (chunks s h) m)) x)).
Proof.
  intros HB HL Hx.
  rewrite (@_reshape_to_batches_value A self h head_num_pos head_num_eq
             B L s x HB HL Hx).
  f_equal. rewrite (@split_last_axis A B L h s x Hx).
  assert (H4 : Shape4 B h L s
                 (permute_0213 h (map (map (chunks s h)) x))).
  { apply permute_0213_shape. rewrite <- (@split_last_axis A B L h s x Hx).
    apply view4_shape. rewrite (flatten3_length Hx). lia. }
  rewrite (@merge_first_axes A B h L s _ H4). unfold permute_0213. rewrite map_map.
  reflexivity.
Qed.

Lemma reshape_from_batches_closed B L s (y : list (list (list A))) :
  0 < B -> (L = 0 -> s = 0) -> Shape3 (B * h) L s y ->
  MultiHeadAttention._reshape_from_batches self y
  = ok (map (fun g => map (@concat A) (transpose L g)) (chunks h B y)).
Proof.
  intros HB HL Hy.
  rewrite (@_reshape_from_batches_value A self h head_num_pos head_num_eq
             B L s y HB HL Hy).
  f_equal. rewrite (@split_first_axis A B h L s y Hy).
  assert (H4 : Shape4 B L h s (permute_0213 L (chunks h B y))).
  { apply permute_0213_shape. rewrite <- (@split_first_axis A B h L s y Hy).
    apply view4_shape. rewrite (flatten3_length Hy). lia. }
  rewrite (Nat.mul_comm s h), (@merge_last_axes A B L h s _ H4).
  unfold permute_0213. rewrite map_map. reflexivity.
Qed.

End ReshapeClosed.

Section ReshapeLayout.
Context {A : Type}.
Variable self : MultiHeadAttention.t.
Variable h : nat.
Hypothesis head_num_pos : 0 < h.
Hypothesis head_num_eq : MultiHeadAttention.head_num self = Z.of_nat h.

Lemma split_heads_shape L s (m : list (list A)) :
  Shape2 L (h * s) m -> Shape3 h L s (transpose h (map (chunks s h) m)).
Proof.
  intros [Hm Hrows]. apply transpose_shape3.
  split; [rewrite length_map; exact Hm|].
  apply Forall_map. eapply Forall_impl; [|exact Hrows].
  intros r Hr. apply chunks_shape. exact Hr.
Qed.

Lemma split_heads_entry L s (m : list (list A)) hh l :
  Shape2 L (h * s) m -> hh < h -> l < L ->
  nth l (nth hh (transpose h (map (chunks s h) m)) []) []
  = nth hh (chunks s h (nth l m [])) [].
Proof.
  intros [Hm Hrows] Hhh Hl.
  rewrite (@transpose_nth_col _ h (map (chunks s h) m) hh []).
  - rewrite map_map. rewrite (nth_map_lt _ m []) by lia. reflexivity.
  - apply Forall_map, Forall_forall. intros r _. apply chunks_length.
  - exact Hhh.
Qed.

Lemma reshape_to_batches_entries B L s (x : list (list (list A))) :
  0 < B -> 0 < L -> Shape3 B L (h * s) x ->
  exists y,
    MultiHeadAttention._reshape_to_batches self x = ok y
    /\ Shape3 (B * h) L s y
    /\ forall b hh l, b < B -> hh < h -> l < L ->
         nth l (nth (b * h + hh) y []) []
         = nth hh (chunks s h (nth l (nth b x []) [])) [].
Proof.
  intros HB HL Hx. eexists. split.
  - apply (@reshape_to_batches_closed A self h head_num_pos head_num_eq
             B L s x HB); [lia | exact Hx].
  - assert (H4 : Shape4 B h L s
                   (map (fun m => transpose h (map (chunks s h) m)) x)).
    { destruct Hx as [Hlen Hall]. split; [rewrite length_map; exact Hlen|].
      apply Forall_map. eapply Forall_impl; [|exact Hall].
      intros m Hm. apply split_heads_shape. exact Hm. }
    split; [apply concat_shape3; exact H4|].
    intros b hh l Hb Hhh Hl.
    rewrite (@nth_concat_uniform _ h b hh _ []).
    + rewrite (nth_map_lt _ x []) by (destruct Hx; lia).
      apply (@split_heads_entry L s (nth b x []) hh l (nth_Shape2 Hx Hb) Hhh Hl).
    + destruct H4 as [_ H4]. eapply Forall_impl; [|exact H4].
      intros g [Hg _]. exact Hg.
    + rewrite length_map. destruct Hx; lia.
    + exact Hhh.
Qed.

Lemma merge_heads_shape L s (g : list (list (list A))) :
  Shape3 h L s g -> Shape2 L (h * s) (map (@concat A) (transpose L g)).
Proof.
  intros Hg. pose proof (transpose_shape3 Hg) as [Ht Hall].
  split; [rewrite length_map; exact Ht|].
  apply Forall_map. eapply Forall_impl; [|exact Hall].
  intros r [Hr Hrs]. rewrite (@length_concat_uniform _ s _ Hrs), Hr.
  reflexivity.
Qed.

Lemma merge_heads_entry L s (g : list (list (list A))) l :
  Shape3 h L s g -> l < L ->
  nth l (map (@concat A) (transpose L g)) []
  = concat (map (fun m => nth l m []) g).
Proof.
  intros Hg Hl. pose proof (transpose_shape3 Hg) as [Ht _].
  rewrite (nth_map_lt _ (transpose L g) []) by lia.
  rewrite (@transpose_nth_col _ L g l []); [reflexivity | | exact Hl].
  apply (Shape3_rows Hg).
Qed.

Lemma chunks_group_shape B L s (y : list (list (list A))) :
  Shape3 (B * h) L s y -> Shape4 B h L s (chunks h B y).
Proof.
  intros Hy. rewrite <- (@split_first_axis A B h L s y Hy).
  apply view4_shape. rewrite (flatten3_length Hy). lia.
Qed.

Lemma reshape_from_batches_entries B L s (y : list (list (list A))) :
  0 < B -> 0 < L -> Shape3 (B * h) L s y ->
  exists x,
    MultiHeadAttention._reshape_from_batches self y = ok x
    /\ Shape3 B L (h * s) x
    /\ forall b l, b < B -> l < L ->
         nth l (nth b x []) []
         = concat (map (fun hh => nth l (nth (b * h + hh) y []) [])
                       (seq 0 h)).
Proof.
  intros HB HL Hy. eexists. split.
  - apply (@reshape_from_batches_closed A self h head_num_pos head_num_eq
             B L s y HB); [lia | exact Hy].
  - pose proof (@chunks_group_shape B L s y Hy) as [Hlen Hall].
    split.
    + split; [rewrite length_map; exact Hlen|].
      apply Forall_map. eapply Forall_impl; [|exact Hall].
      intros g Hg. apply merge_heads_shape. exact Hg.
    + intros b l Hb Hl.
      rewrite (nth_map_lt _ (chunks h B y) []) by lia.
      assert (Hg : Shape3 h L s (nth b (chunks h B y) [])).
      { rewrite Forall_forall in Hall. apply Hall, nth_In. lia. }
      rewrite (merge_heads_entry Hg Hl). f_equal.
      apply (nth_ext _ _ [] []).
      * rewrite !length_map, length_seq. apply Hg.
      * intros hh Hhh. rewrite length_map in Hhh.
        destruct Hg as [Hgl _]. rewrite Hgl in Hhh.
        rewrite (nth_map_lt _ _ []) by lia.
        rewrite (nth_map_lt _ (seq 0 h) 0) by (rewrite length_seq; exact Hhh).
        rewrite seq_nth by exact Hhh. cbn [Nat.add].
        rewrite (@nth_chunks_entry _ h B b hh y [] Hb Hhh). reflexivity.
Qed.

Lemma merge_then_split B L s (y : list (list (list A))) :
  0 < B -> (L = 0 -> s = 0) -> Shape3 (B * h) L s y ->
  (x <- MultiHeadAttention._reshape_from_batches self y ;;
   MultiHeadAttention._reshape_to_batches self x) = ok y.
Proof.
  intros HB HL Hy.
  rewrite (@reshape_from_batches_closed A self h head_num_pos head_num_eq
             B L s y HB HL Hy), bind_ok.
  pose proof (@chunks_group_shape B L s y Hy) as H4.
  assert (Hx : Shape3 B L (h * s)
                 (map (fun g => map (@concat A) (transpose L g))
                      (chunks h B y))).
  { destruct H4 as [Hlen Hall]. split; [rewrite length_map; exact Hlen|].
    apply Forall_map. eapply Forall_impl; [|exact Hall].
    intros g Hg. apply merge_heads_shape. exact Hg. }
  rewrite (@reshape_to_batches_closed A self h head_num_pos head_num_eq
             B L s _ HB HL Hx).
  f_equal. rewrite map_map.
  rewrite <- (concat_chunks h B y) at 2 by apply Hy.
  f_equal. rewrite <- (map_id (chunks h B y)) at 2.
  apply map_ext_in. intros g Hg.
  destruct H4 as [_ Hall]. rewrite Forall_forall in Hall.
  specialize (Hall g Hg).
  pose proof (transpose_shape3 Hall) as [Ht Htall].
  rewrite map_map.
  replace (map (fun r => chunks s h (concat r)) (transpose L g))
    with (transpose L g).
  - destruct Hall as [Hgl Hgrows].
    rewrite <- Hgl. apply transpose_involutive.
    eapply Forall_impl; [|exact Hgrows]. intros m [Hm _]. exact Hm.
  - rewrite <- (map_id (transpose L g)) at 1.
    apply map_ext_in. intros r Hr. rewrite Forall_forall in Htall.
    destruct (Htall r Hr) as [Hrl Hrs].
    rewrite <- Hrl. symmetry. apply chunks_concat. exact Hrs.
Qed.

Lemma merge_then_split_empty :
  (x <- MultiHeadAttention._reshape_from_batches self (@nil (list (list A))) ;;
   MultiHeadAttention._reshape_to_batches self x) = ok [].
Proof.
  destruct h; [lia|].
  unfold MultiHeadAttention._reshape_from_batches,
    MultiHeadAttention._reshape_to_batches.
  simpl. rewrite head_num_eq. reflexivity.
Qed.

End ReshapeLayout.

Lemma head_count_nat (self : MultiHeadAttention.t) :
  (0 < MultiHeadAttention.head_num self)%Z ->
  0 < Z.to_nat (MultiHeadAttention.head_num self)
  /\ MultiHeadAttention.head_num self
     = Z.of_nat (Z.to_nat (MultiHeadAttention.head_num self)).
Proof. intros H. split; lia. Qed.

(** X10.  [_reshape_to_batches] with [h] heads turns a tensor of shape
    [[B, L, h * s]] into one of shape [[B * h, L, s]] in which slice
    [b * h + hh] is head [hh] of example [b]: its entry [[l, c]] is entry
    [[b, l, hh * s + c]] of the input. *)
Theorem reshape_to_batches_layout (A : Type) (self : MultiHeadAttention.t)
        (B L s : nat) (x : list (list (list A))) (d : A) :
  (0 < MultiHeadAttention.head_num self)%Z ->
  0 < B -> 0 < L ->
  Shape3 B L (Z.to_nat (MultiHeadAttention.head_num self) * s) x ->
  exists y,
    MultiHeadAttention._reshape_to_batches self x = ok y
    /\ Shape3 (B * Z.to_nat (MultiHeadAttention.head_num self)) L s y
    /\ forall b hh l c,
         b < B -> hh < Z.to_nat (MultiHeadAttention.head_num self) ->
         l < L -> c < s ->
         nth c (nth l (nth (b * Z.to_nat (MultiHeadAttention.head_num self)
                            + hh) y []) []) d
         = nth (hh * s + c) (nth l (nth b x []) []) d.
Proof.
  intros Hpos HB HL Hx. destruct (head_count_nat self Hpos) as [Hh Heq].
  destruct (@reshape_to_batches_entries A self _ Hh Heq B L s x HB HL Hx)
    as (y & Hy & Hs & He).
  exists y. split; [exact Hy|]. split; [exact Hs|].
  intros b hh l c Hb Hhh Hl Hc. rewrite He by assumption.
  apply nth_chunks_entry; assumption.
Qed.

(** Witness: two heads over four features. *)
Lemma reshape_to_batches_layout_witness :
  exists y,
    MultiHeadAttention._reshape_to_batches (mha_identity 4 2)
      [[[1; 2; 3; 4]; [5; 6; 7; 8]]]%Z = ok y
    /\ nth 0 (nth 1 (nth 1 y []) []) 0%Z = 7%Z.
Proof.
  destruct (@reshape_to_batches_layout Z (mha_identity 4 2) 1 2 2
              [[[1; 2; 3; 4]; [5; 6; 7; 8]]]%Z 0%Z)
    as (y & Hy & _ & He); try (simpl; lia).
  - split; [reflexivity|]. repeat constructor.
  - exists y. split; [exact Hy|].
    apply (He 0 1 1 0); simpl; lia.
Defined.

(** X11.  [_reshape_from_batches] with [h] heads turns a tensor of shape
    [[B * h, L, s]] into one of shape [[B, L, h * s]] by laying the heads of
    an example side by side along the last axis: entry
    [[b, l, hh * s + c]] of the result is entry [[l, c]] of slice
    [b * h + hh]. *)
Theorem reshape_from_batches_layout (A : Type) (self : MultiHeadAttention.t)
        (B L s : nat) (y : list (list (list A))) (d : A) :
  (0 < MultiHeadAttention.head_num self)%Z ->
  0 < B -> 0 < L ->
  Shape3 (B * Z.to_nat (MultiHeadAttention.head_num self)) L s y ->
  exists x,
    MultiHeadAttention._reshape_from_batches self y = ok x
    /\ Shape3 B L (Z.to_nat (MultiHeadAttention.head_num self) * s) x
    /\ forall b hh l c,
         b < B -> hh < Z.to_nat (MultiHeadAttention.head_num self) ->
         l < L -> c < s ->
         nth (hh * s + c) (nth l (nth b x []) []) d
         = nth c (nth l (nth (b * Z.to_nat (MultiHeadAttention.head_num self)
                              + hh) y []) []) d.
Proof.
  intros Hpos HB HL Hy. destruct (head_count_nat self Hpos) as [Hh Heq].
  set (h := Z.to_nat (MultiHeadAttention.head_num self)) in *.
  destruct (@reshape_from_batches_entries A self h Hh Heq B L s y HB HL Hy)
    as (x & Hx & Hs & He).
  exists x. split; [exact Hx|]. split; [exact Hs|].
  intros b hh l c Hb Hhh Hl Hc. rewrite He by assumption.
  rewrite (@nth_concat_uniform _ s hh c _ d).
  - rewrite (nth_map_lt _ (seq 0 h) 0) by (rewrite length_seq; exact Hhh).
    rewrite seq_nth by exact Hhh. reflexivity.
  - apply Forall_map, Forall_forall. intros k Hk. apply in_seq in Hk.
    apply (nth_row_length (L := L)); [|exact Hl].
    apply (nth_Shape2 Hy). nia.
  - rewrite length_map, length_seq. exact Hhh.
  - exact Hc.
Qed.

(** Witness: two head slices of two positions and one feature each. *)
Lemma reshape_from_batches_layout_witness :
  exists x,
    MultiHeadAttention._reshape_from_batches (mha_identity 2 2)
      [[[1]; [2]]; [[3]; [4]]]%Z = ok x
    /\ nth 1 (nth 1 (nth 0 x []) []) 0%Z = 4%Z.
Proof.
  destruct (@reshape_from_batches_layout Z (mha_identity 2 2) 1 2 1
              [[[1]; [2]]; [[3]; [4]]]%Z 0%Z)
    as (x & Hx & _ & He); try (simpl; lia).
  - split; [reflexivity|]. repeat constructor.
  - exists x. split; [exact Hx|].
    apply (He 0 1 1 0); simpl; lia.
Defined.

(** X12.  The two reshapes are inverse to each other in the other order as
    well: for a tensor of shape [[N, L, s]] whose first size is a multiple
    of the positive head count, [_reshape_to_batches] applied to the result
    of [_reshape_from_batches] returns the tensor itself, and neither
    reshape raises. *)
Theorem reshape_round_trip_converse (A : Type) (self : MultiHeadAttention.t)
        (N L s : nat) (y : list (list (list A))) :
  (0 < MultiHeadAttention.head_num self)%Z ->
  (Z.of_nat N mod MultiHeadAttention.head_num self = 0)%Z ->
  Shape3 N L s y ->
  (x <- MultiHeadAttention._reshape_from_batches self y ;;
   MultiHeadAttention._reshape_to_batches self x) = ok y.
Proof.
  intros Hpos Hdiv Hy. destruct (head_count_nat self Hpos) as [Hh Heq].
  set (h := Z.to_nat (MultiHeadAttention.head_num self)) in *.
  rewrite Heq in Hdiv. rewrite <- Nat2Z.inj_mod in Hdiv.
  assert (HN : N = N / h * h).
  { rewrite Nat.mul_comm. apply Nat.Div0.div_exact. lia. }
  destruct (Nat.eq_dec N 0) as [HN0 | HN0].
  - subst N. destruct Hy as [Hlen _]. destruct y; [|discriminate].
    apply (@merge_then_split_empty A self h Hh Heq).
  - assert (HB : 0 < N / h) by (destruct (N / h); lia).
    rewrite HN in Hy.
    destruct (Nat.eq_dec L 0) as [-> | HL].
    + apply (@merge_then_split A self h Hh Heq (N / h) 0 0); auto.
      apply (Shape3_no_rows 0 Hy).
    + apply (@merge_then_split A self h Hh Heq (N / h) L s); auto. lia.
Qed.

(** Witness: four slices folded back into two examples of two heads. *)
Lemma reshape_round_trip_converse_witness :
  (x <- MultiHeadAttention._reshape_from_batches (mha_identity 2 2)
          [[[1]; [2]]; [[3]; [4]]; [[5]; [6]]; [[7]; [8]]]%Z ;;
   MultiHeadAttention._reshape_to_batches (mha_identity 2 2) x)
  = ok [[[1]; [2]]; [[3]; [4]]; [[5]; [6]]; [[7]; [8]]]%Z.
Proof.
  apply (@reshape_round_trip_converse Z (mha_identity 2 2) 4 2 1).
  - simpl. lia.
  - reflexivity.
  - split; [reflexivity|]. repeat constructor.
Defined.

(** ** The layout of the returned alignments *)

Lemma fit_length (n : nat) (r : list R) : length (fit n r) = n.
Proof.
  unfold fit. rewrite length_firstn, length_app, repeat_length. lia.
Qed.

Lemma mha_fitted_well_formed (in_features head_num : Z) :
  (0 < head_num)%Z -> (0 < in_features)%Z ->
  (in_features mod head_num = 0)%Z ->
  AttentionWellFormed (mha_fitted in_features head_num).
Proof.
  intros Hh Hf Hdiv. repeat split; try assumption; apply fit_length.
Qed.

Section TransposeEntries.
Context {X : Type}.

Lemma transpose_get (n : nat) (m : list (list X)) (i j : nat) (d : X) :
  Forall (fun r => length r = n) m -> i < n -> j < length m ->
  nth j (nth i (transpose n m) []) d = nth i (nth j m []) d.
Proof.
  intros Hall Hi Hj. rewrite (transpose_nth_col d Hall Hi).
  rewrite (nth_map_lt _ m []) by exact Hj. reflexivity.
Qed.

Lemma transpose_forall (P : X -> Prop) (n : nat) (m : list (list X)) :
  Forall (fun r => length r = n /\ Forall P r) m ->
  length (transpose n m) = n
  /\ Forall (fun c => length c = length m /\ Forall P c) (transpose n m).
Proof.
  intros Hall.
  assert (Hlen : Forall (fun r => length r = n) m)
    by (eapply Forall_impl; [|exact Hall]; intros r [H _]; exact H).
  assert (HP : Forall (Forall P) m)
    by (eapply Forall_impl; [|exact Hall]; intros r [_ H]; exact H).
  destruct (transpose_shape Hlen) as [Ht Hcols].
  pose proof (transpose_all n HP) as Hvec.
  split; [exact Ht|].
  rewrite Forall_forall in *. intros c Hc. split; auto.
Qed.

End TransposeEntries.

Lemma transpose_shape2 {X : Type} (r n : nat) (m : list (list X)) :
  Shape2 r n m -> Shape2 n r (transpose n m).
Proof.
  intros [Hm Hrows]. destruct (transpose_shape Hrows) as [Ht Hc].
  rewrite Hm in Hc. split; assumption.
Qed.

Lemma transpose_shape4 {X : Type} (d0 d1 d2 d3 : nat)
      (t : list (list (list (list X)))) :
  Shape4 d0 d1 d2 d3 t -> Shape4 d1 d0 d2 d3 (transpose d1 t).
Proof.
  intros [Ht Hall].
  destruct (@transpose_forall _ (Shape2 d2 d3) d1 t) as [Hlen Hcols].
  - eapply Forall_impl; [|exact Hall]. intros c Hc. exact Hc.
  - split; [exact Hlen|]. rewrite Ht in Hcols. exact Hcols.
Qed.

Section AlignmentLayout.
Context {A : Type}.
Variable self : MultiHeadAttention.t.
Variable h : nat.
Hypothesis head_num_pos : 0 < h.
Hypothesis head_num_eq : MultiHeadAttention.head_num self = Z.of_nat h.

Lemma reshape_alignments_entries B L1 L2 (al : list (list (list A))) (d : A) :
  0 < B -> 0 < L1 -> 0 < L2 -> Shape3 (B * h) L1 L2 al ->
  exists res,
    MultiHeadAttention._reshape_alignments self al = ok res
    /\ Shape4 B h L1 L2 res
    /\ forall b hh, b < B -> hh < h ->
         nth hh (nth b res []) [] = nth (b * h + hh) al [].
Proof.
  intros HB HL1 HL2 Hal. unfold MultiHeadAttention._reshape_alignments.
  rewrite (size3_of_shape Hal) by lia.
  replace (L1 =? 0) with false by (symmetry; apply Nat.eqb_neq; lia).
  rewrite head_num_eq, (floordiv_of_nat _ head_num_pos), Nat.div_mul by lia.
  rewrite bind_ok.
  set (t1 := transpose L1 al).
  assert (Ht1 : Shape3 L1 (B * h) L2 t1) by (apply transpose_shape3, Hal).
  set (a := map (transpose L2) t1).
  assert (Ha : Shape3 L1 L2 (B * h) a).
  { destruct Ht1 as [Hlen Hall]. split; [unfold a; rewrite length_map; exact Hlen|].
    apply Forall_map. eapply Forall_impl; [|exact Hall].
    intros m Hm. apply transpose_shape2, Hm. }
  rewrite reshape4_of_nat by (rewrite (flatten3_length Ha); lia).
  rewrite bind_ok, !Nat2Z.id.
  rewrite (@split_last_axis A L1 L2 B h a Ha).
  set (a4 := map (map (chunks h B)) a).
  assert (Ha4 : Shape4 L1 L2 B h a4).
  { unfold a4. rewrite <- (@split_last_axis A L1 L2 B h a Ha).
    apply view4_shape. rewrite (flatten3_length Ha). lia. }
  set (t2 := map (transpose B) a4).
  assert (Ht2 : Shape4 L1 B L2 h t2).
  { destruct Ha4 as [Hlen Hall]. split; [unfold t2; rewrite length_map; exact Hlen|].
    apply Forall_map. eapply Forall_impl; [|exact Hall].
    intros m Hm. apply transpose_shape3, Hm. }
  set (t3 := transpose B t2).
  assert (Ht3 : Shape4 B L1 L2 h t3) by (apply transpose_shape4, Ht2).
  set (t4 := map (map (transpose h)) t3).
  assert (Ht4 : Shape4 B L1 h L2 t4).
  { destruct Ht3 as [Hlen Hall]. split; [unfold t4; rewrite length_map; exact Hlen|].
    apply Forall_map. eapply Forall_impl; [|exact Hall].
    intros m [Hm Hrows]. split; [rewrite length_map; exact Hm|].
    apply Forall_map. eapply Forall_impl; [|exact Hrows].
    intros r Hr. apply transpose_shape2, Hr. }
  assert (Hres : Shape4 B h L1 L2 (map (transpose h) t4)).
  { destruct Ht4 as [Hlen Hall]. split; [rewrite length_map; exact Hlen|].
    apply Forall_map. eapply Forall_impl; [|exact Hall].
    intros m Hm. apply transpose_shape3, Hm. }
  eexists. split; [reflexivity|]. split; [exact Hres|].
  intros b hh Hb Hhh.
  assert (Hk : b * h + hh < B * h) by nia.
  assert (Hlhs : Shape2 L1 L2 (nth hh (nth b (map (transpose h) t4) []) [])).
  { apply (@nth_Shape2 _ h L1 L2 _ hh); [|exact Hhh].
    destruct Hres as [Hlen Hall]. rewrite Forall_forall in Hall.
    apply Hall, nth_In. lia. }
  assert (Hrhs : Shape2 L1 L2 (nth (b * h + hh) al []))
    by (apply (nth_Shape2 Hal Hk)).
  apply (nth_ext _ _ [] []); [destruct Hlhs, Hrhs; lia|].
  intros i Hi. destruct Hlhs as [Hll Hlrows]. rewrite Hll in Hi.
  assert (Hrow1 : length (nth i (nth hh (nth b (map (transpose h) t4) []) [])
                            []) = L2).
  { rewrite Forall_forall in Hlrows. apply Hlrows, nth_In. lia. }
  assert (Hrow2 : length (nth i (nth (b * h + hh) al []) []) = L2)
    by (apply (nth_row_length Hrhs Hi)).
  apply (nth_ext _ _ d d); [lia|].
  intros j Hj. rewrite Hrow1 in Hj.
  (* the result, one axis exchange at a time *)
  rewrite (nth_map_lt _ t4 []) by (destruct Ht4; lia).
  assert (Ht4b : Shape3 L1 h L2 (nth b t4 [])).
  { destruct Ht4 as [Hlen Hall]. rewrite Forall_forall in Hall.
    apply Hall, nth_In. lia. }
  rewrite (@transpose_get _ h (nth b t4 []) hh i [])
    by (try apply (Shape3_rows Ht4b); destruct Ht4b; lia).
  unfold t4. rewrite (nth_map_lt _ t3 []) by (destruct Ht3; lia).
  assert (Ht3b : Shape3 L1 L2 h (nth b t3 [])).
  { destruct Ht3 as [Hlen Hall]. rewrite Forall_forall in Hall.
    apply Hall, nth_In. lia. }
  rewrite (nth_map_lt _ (nth b t3 []) []) by (destruct Ht3b; lia).
  pose proof (nth_Shape2 Ht3b Hi) as Ht3bi.
  rewrite (@transpose_get _ h (nth i (nth b t3 []) []) hh j d)
    by (try apply Ht3bi; destruct Ht3bi; lia).
  unfold t3.
  assert (Ht2rows : Forall (fun r => length r = B) t2).
  { destruct Ht2 as [_ Hall]. eapply Forall_impl; [|exact Hall].
    intros m [Hm _]. exact Hm. }
  rewrite (@transpose_get _ B t2 b i [] Ht2rows Hb)
    by (destruct Ht2; lia).
  unfold t2. rewrite (nth_map_lt _ a4 []) by (destruct Ha4; lia).
  assert (Ha4i : Shape3 L2 B h (nth i a4 [])).
  { destruct Ha4 as [Hlen Hall]. rewrite Forall_forall in Hall.
    apply Hall, nth_In. lia. }
  rewrite (@transpose_get _ B (nth i a4 []) b j [])
    by (try apply (Shape3_rows Ha4i); destruct Ha4i; lia).
  unfold a4. rewrite (nth_map_lt _ a []) by (destruct Ha; lia).
  assert (Hai : Shape2 L2 (B * h) (nth i a [])) by (apply (nth_Shape2 Ha Hi)).
  rewrite (nth_map_lt _ (nth i a []) []) by (destruct Hai; lia).
  rewrite (@nth_chunks_entry _ h B b hh _ d Hb Hhh).
  unfold a. rewrite (nth_map_lt _ t1 []) by (destruct Ht1; lia).
  assert (Ht1i : Shape2 (B * h) L2 (nth i t1 []))
    by (apply (nth_Shape2 Ht1 Hi)).
  rewrite (@transpose_get _ L2 (nth i t1 []) j (b * h + hh) d)
    by (try apply Ht1i; destruct Ht1i; lia).
  unfold t1.
  rewrite (@transpose_get _ L1 al i (b * h + hh) [])
    by (try apply (Shape3_rows Hal); destruct Hal; lia).
  reflexivity.
Qed.

End AlignmentLayout.

(** X13.  [_reshape_alignments] with [h] heads turns the attention weights
    of shape [[B * h, L1, L2]] into a tensor of shape [[B, h, L1, L2]] whose
    matrix [[b, hh]] is slice [b * h + hh] of the input: the returned
    alignments are indexed by example and head in the order in which
    [_reshape_to_batches] folded the heads. *)
Theorem reshape_alignments_layout (self : MultiHeadAttention.t)
        (B L1 L2 : nat) (al : list (list (list R))) :
  (0 < MultiHeadAttention.head_num self)%Z ->
  0 < B -> 0 < L1 -> 0 < L2 ->
  Shape3 (B * Z.to_nat (MultiHeadAttention.head_num self)) L1 L2 al ->
  exists res,
    MultiHeadAttention._reshape_alignments self al = ok res
    /\ Shape4 B (Z.to_nat (MultiHeadAttention.head_num self)) L1 L2 res
    /\ forall b hh,
         b < B -> hh < Z.to_nat (MultiHeadAttention.head_num self) ->
         nth hh (nth b res []) []
         = nth (b * Z.to_nat (MultiHeadAttention.head_num self) + hh) al [].
Proof.
  intros Hpos HB HL1 HL2 Hal. destruct (head_count_nat self Hpos) as [Hh Heq].
  apply (@reshape_alignments_entries R self _ Hh Heq B L1 L2 al 0%R);
    assumption.
Qed.

(** Witness: the weights of two heads of one example. *)
Lemma reshape_alignments_layout_witness :
  exists res,
    MultiHeadAttention._reshape_alignments (mha_identity 2 2)
      [[[1; 0]; [0; 1]]; [[0; 1]; [1; 0]]]%R = ok res
    /\ nth 1 (nth 0 res []) [] = [[0; 1]; [1; 0]]%R.
Proof.
  destruct (@reshape_alignments_layout (mha_identity 2 2) 1 2 2
              [[[1; 0]; [0; 1]]; [[0; 1]; [1; 0]]]%R)
    as (res & Hres & _ & He); try (simpl; lia).
  - split; [reflexivity|]. repeat constructor.
  - exists res. split; [exact Hres|].
    apply (He 0 1); simpl; lia.
Defined.

(** ** A run of multi-head attention *)

Lemma attention_sizes (a : MultiHeadAttention.t) :
  AttentionWellFormed a ->
  let h := Z.to_nat (MultiHeadAttention.head_num a) in
  let s := Z.to_nat (MultiHeadAttention.in_features a
                     / MultiHeadAttention.head_num a) in
  0 < h /\ 0 < s
  /\ MultiHeadAttention.head_num a = Z.of_nat h
  /\ Z.to_nat (MultiHeadAttention.in_features a) = h * s.
Proof.
  intros (HH & HF & Hdiv & _) h s.
  assert (Hexact : (MultiHeadAttention.in_features a
                    = MultiHeadAttention.head_num a
                      * (MultiHeadAttention.in_features a
                         / MultiHeadAttention.head_num a))%Z)
    by (apply Z.div_exact; lia).
  split; [unfold h; lia|]. split; [unfold s; nia|].
  split; [unfold h; lia|].
  unfold h, s. rewrite <- Z2Nat.inj_mul by nia. f_equal. exact Hexact.
Qed.

Lemma attention_forward_run (a : MultiHeadAttention.t) B L
      (xq xk xv : list (list (list R))) (mask : list (list (list Z))) :
  AttentionWellFormed a -> 0 < B -> 0 < L ->
  Shape2 B L xq -> Shape2 B L xk -> Shape2 B L xv -> Shape3 B L L mask ->
  let h := Z.to_nat (MultiHeadAttention.head_num a) in
  let s := Z.to_nat (MultiHeadAttention.in_features a
                     / MultiHeadAttention.head_num a) in
  exists qf kf vf y al,
    MultiHeadAttention._reshape_to_batches a
      (map (map (MultiHeadAttention.linear_q a)) xq) = ok qf
    /\ MultiHeadAttention._reshape_to_batches a
         (map (map (MultiHeadAttention.linear_k a)) xk) = ok kf
    /\ MultiHeadAttention._reshape_to_batches a
         (map (map (MultiHeadAttention.linear_v a)) xv) = ok vf
    /\ Shape3 (B * h) L s qf /\ Shape3 (B * h) L s kf
    /\ Shape3 (B * h) L s vf
    /\ MultiHeadAttention._reshape_from_batches a
         (fst (ScaledDotProductAttention.forward qf kf vf
                 (Some (concat (repeat mask h))))) = ok y
    /\ Shape3 B L (h * s) y
    /\ MultiHeadAttention._reshape_alignments a
         (snd (ScaledDotProductAttention.forward qf kf vf
                 (Some (concat (repeat mask h))))) = ok al
    /\ Shape4 B h L L al
    /\ MultiHeadAttention.forward a xq xk xv (Some mask)
       = ok (map (map (MultiHeadAttention.linear_o a)) y, al).
Proof.
  intros Hwf HB HL Hxq Hxk Hxv Hmask h s.
  destruct (attention_sizes Hwf) as (Hh & Hs & Heq & Hhs).
  fold h in Hh, Heq, Hhs. fold s in Hs, Hhs.
  destruct Hwf as (_ & _ & _ & Hlin).
  destruct (@reshape_to_batches_entries R a h Hh Heq B L s
              (map (map (MultiHeadAttention.linear_q a)) xq) HB HL)
    as (qf & Hq & Hsq & _).
  { apply projected_shape; [|exact Hxq]. intros r. rewrite <- Hhs. apply Hlin. }
  destruct (@reshape_to_batches_entries R a h Hh Heq B L s
              (map (map (MultiHeadAttention.linear_k a)) xk) HB HL)
    as (kf & Hk & Hsk & _).
  { apply projected_shape; [|exact Hxk]. intros r. rewrite <- Hhs. apply Hlin. }
  destruct (@reshape_to_batches_entries R a h Hh Heq B L s
              (map (map (MultiHeadAttention.linear_v a)) xv) HB HL)
    as (vf & Hv & Hsv & _).
  { apply projected_shape; [|exact Hxv]. intros r. rewrite <- Hhs. apply Hlin. }
  pose proof (concat_repeat_shape h Hmask) as Hm'.
  destruct (@attention_forward_shapes (B * h) L s qf kf vf
              (concat (repeat mask h))) as [Ho Hw]; try assumption; try lia.
  destruct (@reshape_from_batches_entries R a h Hh Heq B L s _ HB HL Ho)
    as (y & Hy & Hsy & _).
  destruct (@reshape_alignments_entries R a h Hh Heq B L L _ 0%R HB HL HL Hw)
    as (al & Hal & Hsal & _).
  exists qf, kf, vf, y, al.
  repeat (split; [assumption|]).
  unfold MultiHeadAttention.forward.
  rewrite Hq, bind_ok, Hk, bind_ok, Hv, bind_ok.
  unfold repeat0.
  replace (MultiHeadAttention.head_num a <? 0)%Z with false
    by (symmetry; apply Z.ltb_ge; lia).
  rewrite !bind_ok. fold h.
  destruct (ScaledDotProductAttention.forward qf kf vf
              (Some (concat (repeat mask h)))) as [o w].
  cbn [fst snd] in Hy, Hal. rewrite Hy, bind_ok, Hal, bind_ok. reflexivity.
Qed.

Lemma ok_inj {X : Type} (a b : X) : ok a = ok b -> a = b.
Proof. intros H. injection H as H. exact H. Qed.

(** X14.  On a layer whose head count divides its feature size, with
    queries, keys and values of shape [[B, L, in_features]] and a mask of
    shape [[B, L, L]], [MultiHeadAttention.forward] raises nothing and
    returns an output of [B] examples and [L] positions together with
    alignments of shape [[B, head_num, L, L]]; every row of every alignment
    matrix holds weights between 0 and 1 whose sum is at most 1. *)
Theorem multi_head_forward_shapes (a : MultiHeadAttention.t) (B L : nat)
        (xq xk xv : list (list (list R))) (mask : list (list (list Z))) :
  AttentionWellFormed a -> 0 < B -> 0 < L ->
  Shape3 B L (Z.to_nat (MultiHeadAttention.in_features a)) xq ->
  Shape3 B L (Z.to_nat (MultiHeadAttention.in_features a)) xk ->
  Shape3 B L (Z.to_nat (MultiHeadAttention.in_features a)) xv ->
  Shape3 B L L mask ->
  exists y al,
    MultiHeadAttention.forward a xq xk xv (Some mask) = ok (y, al)
    /\ Shape2 B L y
    /\ Shape4 B (Z.to_nat (MultiHeadAttention.head_num a)) L L al
    /\ forall b hh i,
         b < B -> hh < Z.to_nat (MultiHeadAttention.head_num a) -> i < L ->
         Forall (fun v => (0 <= v <= 1)%R)
                (nth i (nth hh (nth b al []) []) [])
         /\ (Rsum (nth i (nth hh (nth b al []) []) []) <= 1)%R.
Proof.
  intros Hwf HB HL Hxq3 Hxk3 Hxv3 Hmask.
  assert (Hxq : Shape2 B L xq)
    by (split; [apply Hxq3 | apply (Shape3_rows Hxq3)]).
  assert (Hxk : Shape2 B L xk)
    by (split; [apply Hxk3 | apply (Shape3_rows Hxk3)]).
  assert (Hxv : Shape2 B L xv)
    by (split; [apply Hxv3 | apply (Shape3_rows Hxv3)]).
  clear Hxq3 Hxk3 Hxv3.
  destruct (attention_sizes Hwf) as (Hh & Hs & Heq & Hhs).
  destruct (attention_forward_run Hwf HB HL Hxq Hxk Hxv Hmask)
    as (qf & kf & vf & y & al & Hq & Hk & Hv & Hsq & Hsk & Hsv & Hy & Hsy
        & Hal & Hsal & Hfwd).
  set (h := Z.to_nat (MultiHeadAttention.head_num a)) in *.
  set (s := Z.to_nat (MultiHeadAttention.in_features a
                      / MultiHeadAttention.head_num a)) in *.
  exists (map (map (MultiHeadAttention.linear_o a)) y), al.
  split; [exact Hfwd|]. split.
  { destruct Hsy as [Hlen Hall]. split; [rewrite length_map; exact Hlen|].
    apply Forall_map. eapply Forall_impl; [|exact Hall].
    intros m [Hm _]. rewrite length_map. exact Hm. }
  split; [exact Hsal|].
  intros b hh i Hb Hhh Hi.
  pose proof (concat_repeat_shape h Hmask) as Hm'.
  destruct (@attention_forward_shapes (B * h) L s qf kf vf
              (concat (repeat mask h))) as [_ Hw]; try assumption; try nia.
  destruct (@reshape_alignments_entries R a h Hh Heq B L L _ 0%R HB HL HL Hw)
    as (al' & Hal' & _ & He).
  rewrite Hal in Hal'. apply ok_inj in Hal'. subst al'.
  rewrite (He b hh Hb Hhh).
  assert (Hk' : b * h + hh < B * h) by nia.
  destruct (@attention_row_masked (B * h) L L s s qf kf vf
              (concat (repeat mask h)) (b * h + hh) i Hs HL Hsq Hsk Hsv Hm'
              Hk' Hi) as (Hrow & _).
  rewrite Hrow.
  assert (Hsc : length (map (fun kr =>
                   (dot (nth i (nth (b * h + hh) qf []) []) kr
                    / sqrt (INR s))%R) (nth (b * h + hh) kf [])) = L).
  { rewrite length_map. apply (nth_Shape2 Hsk Hk'). }
  assert (Hmr : length (nth i (nth (b * h + hh) (concat (repeat mask h)) [])
                          []) = L).
  { apply (nth_row_length (nth_Shape2 Hm' Hk') Hi). }
  split.
  - apply (@masked_weights_range _ _ L Hsc Hmr).
  - apply (@masked_weights_sum_le_1 _ _ L Hsc Hmr).
Qed.

(** Witness: two heads over two features, one example of one position. *)
Lemma multi_head_forward_shapes_witness :
  exists y al,
    MultiHeadAttention.forward (mha_fitted 2 2)
      [[[1; 2]]]%R [[[1; 2]]]%R [[[1; 2]]]%R (Some [[[1%Z]]]) = ok (y, al)
    /\ Shape2 1 1 y.
Proof.
  assert (Hx : Shape3 1 1 (Z.to_nat (MultiHeadAttention.in_features
                                      (mha_fitted 2 2))) [[[1; 2]]]%R)
    by (split; [reflexivity | repeat constructor]).
  assert (Hm : Shape3 1 1 1 [[[1%Z]]])
    by (split; [reflexivity | repeat constructor]).
  assert (Hwf : AttentionWellFormed (mha_fitted 2 2))
    by (apply mha_fitted_well_formed; [lia | lia | reflexivity]).
  destruct (@multi_head_forward_shapes (mha_fitted 2 2) 1 1
              [[[1; 2]]]%R [[[1; 2]]]%R [[[1; 2]]]%R [[[1%Z]]]
              Hwf ltac:(lia) ltac:(lia) Hx Hx Hx Hm)
    as (y & al & Hf & Hs & _).
  exists y, al. split; [exact Hf | exact Hs].
Defined.

(** ** Rows of row-wise operations *)

Lemma rows_map {X Y : Type} (f : list X -> list Y) B L
      (x : list (list (list X))) b l :
  Shape2 B L x -> b < B -> l < L ->
  nth l (nth b (map (map f) x) []) [] = f (nth l (nth b x []) []).
Proof.
  intros [Hlen Hall] Hb Hl.
  rewrite (nth_map_lt _ x []) by lia.
  rewrite (nth_map_lt _ (nth b x []) []); [reflexivity|].
  rewrite Forall_forall in Hall. rewrite (Hall (nth b x [])); [exact Hl|].
  apply nth_In. lia.
Qed.

Lemma rows_map2 {X Y W : Type} (f : list X -> list Y -> list W) B L
      (x : list (list (list X))) (y : list (list (list Y))) b l :
  Shape2 B L x -> Shape2 B L y -> b < B -> l < L ->
  nth l (nth b (map2 (map2 f) x y) []) []
  = f (nth l (nth b x []) []) (nth l (nth b y []) []).
Proof.
  intros [Hxl Hxall] [Hyl Hyall] Hb Hl.
  rewrite (map2_nth _ x y [] [] []) by lia.
  rewrite Forall_forall in Hxall, Hyall.
  rewrite (map2_nth _ _ _ [] [] []); [reflexivity| |].
  - rewrite (Hxall (nth b x [])); [exact Hl | apply nth_In; lia].
  - rewrite (Hyall (nth b y [])); [exact Hl | apply nth_In; lia].
Qed.

Lemma causal_mask_closed (L : nat) (vl : list Z) :
  CausalMask (mask_closed true L vl).
Proof.
  intros k i j Hij.
  destruct (Nat.lt_ge_cases k (length vl)) as [Hk | Hk].
  - destruct (Nat.lt_ge_cases j L) as [Hj | Hj].
    + rewrite mask_closed_get3 by lia.
      unfold mask_entry, lower.
      replace (j <=? i) with false by (symmetry; apply Nat.leb_gt; exact Hij).
      lia.
    + unfold get3. 
      destruct (mask_closed_shape true L vl) as [_ Hall].
      destruct (Nat.lt_ge_cases i L) as [Hi | Hi].
      * rewrite nth_overflow; [reflexivity|].
        rewrite (@nth_row_length _ L L (nth k (mask_closed true L vl) []) i);
          [exact Hj | | exact Hi].
        apply (nth_Shape2 (mask_closed_shape true L vl) Hk).
      * rewrite (nth_overflow (nth k (mask_closed true L vl) []));
          [destruct j; reflexivity|].
        destruct (nth_Shape2 (mask_closed_shape true L vl) Hk) as [H _].
        lia.
  - unfold get3. rewrite (nth_overflow (mask_closed true L vl));
      [destruct i, j; reflexivity|].
    destruct (mask_closed_shape true L vl) as [H _]. lia.
Qed.

Lemma causal_mask_tiled (mask : list (list (list Z))) (c : nat) :
  CausalMask mask -> CausalMask (concat (repeat mask c)).
Proof.
  intros Hc k i j Hij. unfold get3.
  destruct (Nat.lt_ge_cases k (c * length mask)) as [Hk | Hk].
  - rewrite concat_repeat_nth by exact Hk. apply Hc. exact Hij.
  - rewrite (nth_overflow (concat (repeat mask c)));
      [destruct i, j; reflexivity|].
    rewrite concat_repeat_length. exact Hk.
Qed.

(** ** Causality of one attention layer *)

Lemma attention_layer_causal (a : MultiHeadAttention.t) B L
      (x x' : list (list (list R))) (mask : list (list (list Z)))
      (p b : nat) y al y' al' :
  AttentionWellFormed a -> 0 < B -> 0 < L ->
  Shape2 B L x -> Shape2 B L x' -> Shape3 B L L mask -> CausalMask mask ->
  b < B ->
  (forall l, l <= p -> nth l (nth b x' []) [] = nth l (nth b x []) []) ->
  MultiHeadAttention.forward a x x x (Some mask) = ok (y, al) ->
  MultiHeadAttention.forward a x' x' x' (Some mask) = ok (y', al') ->
  forall l, l <= p -> l < L ->
    nth l (nth b y' []) [] = nth l (nth b y []) [].
Proof.
  intros Hwf HB HL Hx Hx' Hmask Hcausal Hb Hagree Hf Hf' l Hlp Hl.
  destruct (attention_sizes Hwf) as (Hh & Hs & Heq & Hhs).
  destruct (attention_forward_run Hwf HB HL Hx Hx Hx Hmask)
    as (qf & kf & vf & yy & al0 & Hq & Hk & Hv & Hsq & Hsk & Hsv & Hy & Hsy
        & _ & _ & Hrun).
  destruct (attention_forward_run Hwf HB HL Hx' Hx' Hx' Hmask)
    as (qf' & kf' & vf' & yy' & al0' & Hq' & Hk' & Hv' & Hsq' & Hsk' & Hsv'
        & Hy' & Hsy' & _ & _ & Hrun').
  set (h := Z.to_nat (MultiHeadAttention.head_num a)) in *.
  set (s := Z.to_nat (MultiHeadAttention.in_features a
                      / MultiHeadAttention.head_num a)) in *.
  rewrite Hrun in Hf. apply ok_inj in Hf. injection Hf as <- _.
  rewrite Hrun' in Hf'. apply ok_inj in Hf'. injection Hf' as <- _.
  assert (Hsy2 : Shape2 B L yy) by (split; [apply Hsy | apply (Shape3_rows Hsy)]).
  assert (Hsy2' : Shape2 B L yy')
    by (split; [apply Hsy' | apply (Shape3_rows Hsy')]).
  rewrite (rows_map _ Hsy2 Hb Hl), (rows_map _ Hsy2' Hb Hl). f_equal.
  (* the folded projections, row by row *)
  assert (Hlin : forall r, length (MultiHeadAttention.linear_q a r) = h * s
                           /\ length (MultiHeadAttention.linear_k a r) = h * s
                           /\ length (MultiHeadAttention.linear_v a r) = h * s).
  { intros r. destruct Hwf as (_ & _ & _ & Hlin). rewrite <- Hhs. apply Hlin. }
  assert (Hfold : forall (f : list R -> list R) (t : list (list (list R))) tf,
             (forall r, length (f r) = h * s) -> Shape2 B L t ->
             MultiHeadAttention._reshape_to_batches a (map (map f) t) = ok tf ->
             forall hh j, hh < h -> j < L ->
               nth j (nth (b * h + hh) tf []) []
               = nth hh (chunks s h (f (nth j (nth b t []) []))) []).
  { intros f t tf Hfl Ht Htf hh j Hhh Hj.
    destruct (@reshape_to_batches_entries R a h Hh Heq B L s (map (map f) t)
                HB HL (projected_shape _ Hfl Ht)) as (tf0 & Htf0 & _ & He).
    rewrite Htf in Htf0. apply ok_inj in Htf0. subst tf0.
    rewrite (He b hh j Hb Hhh Hj), (rows_map _ Ht Hb Hj). reflexivity. }
  pose proof (concat_repeat_shape h Hmask) as Hm'.
  pose proof (causal_mask_tiled h Hcausal) as Hc'.
  destruct (@reshape_from_batches_entries R a h Hh Heq B L s _ HB HL
              (proj1 (@attention_forward_shapes (B * h) L s qf kf vf
                        (concat (repeat mask h)) ltac:(nia) HL Hs Hsq Hsk Hsv
                        Hm')))
    as (y0 & Hy0 & _ & He).
  rewrite Hy in Hy0. apply ok_inj in Hy0. subst y0.
  destruct (@reshape_from_batches_entries R a h Hh Heq B L s _ HB HL
              (proj1 (@attention_forward_shapes (B * h) L s qf' kf' vf'
                        (concat (repeat mask h)) ltac:(nia) HL Hs Hsq' Hsk'
                        Hsv' Hm')))
    as (y0 & Hy0 & _ & He').
  rewrite Hy' in Hy0. apply ok_inj in Hy0. subst y0.
  rewrite (He b l Hb Hl), (He' b l Hb Hl). f_equal.
  apply map_ext_in. intros hh Hhh. apply in_seq in Hhh.
  assert (Hk2 : b * h + hh < B * h) by nia.
  destruct (@attention_row_congruence (B * h) L L s s qf kf vf qf' kf' vf'
              (concat (repeat mask h)) (b * h + hh) l Hs HL Hsq Hsk Hsv
              Hsq' Hsk' Hsv' Hm' Hk2 Hl) as [_ Ho].
  - rewrite (Hfold _ x' qf' (fun r => proj1 (Hlin r)) Hx' Hq' hh l) by lia.
    rewrite (Hfold _ x qf (fun r => proj1 (Hlin r)) Hx Hq hh l) by lia.
    rewrite (Hagree l Hlp). reflexivity.
  - intros j Hj Hmj.
    assert (Hjl : j <= l).
    { destruct (Nat.le_gt_cases j l) as [H | H]; [exact H|].
      exfalso. apply Hmj. apply (Hc' (b * h + hh) l j H). }
    split.
    + rewrite (Hfold _ x' kf' (fun r => proj1 (proj2 (Hlin r))) Hx' Hk' hh j)
        by lia.
      rewrite (Hfold _ x kf (fun r => proj1 (proj2 (Hlin r))) Hx Hk hh j)
        by lia.
      rewrite (Hagree j ltac:(lia)). reflexivity.
    + rewrite (Hfold _ x' vf' (fun r => proj2 (proj2 (Hlin r))) Hx' Hv' hh j)
        by lia.
      rewrite (Hfold _ x vf (fun r => proj2 (proj2 (Hlin r))) Hx Hv hh j)
        by lia.
      rewrite (Hagree j ltac:(lia)). reflexivity.
  - exact Ho.
Qed.

(** ** Causality of a decoder layer and of the stack *)

Lemma layer_forward_rows (layer : TransformerDecoderLayer.t) B L
      (x : list (list (list R))) (mask : list (list (list Z)))
      (log_p : option (list R)) y al :
  LayerWellFormed layer -> EvalMode layer -> 0 < B -> 0 < L ->
  Shape2 B L x -> Shape3 B L L mask ->
  (forall lp, log_p = Some lp -> length lp = B) ->
  TransformerDecoderLayer.forward layer x (Some mask) log_p = ok (y, al) ->
  exists yatt,
    MultiHeadAttention.forward
      (TransformerDecoderLayer.decoder_attention layer) x x x (Some mask)
    = ok (yatt, al)
    /\ Shape2 B L yatt /\ Shape2 B L y
    /\ forall b l, b < B -> l < L ->
         nth l (nth b y []) []
         = layer_row layer (option_map (fun lp => nth b lp 0%R) log_p)
                     (nth l (nth b x []) []) (nth l (nth b yatt []) []).
Proof.
  intros (Hatt & _ & _) Heval HB HL Hx Hmask Hlp Hfwd.
  destruct (attention_layer_ok Hatt HB HL Hx Hx Hx Hmask)
    as (yatt & al0 & Hrun & Hsatt).
  unfold TransformerDecoderLayer.forward in Hfwd.
  rewrite Hrun, bind_ok in Hfwd.
  rewrite (proj1 (Heval yatt)) in Hfwd.
  rewrite (proj2 (Heval _)) in Hfwd.
  apply ok_inj in Hfwd. injection Hfwd as <- <-.
  exists yatt. split; [exact Hrun|]. split; [exact Hsatt|].
  assert (Hadd : forall u w : list (list (list R)),
             Shape2 B L u -> Shape2 B L w ->
             Shape2 B L (TransformerDecoderLayer.add3 u w)).
  { intros u w Hu Hw. unfold TransformerDecoderLayer.add3.
    apply map2_outer_shape; [|exact Hu | exact Hw].
    intros r1 r2 H1 H2. rewrite map2_length. lia. }
  assert (Hrow : forall (f : list R -> list R) (u : list (list (list R))),
             Shape2 B L u -> Shape2 B L (map (map f) u)).
  { intros f u Hu. apply map_outer_shape; [|exact Hu].
    intros r Hr. rewrite length_map. exact Hr. }
  set (x1 := map (map (TransformerDecoderLayer.norm1 layer))
                 (TransformerDecoderLayer.add3 x yatt)).
  assert (Hx1 : Shape2 B L x1) by (apply Hrow, Hadd; assumption).
  set (ff_inps := match log_p with
                  | Some lp =>
                      TransformerDecoderLayer.cat_last x1
                        (map (fun v => repeat [v] (length (hd [] x))) lp)
                  | None => x1
                  end).
  assert (Hcond : forall lp, log_p = Some lp ->
             Shape2 B L (map (fun v : R => repeat [v] (length (hd [] x))) lp)).
  { intros lp E. split; [rewrite length_map; apply Hlp; exact E|].
    apply Forall_map, Forall_forall. intros v _.
    rewrite (hd_length_of_shape HB Hx). apply repeat_length. }
  assert (Hff : Shape2 B L ff_inps).
  { unfold ff_inps. destruct log_p as [lp|]; [|exact Hx1].
    unfold TransformerDecoderLayer.cat_last.
    apply map2_outer_shape; [|exact Hx1 | apply Hcond; reflexivity].
    intros r1 r2 H1 H2. rewrite map2_length. lia. }
  split; [apply Hrow, Hadd; [exact Hx1 | apply Hrow, Hff]|].
  intros b l Hb Hl.
  assert (Hx1row : nth l (nth b x1 []) []
                   = TransformerDecoderLayer.norm1 layer
                       (map2 Rplus (nth l (nth b x []) [])
                                   (nth l (nth b yatt []) []))).
  { unfold x1. rewrite (rows_map _ (Hadd _ _ Hx Hsatt) Hb Hl).
    unfold TransformerDecoderLayer.add3.
    rewrite (rows_map2 _ Hx Hsatt Hb Hl). reflexivity. }
  assert (Hffrow : nth l (nth b ff_inps []) []
                   = match option_map (fun lp => nth b lp 0%R) log_p with
                     | Some v => nth l (nth b x1 []) [] ++ [v]
                     | None => nth l (nth b x1 []) []
                     end).
  { unfold ff_inps. destruct log_p as [lp|]; [|reflexivity].
    cbn [option_map]. unfold TransformerDecoderLayer.cat_last.
    rewrite (rows_map2 _ Hx1 (Hcond lp eq_refl) Hb Hl). f_equal.
    rewrite (nth_map_lt _ lp 0%R) by (rewrite (Hlp lp eq_refl); exact Hb).
    rewrite (hd_length_of_shape HB Hx). apply nth_repeat_lt. exact Hl. }
  rewrite (rows_map _ (Hadd _ _ Hx1 (Hrow _ _ Hff)) Hb Hl).
  unfold TransformerDecoderLayer.add3.
  rewrite (rows_map2 _ Hx1 (Hrow _ _ Hff) Hb Hl).
  rewrite (rows_map _ Hff Hb Hl), Hffrow, Hx1row.
  unfold layer_row. destruct (option_map _ log_p); reflexivity.
Qed.

Lemma layer_forward_causal (layer : TransformerDecoderLayer.t) B L
      (x x' : list (list (list R))) (mask : list (list (list Z)))
      (log_p : option (list R)) (p b : nat) y al y' al' :
  LayerWellFormed layer -> EvalMode layer -> 0 < B -> 0 < L ->
  Shape2 B L x -> Shape2 B L x' -> Shape3 B L L mask -> CausalMask mask ->
  (forall lp, log_p = Some lp -> length lp = B) ->
  b < B ->
  (forall l, l <= p -> nth l (nth b x' []) [] = nth l (nth b x []) []) ->
  TransformerDecoderLayer.forward layer x (Some mask) log_p = ok (y, al) ->
  TransformerDecoderLayer.forward layer x' (Some mask) log_p = ok (y', al') ->
  Shape2 B L y /\ Shape2 B L y'
  /\ forall l, l <= p -> nth l (nth b y' []) [] = nth l (nth b y []) [].
Proof.
  intros Hwf Heval HB HL Hx Hx' Hmask Hcausal Hlp Hb Hagree Hf Hf'.
  destruct (layer_forward_rows Hwf Heval HB HL Hx Hmask Hlp Hf)
    as (yatt & Hatt & Hsatt & Hsy & Hrows).
  destruct (layer_forward_rows Hwf Heval HB HL Hx' Hmask Hlp Hf')
    as (yatt' & Hatt' & Hsatt' & Hsy' & Hrows').
  split; [exact Hsy|]. split; [exact Hsy'|].
  intros l Hlp'.
  destruct (Nat.lt_ge_cases l L) as [Hl | Hl].
  - rewrite (Hrows b l Hb Hl), (Hrows' b l Hb Hl).
    rewrite (Hagree l Hlp').
    rewrite (@attention_layer_causal _ B L x x' mask p b yatt al yatt' al'
               (proj1 Hwf) HB HL Hx Hx' Hmask Hcausal Hb Hagree Hatt Hatt'
               l Hlp' Hl).
    reflexivity.
  - rewrite (nth_overflow (nth b y' []))
      by (rewrite (nth_row_length Hsy' Hb); exact Hl).
    rewrite (nth_overflow (nth b y []))
      by (rewrite (nth_row_length Hsy Hb); exact Hl).
    reflexivity.
Qed.

Lemma decode_layers_causal (layers : list TransformerDecoderLayer.t) B L
      (mask : list (list (list Z))) (log_p : option (list R)) (p b : nat) :
  Forall LayerWellFormed layers -> Forall EvalMode layers ->
  0 < B -> 0 < L -> Shape3 B L L mask -> CausalMask mask ->
  (forall lp, log_p = Some lp -> length lp = B) ->
  b < B ->
  forall x x' acc acc' y als y' als',
    Shape2 B L x -> Shape2 B L x' ->
    (forall l, l <= p -> nth l (nth b x' []) [] = nth l (nth b x []) []) ->
    Transformer._decode_layers layers x (Some mask) log_p acc = ok (y, als) ->
    Transformer._decode_layers layers x' (Some mask) log_p acc'
    = ok (y', als') ->
    Shape2 B L y /\ Shape2 B L y'
    /\ forall l, l <= p -> nth l (nth b y' []) [] = nth l (nth b y []) [].
Proof.
  intros Hwf Heval HB HL Hmask Hcausal Hlp Hb.
  induction layers as [|layer layers IH];
    intros x x' acc acc' y als y' als' Hx Hx' Hagree Hd Hd'.
  - cbn [Transformer._decode_layers] in Hd, Hd'.
    apply ok_inj in Hd. apply ok_inj in Hd'.
    injection Hd as <- _. injection Hd' as <- _. auto.
  - inversion Hwf as [|? ? Hwf1 Hwfs]; subst.
    inversion Heval as [|? ? Hev1 Hevs]; subst.
    cbn [Transformer._decode_layers] in Hd, Hd'.
    destruct (TransformerDecoderLayer.forward layer x (Some mask) log_p)
      as [e | [y1 al1]] eqn:E1; [discriminate|].
    destruct (TransformerDecoderLayer.forward layer x' (Some mask) log_p)
      as [e | [y1' al1']] eqn:E1'; [discriminate|].
    rewrite bind_ok in Hd, Hd'. cbn [fst snd] in Hd, Hd'.
    destruct (layer_forward_causal Hwf1 Hev1 HB HL Hx Hx' Hmask Hcausal Hlp Hb
                Hagree E1 E1') as (Hs1 & Hs1' & Hagree1).
    apply (IH Hwfs Hevs y1 y1' _ _ y als y' als' Hs1 Hs1' Hagree1 Hd Hd').
Qed.

(** ** The forward pass *)

Lemma mapM_rows {X Y : Type} (f : X -> result Y) (l : list X) (bs : list Y) :
  mapM f l = ok bs ->
  length bs = length l
  /\ forall n d d', n < length l -> f (nth n l d) = ok (nth n bs d').
Proof.
  revert bs. induction l as [|a l IH]; intros bs H; cbn [mapM] in H.
  - apply ok_inj in H. subst bs. split; [reflexivity|]. simpl. intros; lia.
  - destruct (f a) as [e | v] eqn:Ea; [discriminate|]. rewrite bind_ok in H.
    destruct (mapM f l) as [e | vs] eqn:El; [discriminate|].
    rewrite bind_ok in H. apply ok_inj in H. subst bs.
    destruct (IH vs eq_refl) as [Hlen Hnth].
    split; [simpl; lia|].
    intros [|n] d d' Hn; simpl in *; [exact Ea|]. apply Hnth. lia.
Qed.

Lemma embedding_rows (weight : list (list R)) B L (ids : list (list Z)) emb :
  Shape2 B L ids ->
  Transformer.embedding_lookup weight ids = ok emb ->
  Shape2 B L emb
  /\ forall b l, b < B -> l < L ->
       (0 <= nth l (nth b ids []) 0 < Z.of_nat (length weight))%Z
       /\ nth l (nth b emb []) []
          = nth (Z.to_nat (nth l (nth b ids []) 0%Z)) weight [].
Proof.
  intros [Hlen Hall] Hemb. unfold Transformer.embedding_lookup in Hemb.
  destruct (mapM_rows _ _ Hemb) as [Hel Hrows].
  assert (Hrow : forall b, b < B ->
            length (nth b emb []) = L
            /\ forall l, l < L ->
                 (0 <= nth l (nth b ids []) 0 < Z.of_nat (length weight))%Z
                 /\ nth l (nth b emb []) []
                    = nth (Z.to_nat (nth l (nth b ids []) 0%Z)) weight []).
  { intros b Hb. specialize (Hrows b [] [] ltac:(lia)).
    destruct (mapM_rows _ _ Hrows) as [Hrl Hent].
    assert (Hidl : length (nth b ids []) = L).
    { rewrite Forall_forall in Hall. apply Hall, nth_In. lia. }
    split; [lia|]. intros l Hl.
    specialize (Hent l 0%Z [] ltac:(lia)). cbv beta in Hent.
    destruct ((0 <=? nth l (nth b ids []) 0)%Z
              && (nth l (nth b ids []) 0 <? Z.of_nat (length weight))%Z)
      eqn:E; [|discriminate].
    apply andb_prop in E. destruct E as [E1 E2].
    apply Z.leb_le in E1. apply Z.ltb_lt in E2.
    apply ok_inj in Hent. split; [lia | symmetry; exact Hent]. }
  split.
  - split; [lia|]. apply (@Forall_nth_intro _ _ _ []). intros b Hb.
    apply Hrow. lia.
  - intros b l Hb Hl. apply (proj2 (Hrow b Hb) l Hl).
Qed.

Lemma positional_rows (self : SinusoidalPositionalEmbedding.t) B L
      (x : list (list (list R))) y :
  0 < B -> Shape2 B L x ->
  SinusoidalPositionalEmbedding.forward self x = ok y ->
  (Z.of_nat L <= SinusoidalPositionalEmbedding.num_positions self)%Z
  /\ Shape2 B L y
  /\ forall b l, b < B -> l < L ->
       nth l (nth b y []) []
       = bcast2 Rplus (nth l (nth b x []) [])
                (nth l (SinusoidalPositionalEmbedding.encodings self L) []).
Proof.
  intros HB Hx Hy. unfold SinusoidalPositionalEmbedding.forward in Hy.
  rewrite (hd_length_of_shape HB Hx) in Hy.
  destruct (Z.of_nat L >? SinusoidalPositionalEmbedding.num_positions self)%Z
    eqn:E; [discriminate|].
  apply ok_inj in Hy. subst y.
  split.
  { rewrite Z.gtb_ltb in E. apply Z.ltb_ge in E. exact E. }
  set (enc := SinusoidalPositionalEmbedding.encodings self L).
  assert (Hout : bcast2 (bcast2 (bcast2 Rplus)) x [enc]
                 = map (fun m => bcast2 (bcast2 Rplus) m enc) x).
  { destruct x as [|m [|m' x]]; reflexivity. }
  rewrite Hout.
  assert (Hel : length enc = L) by apply encodings_length.
  destruct Hx as [Hlen Hall].
  split.
  - split; [rewrite length_map; exact Hlen|].
    apply Forall_map. eapply Forall_impl; [|exact Hall].
    intros m Hm. cbv beta in Hm. rewrite bcast2_length_same; [exact Hm|].
    rewrite Hm, Hel. reflexivity.
  - intros b l Hb Hl. rewrite (nth_map_lt _ x []) by lia.
    assert (Hm : length (nth b x []) = L).
    { rewrite Forall_forall in Hall. apply Hall, nth_In. lia. }
    rewrite bcast2_same_length by lia.
    rewrite (map2_nth _ _ _ [] [] []) by lia. reflexivity.
Qed.

Lemma mask_of_lengths dev (tsl : list Z) (L : nat) :
  tensor_max tsl = ok (Z.of_nat L) ->
  exists mask,
    create_self_attention_mask dev tsl true = ok mask
    /\ Shape3 (length tsl) L L mask /\ CausalMask mask.
Proof.
  intros Hmax. exists (mask_closed true L tsl). split.
  - rewrite (@create_self_attention_mask_closed dev tsl true _ Hmax) by lia.
    rewrite Nat2Z.id. reflexivity.
  - split; [apply mask_closed_shape | apply causal_mask_closed].
Qed.

Lemma forward_causal_rows (self : Transformer.t) (dev : device) (B L : nat)
      (ids ids' : list (list Z)) (tsl : list Z) (log_p : option (list R))
      (out out' : Transformer.output) (b p : nat) :
  Forall LayerWellFormed (Transformer.decoder_layers self) ->
  Forall EvalMode (Transformer.decoder_layers self) ->
  0 < L -> Shape2 B L ids -> Shape2 B L ids' ->
  length tsl = B -> tensor_max tsl = ok (Z.of_nat L) ->
  (forall lp, log_p = Some lp -> length lp = B) ->
  Transformer.forward self dev ids tsl log_p = ok out ->
  Transformer.forward self dev ids' tsl log_p = ok out' ->
  b < B ->
  (forall l, l <= p -> nth l (nth b ids' []) 0%Z = nth l (nth b ids []) 0%Z) ->
  forall l, l <= p ->
    nth l (nth b (Transformer.logits out') []) []
    = nth l (nth b (Transformer.logits out) []) [].
Proof.
  intros Hwf Heval HL Hids Hids' Htl Hmax Hlp Hf Hf' Hb Hagree l Hl.
  assert (HB : 0 < B) by lia.
  destruct (@mask_of_lengths dev tsl L Hmax) as (mask & Hmask & Hsm & Hcm).
  rewrite Htl in Hsm.
  unfold Transformer.forward, Transformer._encode_output_ids in Hf, Hf'.
  destruct (Transformer.embedding_lookup (Transformer.embedding self) ids)
    as [e | emb] eqn:Eemb; [discriminate|].
  destruct (Transformer.embedding_lookup (Transformer.embedding self) ids')
    as [e | emb'] eqn:Eemb'; [discriminate|].
  rewrite bind_ok in Hf, Hf'.
  destruct (SinusoidalPositionalEmbedding.forward
              (Transformer.positional_encoding self) emb)
    as [e | x] eqn:Ex; [discriminate|].
  destruct (SinusoidalPositionalEmbedding.forward
              (Transformer.positional_encoding self) emb')
    as [e | x'] eqn:Ex'; [discriminate|].
  rewrite bind_ok, Hmask, bind_ok in Hf, Hf'.
  unfold Transformer._decode in Hf, Hf'.
  destruct (Transformer._decode_layers (Transformer.decoder_layers self) x
              (Some mask) log_p []) as [e | [y als]] eqn:Ed; [discriminate|].
  destruct (Transformer._decode_layers (Transformer.decoder_layers self) x'
              (Some mask) log_p []) as [e | [y' als']] eqn:Ed'; [discriminate|].
  rewrite bind_ok in Hf, Hf'. cbn [fst snd] in Hf, Hf'.
  apply ok_inj in Hf. apply ok_inj in Hf'. subst out out'.
  cbn [Transformer.logits].
  destruct (@embedding_rows _ B L ids emb Hids Eemb) as (Hse & Hemb).
  destruct (@embedding_rows _ B L ids' emb' Hids' Eemb') as (Hse' & Hemb').
  destruct (@positional_rows _ B L emb x HB Hse Ex) as (_ & Hsx & Hxr).
  destruct (@positional_rows _ B L emb' x' HB Hse' Ex') as (_ & Hsx' & Hxr').
  assert (Hxagree : forall l0, l0 <= p ->
            nth l0 (nth b x' []) [] = nth l0 (nth b x []) []).
  { intros l0 Hl0. destruct (Nat.lt_ge_cases l0 L) as [Hl0L | Hl0L].
    - rewrite (Hxr b l0 Hb Hl0L), (Hxr' b l0 Hb Hl0L).
      rewrite (proj2 (Hemb b l0 Hb Hl0L)), (proj2 (Hemb' b l0 Hb Hl0L)).
      rewrite (Hagree l0 Hl0). reflexivity.
    - rewrite (nth_overflow (nth b x' []))
        by (rewrite (nth_row_length Hsx' Hb); exact Hl0L).
      rewrite (nth_overflow (nth b x []))
        by (rewrite (nth_row_length Hsx Hb); exact Hl0L).
      reflexivity. }
  destruct (@decode_layers_causal _ B L mask log_p p b Hwf Heval HB HL Hsm Hcm
              Hlp Hb x x' [] [] y als y' als' Hsx Hsx' Hxagree Ed Ed')
    as (Hsy & Hsy' & Hyagree).
  destruct (Nat.lt_ge_cases l L) as [HlL | HlL].
  - rewrite (rows_map _ Hsy' Hb HlL), (rows_map _ Hsy Hb HlL).
    rewrite (Hyagree l Hl). reflexivity.
  - assert (Hrow : forall (t : list (list (list R))),
               Shape2 B L t ->
               nth l (nth b (map (map (Transformer.classifier self)) t) [])
                   [] = []).
    { intros t Ht. apply nth_overflow.
      rewrite (nth_map_lt _ t []) by (destruct Ht; lia).
      rewrite length_map, (nth_row_length Ht Hb). exact HlL. }
    rewrite (Hrow y' Hsy'), (Hrow y Hsy). reflexivity.
Qed.

Lemma small_layer_well_formed : LayerWellFormed small_layer.
Proof.
  split; [apply mha_fitted_well_formed; [lia | lia | reflexivity]|].
  split; intros B L x Hx; exact Hx.
Qed.

Lemma small_layer_eval : EvalMode small_layer.
Proof. intros x. split; reflexivity. Qed.



Lemma layer_forward_shapes (layer : TransformerDecoderLayer.t) B L
      (x : list (list (list R))) (mask : list (list (list Z)))
      (log_p : option (list R)) :
  LayerWellFormed layer -> 0 < B -> 0 < L ->
  Shape2 B L x -> Shape3 B L L mask ->
  (forall lp, log_p = Some lp -> length lp = B) ->
  exists y al,
    TransformerDecoderLayer.forward layer x (Some mask) log_p = ok (y, al)
    /\ Shape2 B L y
    /\ Shape4 B (Z.to_nat (MultiHeadAttention.head_num
                             (TransformerDecoderLayer.decoder_attention layer)))
              L L al.
Proof.
  intros Hwf HB HL Hx Hmask Hlp.
  destruct (layer_contract Hwf HB HL Hx Hmask Hlp) as (y & al & Hf & Hsy).
  exists y, al. split; [exact Hf|]. split; [exact Hsy|].
  destruct (attention_forward_run (proj1 Hwf) HB HL Hx Hx Hx Hmask)
    as (qf & kf & vf & yy & al0 & _ & _ & _ & _ & _ & _ & _ & _ & _ & Hsal
        & Hrun).
  unfold TransformerDecoderLayer.forward in Hf.
  rewrite Hrun, bind_ok in Hf. apply ok_inj in Hf. injection Hf as _ <-.
  exact Hsal.
Qed.

Lemma decode_layers_shapes (layers : list TransformerDecoderLayer.t) B L
      (mask : list (list (list Z))) (log_p : option (list R)) :
  Forall LayerWellFormed layers ->
  0 < B -> 0 < L -> Shape3 B L L mask ->
  (forall lp, log_p = Some lp -> length lp = B) ->
  forall x acc, Shape2 B L x ->
    exists y als,
      Transformer._decode_layers layers x (Some mask) log_p acc
      = ok (y, acc ++ als)
      /\ Shape2 B L y
      /\ Forall2 (fun layer al =>
                    Shape4 B (Z.to_nat (MultiHeadAttention.head_num
                                (TransformerDecoderLayer.decoder_attention
                                   layer))) L L al) layers als.
Proof.
  intros Hlayers HB HL Hmask Hlp.
  induction Hlayers as [|layer layers Hwf _ IH]; intros x acc Hx.
  - exists x, []. rewrite app_nil_r. split; [reflexivity|].
    split; [exact Hx | constructor].
  - destruct (layer_forward_shapes Hwf HB HL Hx Hmask Hlp)
      as (y1 & al1 & Hf & Hs1 & Hsal).
    cbn [Transformer._decode_layers]. rewrite Hf, bind_ok. cbn [fst snd].
    destruct (IH y1 (acc ++ [al1]) Hs1) as (y & als & Hd & Hsy & Hall).
    exists y, (al1 :: als). rewrite Hd, <- app_assoc.
    split; [reflexivity|]. split; [exact Hsy|].
    constructor; assumption.
Qed.



Lemma forward_run (self : Transformer.t) (dev : device) (B L : nat)
      (ids : list (list Z)) (tsl : list Z) (log_p : option (list R)) :
  Forall LayerWellFormed (Transformer.decoder_layers self) ->
  0 < B -> 0 < L -> Shape2 B L ids ->
  Forall (Forall (fun id =>
            (0 <= id < Z.of_nat (length (Transformer.embedding self)))%Z))
         ids ->
  (Z.of_nat L <= SinusoidalPositionalEmbedding.num_positions
                   (Transformer.positional_encoding self))%Z ->
  length tsl = B -> tensor_max tsl = ok (Z.of_nat L) ->
  (forall lp, log_p = Some lp -> length lp = B) ->
  exists emb y als,
    Transformer._encode_output_ids self ids = ok emb
    /\ Shape2 B L emb /\ Shape2 B L y
    /\ Forall2 (fun layer al =>
                  Shape4 B (Z.to_nat (MultiHeadAttention.head_num
                              (TransformerDecoderLayer.decoder_attention
                                 layer))) L L al)
               (Transformer.decoder_layers self) als
    /\ Transformer.forward self dev ids tsl log_p
       = ok (Transformer.mk_output
               (map (map (Transformer.classifier self)) y) als emb).
Proof.
  intros Hwf HB HL Hids Hvalid Hpos Htl Hmax Hlp.
  destruct (@mask_of_lengths dev tsl L Hmax) as (mask & Hmask & Hsm & _).
  rewrite Htl in Hsm.
  destruct (embedding_lookup_ok (Transformer.embedding self) Hids Hvalid)
    as (emb0 & Hemb0 & Hsemb0).
  destruct (positional_forward_ok (Transformer.positional_encoding self)
              HB Hsemb0 Hpos) as (emb & Hemb & Hsemb).
  destruct (decode_layers_shapes Hwf HB HL Hsm Hlp [] Hsemb)
    as (y & als & Hd & Hsy & Hall).
  exists emb, y, als.
  assert (Henc : Transformer._encode_output_ids self ids = ok emb).
  { unfold Transformer._encode_output_ids. rewrite Hemb0, bind_ok. exact Hemb. }
  split; [exact Henc|]. split; [exact Hsemb|]. split; [exact Hsy|].
  split; [exact Hall|].
  unfold Transformer.forward, Transformer._decode.
  rewrite Henc, bind_ok, Hmask, bind_ok, Hd, bind_ok. reflexivity.
Qed.


Lemma small_transformer_layers :
  Forall LayerWellFormed (Transformer.decoder_layers small_transformer)
  /\ Forall EvalMode (Transformer.decoder_layers small_transformer).
Proof.
  split; (constructor; [|constructor]).
  - apply small_layer_well_formed.
  - apply small_layer_eval.
Qed.


(** X19.  The forward pass is causal.  In evaluation mode, for two batches
    of token ids of one shape [[B, L]] run with the same target lengths,
    whose maximum is [L], and the same conditioning, if example [b] holds
    the same ids at the positions up to [p] in both, then the logits of
    example [b] at every position up to [p] are the same in both: with the
    target lengths held fixed, no logit depends on a later token of its
    example, nor on the tokens of another example. *)
Theorem forward_causal (self : Transformer.t) (dev : device) (B L : nat)
        (ids ids' : list (list Z)) (tsl : list Z) (log_p : option (list R))
        (out out' : Transformer.output) (b p : nat) :
  Forall LayerWellFormed (Transformer.decoder_layers self) ->
  Forall EvalMode (Transformer.decoder_layers self) ->
  0 < L -> Shape2 B L ids -> Shape2 B L ids' ->
  length tsl = B -> tensor_max tsl = ok (Z.of_nat L) ->
  (forall lp, log_p = Some lp -> length lp = B) ->
  Transformer.forward self dev ids tsl log_p = ok out ->
  Transformer.forward self dev ids' tsl log_p = ok out' ->
  b < B ->
  (forall l, l <= p -> nth l (nth b ids' []) 0%Z = nth l (nth b ids []) 0%Z) ->
  forall l, l <= p ->
    nth l (nth b (Transformer.logits out') []) []
    = nth l (nth b (Transformer.logits out) []) [].
Proof. apply forward_causal_rows. Qed.

(** Witness: two batches that differ in the last token of the first example
    and in the whole second example have the same logits at the first
    position of the first example. *)
Lemma forward_causal_witness :
  exists out out',
    Transformer.forward small_transformer cpu [[0; 1]; [1; 1]]%Z [2; 1]%Z None
    = ok out
    /\ Transformer.forward small_transformer cpu [[0; 0]; [0; 0]]%Z [2; 1]%Z
         None = ok out'
    /\ nth 0 (nth 0 (Transformer.logits out') []) []
       = nth 0 (nth 0 (Transformer.logits out) []) [].
Proof.
  assert (Hids : Shape2 2 2 [[0; 1]; [1; 1]]%Z)
    by (split; [reflexivity | repeat constructor]).
  assert (Hids' : Shape2 2 2 [[0; 0]; [0; 0]]%Z)
    by (split; [reflexivity | repeat constructor]).
  assert (Hlp : forall lp : list R, None = Some lp -> length lp = 2)
    by discriminate.
  destruct (@forward_run small_transformer cpu 2 2 [[0; 1]; [1; 1]]%Z
              [2; 1]%Z None (proj1 small_transformer_layers)
              ltac:(lia) ltac:(lia) Hids
              ltac:(repeat constructor; simpl; lia) ltac:(simpl; lia)
              eq_refl eq_refl Hlp)
    as (emb & y & als & _ & _ & _ & _ & Hf).
  destruct (@forward_run small_transformer cpu 2 2 [[0; 0]; [0; 0]]%Z
              [2; 1]%Z None (proj1 small_transformer_layers)
              ltac:(lia) ltac:(lia) Hids'
              ltac:(repeat constructor; simpl; lia) ltac:(simpl; lia)
              eq_refl eq_refl Hlp)
    as (emb' & y' & als' & _ & _ & _ & _ & Hf').
  eexists. eexists. split; [exact Hf|]. split; [exact Hf'|].
  apply (@forward_causal small_transformer cpu 2 2 [[0; 1]; [1; 1]]%Z
           [[0; 0]; [0; 0]]%Z [2; 1]%Z None _ _ 0 0
           (proj1 small_transformer_layers) (proj2 small_transformer_layers)
           ltac:(lia) Hids Hids' eq_refl eq_refl Hlp Hf Hf' ltac:(lia)).
  - intros l Hl. replace l with 0 by lia. reflexivity.
  - lia.
Defined.

(** ** Errors of the forward pass, in the order they are met *)

Lemma mapM_raise {X Y : Type} (f : X -> result Y) (e : exn) (l : list X) :
  (forall a, In a l -> f a = raise e \/ exists b, f a = ok b) ->
  Exists (fun a => f a = raise e) l ->
  mapM f l = raise e.
Proof.
  intros Hall Hex. induction l as [|a l IH]; [inversion Hex|].
  cbn [mapM].
  destruct (Hall a (or_introl eq_refl)) as [Ha | [v Ha]]; rewrite Ha;
    [reflexivity|].
  rewrite bind_ok.
  inversion Hex as [? ? Hhd | ? ? Htl]; subst.
  - rewrite Ha in Hhd. discriminate.
  - rewrite IH; [reflexivity | | exact Htl].
    intros a' Ha'. apply Hall. right. exact Ha'.
Qed.

Lemma mapM_ok_or_raise {X Y : Type} (f : X -> result Y) (e : exn)
      (l : list X) :
  (forall a, In a l -> f a = raise e \/ exists b, f a = ok b) ->
  mapM f l = raise e \/ exists bs, mapM f l = ok bs.
Proof.
  intros Hall. induction l as [|a l IH]; [right; eexists; reflexivity|].
  cbn [mapM].
  destruct (Hall a (or_introl eq_refl)) as [Ha | [v Ha]]; rewrite Ha;
    [left; reflexivity|].
  rewrite bind_ok.
  destruct IH as [Hl | [vs Hl]]; [intros a' Ha'; apply Hall; right; exact Ha'
                                 | |]; rewrite Hl.
  - left. reflexivity.
  - right. eexists. reflexivity.
Qed.

Lemma embedding_lookup_raises (weight : list (list R)) (ids : list (list Z)) :
  Exists (Exists (fun id => ~ (0 <= id < Z.of_nat (length weight))%Z)) ids ->
  Transformer.embedding_lookup weight ids = raise IndexError.
Proof.
  intros Hex. unfold Transformer.embedding_lookup.
  set (g := fun id : Z =>
              if ((0 <=? id) && (id <? Z.of_nat (length weight)))%Z
              then ok (nth (Z.to_nat id) weight [])
              else raise IndexError).
  assert (Hg : forall id, g id = raise IndexError \/ exists v, g id = ok v).
  { intros id. unfold g.
    destruct ((0 <=? id) && (id <? Z.of_nat (length weight)))%Z;
      [right; eexists; reflexivity | left; reflexivity]. }
  apply mapM_raise.
  - intros row _. apply mapM_ok_or_raise. intros id _. apply Hg.
  - eapply Exists_impl; [|exact Hex]. intros row Hrow.
    apply mapM_raise; [intros id _; apply Hg|].
    eapply Exists_impl; [|exact Hrow]. intros id Hid. unfold g.
    destruct ((0 <=? id) && (id <? Z.of_nat (length weight)))%Z eqn:E;
      [|reflexivity].
    exfalso. apply Hid. apply andb_prop in E. destruct E as [E1 E2].
    apply Z.leb_le in E1. apply Z.ltb_lt in E2. lia.
Qed.

Lemma self_mask_raises (dev : device) (vl : list Z) (causal : bool) :
  Forall (fun len => (len < 0)%Z) vl ->
  create_self_attention_mask dev vl causal = raise RuntimeError.
Proof.
  intros Hneg.
  destruct (tensor_max_cases vl) as [[Hnil Hr] | (M & Hmax & Hiff & _)].
  - unfold create_self_attention_mask. rewrite Hr. reflexivity.
  - apply negative_max_raises with (M := M); [exact Hmax|].
    apply Hiff. exact Hneg.
Qed.

(** X18.  [Transformer.forward] on [B >= 1] examples of [L] token ids meets
    its errors in a fixed order: an id outside the vocabulary is an
    IndexError from the embedding (on the CPU), whatever the other
    arguments; with all ids inside, a length [L] above [num_positions] is a
    ValueError from the positional embedding; with that in order as well, a
    vector of target lengths that is empty or holds only negative lengths is
    a RuntimeError from the mask. *)
Theorem forward_error_order (self : Transformer.t) (B L : nat)
        (ids : list (list Z)) (tsl : list Z) (log_p : option (list R)) :
  0 < B -> Shape2 B L ids ->
  (Exists (Exists (fun id =>
             ~ (0 <= id < Z.of_nat (length (Transformer.embedding self)))%Z))
          ids ->
   Transformer.forward self cpu ids tsl log_p = raise IndexError)
  /\ (Forall (Forall (fun id =>
                (0 <= id < Z.of_nat (length (Transformer.embedding self)))%Z))
             ids ->
      forall dev,
        ((SinusoidalPositionalEmbedding.num_positions
            (Transformer.positional_encoding self) < Z.of_nat L)%Z ->
         Transformer.forward self dev ids tsl log_p = raise ValueError)
        /\ ((Z.of_nat L <= SinusoidalPositionalEmbedding.num_positions
                             (Transformer.positional_encoding self))%Z ->
            Forall (fun len => (len < 0)%Z) tsl ->
            Transformer.forward self dev ids tsl log_p = raise RuntimeError)).
Proof.
  intros HB Hids. split.
  - intros Hex. unfold Transformer.forward, Transformer._encode_output_ids.
    rewrite (embedding_lookup_raises _ Hex). reflexivity.
  - intros Hvalid dev.
    destruct (embedding_lookup_ok (Transformer.embedding self) Hids Hvalid)
      as (emb & Hemb & Hsemb).
    split.
    + intros Hlong.
      unfold Transformer.forward, Transformer._encode_output_ids.
      rewrite Hemb, bind_ok.
      unfold SinusoidalPositionalEmbedding.forward.
      rewrite (hd_length_of_shape HB Hsemb).
      replace (Z.of_nat L >? _)%Z with true; [reflexivity|].
      symmetry. rewrite Z.gtb_ltb. apply Z.ltb_lt. exact Hlong.
    + intros Hpos Hneg.
      destruct (positional_forward_ok (Transformer.positional_encoding self)
                  HB Hsemb Hpos) as (x & Hx & _).
      unfold Transformer.forward, Transformer._encode_output_ids.
      rewrite Hemb, bind_ok, Hx, bind_ok.
      rewrite (self_mask_raises dev true Hneg). reflexivity.
Qed.

(** Witness: the id 7 is outside a vocabulary of two tokens. *)
Lemma forward_error_order_witness :
  Transformer.forward small_transformer cpu [[0; 7]]%Z [2%Z] None
  = raise IndexError.
Proof.
  assert (Hids : Shape2 1 2 [[0; 7]]%Z)
    by (split; [reflexivity | repeat constructor]).
  destruct (@forward_error_order small_transformer 1 2 [[0; 7]]%Z [2%Z] None
              ltac:(lia) Hids) as [H _].
  apply H. constructor. apply Exists_cons_tl. constructor. simpl. lia.
Defined.

(** ** Edge cases of [generate] *)

Lemma range_from_one (T : Z) :
  (2 <= T)%Z -> range 1 T = 1%Z :: range 2 T.
Proof.
  intros HT. unfold range.
  replace (Z.to_nat (T - 1)) with (S (Z.to_nat (T - 2))) by lia.
  cbn [seq map]. f_equal. rewrite <- seq_shift, map_map.
  apply map_ext. intros i. lia.
Qed.

Lemma range_empty (a b : Z) : (b <= a)%Z -> range a b = [].
Proof.
  intros H. unfold range. replace (Z.to_nat (b - a)) with 0 by lia.
  reflexivity.
Qed.

Lemma map_repeat {X Y : Type} (f : X -> Y) (a : X) (n : nat) :
  map f (repeat a n) = repeat (f a) n.
Proof. induction n; simpl; [reflexivity | f_equal; assumption]. Qed.

(** A maximal length of at most 1: the loop body never runs. *)
Lemma generate_no_step (rng : Type)
      (multinomial : rng -> list (list R) -> list (list Z) * rng)
      (self : Transformer.t) (batch_size : Z) (dev : device)
      (temperature : R) (mask_ids : list Z) (log_p : option (list R))
      (max_target_sequence_length start_id : Z) (g : rng) :
  (0 <= batch_size)%Z -> (max_target_sequence_length <= 1)%Z ->
  Transformer.generate multinomial self batch_size dev temperature mask_ids
    log_p max_target_sequence_length start_id g
  = ok (repeat [start_id] (Z.to_nat batch_size), g).
Proof.
  intros HB HT. unfold Transformer.generate.
  rewrite full_ok by exact HB. rewrite bind_ok.
  rewrite (range_empty HT), map_repeat. reflexivity.
Qed.

(** X20.  The degenerate arguments of [generate], for a batch size and a
    start id that fit the 64-bit integers of torch.  A negative batch size is
    a RuntimeError.  With a maximal length of at most 1 the loop body never
    runs: the result is the column of start ids alone, the random source is
    untouched, and nothing else is checked (not that the start id lies in
    the vocabulary, no mask id and not the temperature).  An empty batch
    with a maximal length of at least 2 is a RuntimeError, since the empty
    vector of target lengths has no maximum. *)
Theorem generate_degenerate (rng : Type)
        (multinomial : rng -> list (list R) -> list (list Z) * rng)
        (self : Transformer.t) (batch_size : Z) (dev : device)
        (temperature : R) (mask_ids : list Z) (log_p : option (list R))
        (max_target_sequence_length start_id : Z) (g : rng) :
  int64 batch_size -> int64 start_id ->
  ((batch_size < 0)%Z ->
   Transformer.generate multinomial self batch_size dev temperature mask_ids
     log_p max_target_sequence_length start_id g = raise RuntimeError)
  /\ ((0 <= batch_size)%Z -> (max_target_sequence_length <= 1)%Z ->
      Transformer.generate multinomial self batch_size dev temperature
        mask_ids log_p max_target_sequence_length start_id g
      = ok (repeat [start_id] (Z.to_nat batch_size), g))
  /\ (batch_size = 0%Z -> (2 <= max_target_sequence_length)%Z ->
      Transformer.generate multinomial self batch_size dev temperature
        mask_ids log_p max_target_sequence_length start_id g
      = raise RuntimeError).
Proof.
  intros _ _. split; [|split].
  - intros HB. unfold Transformer.generate, full.
    replace (batch_size <? 0)%Z with true
      by (symmetry; apply Z.ltb_lt; exact HB).
    reflexivity.
  - intros HB HT. apply generate_no_step; assumption.
  - intros HB HT. subst batch_size. unfold Transformer.generate.
    rewrite full_ok by lia. rewrite bind_ok, (range_from_one HT).
    cbn [Transformer.generate_loop]. unfold Transformer.generate_step,
      Transformer.generate_logits.
    rewrite full_ok by lia. reflexivity.
Qed.

(** Witness: two examples and a maximal length of 1, with a start id and a
    mask id outside the vocabulary of two tokens and the temperature 0. *)
Lemma generate_degenerate_witness :
  Transformer.generate (multinomial_at (1 / 2)) tiny_transformer 2 cpu 0%R
    [5%Z] None 1 7 tt = ok ([[7%Z]; [7%Z]], tt).
Proof.
  apply (@generate_degenerate unit (multinomial_at (1 / 2)) tiny_transformer
           2 cpu 0%R [5%Z] None 1 7 tt).
  - unfold int64. lia.
  - unfold int64. lia.
  - lia.
  - lia.
Defined.

Section GenerateErrors.
Variable rng : Type.
Variable multinomial : rng -> list (list R) -> list (list Z) * rng.
Variable self : Transformer.t.
Variable batch_size : Z.
Variable temperature : R.
Variable mask_ids : list Z.
Variable log_p : option (list R).

Hypothesis batch_pos : (1 <= batch_size)%Z.

Lemma first_step_mask (dev : device) :
  exists mask,
    create_self_attention_mask dev (repeat 1%Z (Z.to_nat batch_size)) true
    = ok mask.
Proof.
  eexists.
  apply (@create_self_attention_mask_closed dev _ true 1%Z);
    [apply tensor_max_repeat; lia | lia].
Qed.

Lemma generate_bad_start (max_target_sequence_length start_id : Z) (g : rng) :
  (2 <= max_target_sequence_length)%Z ->
  ~ (0 <= start_id < Z.of_nat (length (Transformer.embedding self)))%Z ->
  Transformer.generate multinomial self batch_size cpu temperature mask_ids
    log_p max_target_sequence_length start_id g = raise IndexError.
Proof.
  intros HT Hbad. unfold Transformer.generate.
  rewrite full_ok by lia. rewrite bind_ok, (range_from_one HT).
  cbn [Transformer.generate_loop]. unfold Transformer.generate_step,
    Transformer.generate_logits.
  rewrite full_ok by lia. rewrite bind_ok.
  destruct (first_step_mask cpu) as [mask Hmask]. rewrite Hmask, bind_ok.
  unfold Transformer._encode_output_ids.
  rewrite embedding_lookup_raises; [reflexivity|].
  destruct (Z.to_nat batch_size) as [|n] eqn:E; [lia|].
  cbn [repeat map]. constructor. constructor. exact Hbad.
Qed.

End GenerateErrors.

(** X21.  [generate] never checks the start id against the vocabulary
    itself: with a batch of at least one example and a maximal length of at
    least 2, a start id that fits the 64-bit element type of the token
    tensor (as the batch size fits the 64-bit integers of torch) but lies
    outside the vocabulary is an IndexError raised by the embedding in the
    first iteration (on the CPU), before any token is drawn. *)
Theorem generate_start_id_out_of_range (rng : Type)
        (multinomial : rng -> list (list R) -> list (list Z) * rng)
        (self : Transformer.t) (batch_size : Z)
        (temperature : R) (mask_ids : list Z) (log_p : option (list R))
        (max_target_sequence_length start_id : Z) (g : rng) :
  (1 <= batch_size)%Z -> (2 <= max_target_sequence_length)%Z ->
  int64 batch_size -> int64 start_id ->
  ~ (0 <= start_id < Z.of_nat (length (Transformer.embedding self)))%Z ->
  Transformer.generate multinomial self batch_size cpu temperature mask_ids
    log_p max_target_sequence_length start_id g = raise IndexError.
Proof. intros HB HT _ _ Hbad. apply generate_bad_start; assumption. Qed.

(** Witness: the start id 5 with a vocabulary of two tokens. *)
Lemma generate_start_id_out_of_range_witness :
  Transformer.generate (multinomial_at (1 / 2)) tiny_transformer 1 cpu 1%R []
    None 3 5 tt = raise IndexError.
Proof.
  apply generate_start_id_out_of_range;
    [lia | lia | unfold int64; lia | unfold int64; lia | simpl; lia].
Defined.

Lemma set_column_raises (idx : Z) (v : R) B V (t : list (list R)) :
  0 < B -> Shape2 B V t -> ~ (- Z.of_nat V <= idx < Z.of_nat V)%Z ->
  set_column idx v t = raise IndexError.
Proof.
  intros HB Ht Hidx. unfold set_column.
  rewrite (hd_length_of_shape HB Ht).
  set (i := if (idx <? 0)%Z then (idx + Z.of_nat V)%Z else idx).
  destruct ((0 <=? i) && (i <? Z.of_nat V))%Z eqn:E; [|reflexivity].
  exfalso. apply Hidx. apply andb_prop in E. destruct E as [E1 E2].
  apply Z.leb_le in E1. apply Z.ltb_lt in E2. unfold i in *.
  destruct (Z.ltb_spec idx 0); lia.
Qed.

Lemma mask_logits_raises (ids : list Z) B V (t : list (list R)) :
  0 < B -> Shape2 B V t ->
  Exists (fun id => ~ (- Z.of_nat V <= id < Z.of_nat V)%Z) ids ->
  Transformer.mask_logits ids t = raise IndexError.
Proof.
  intros HB Ht Hex. revert t Ht.
  induction ids as [|id ids IH]; intros t Ht; [inversion Hex|].
  cbn [Transformer.mask_logits].
  destruct (Z_le_dec (- Z.of_nat V) id) as [Hlo | Hlo];
    [destruct (Z_lt_dec id (Z.of_nat V)) as [Hhi | Hhi]|].
  - destruct (set_column_ok neg_1e9 HB Ht (conj Hlo Hhi)) as (t' & Hset & Ht').
    rewrite Hset, bind_ok. apply IH; [|exact Ht'].
    inversion Hex as [? ? Hhd | ? ? Htl]; subst; [lia | exact Htl].
  - rewrite (set_column_raises neg_1e9 HB Ht); [reflexivity | lia].
  - rewrite (set_column_raises neg_1e9 HB Ht); [reflexivity | lia].
Qed.

Lemma start_column (V : nat) (B : nat) (start_id : Z) :
  (0 <= start_id < Z.of_nat V)%Z ->
  TokenTensor V B 1 start_id (map (fun id => [id]) (repeat start_id B)).
Proof.
  intros HS. repeat split.
  - rewrite length_map. apply repeat_length.
  - apply Forall_map, Forall_forall. intros id _. reflexivity.
  - apply Forall_map, Forall_forall. intros id Hid.
    apply repeat_spec in Hid. subst. simpl.
    constructor; [exact HS | constructor].
  - apply Forall_map, Forall_forall. intros id Hid.
    apply repeat_spec in Hid. subst. reflexivity.
Qed.

(** X22.  A mask id outside [[-V, V)] for a vocabulary of [V] tokens is an
    IndexError: with an otherwise valid call (a batch of at least one
    example, a start id in the vocabulary, layers that honour their
    contract, at least one position) and a maximal length of at least 2,
    [generate] raises it in the first iteration, after the model has run
    and before the temperature is used or a token is drawn. *)
Theorem generate_mask_id_out_of_range (rng : Type)
        (multinomial : rng -> list (list R) -> list (list Z) * rng)
        (self : Transformer.t) (batch_size : Z) (dev : device)
        (temperature : R) (mask_ids : list Z) (log_p : option (list R))
        (max_target_sequence_length start_id : Z) (g : rng) :
  let V := length (Transformer.embedding self) in
  (1 <= batch_size)%Z -> (2 <= max_target_sequence_length)%Z ->
  (0 <= start_id < Z.of_nat V)%Z ->
  (1 <= SinusoidalPositionalEmbedding.num_positions
          (Transformer.positional_encoding self))%Z ->
  Forall LayerContract (Transformer.decoder_layers self) ->
  (forall r, length (Transformer.classifier self r) = V) ->
  (forall lp, log_p = Some lp -> length lp = Z.to_nat batch_size) ->
  Exists (fun id => ~ (- Z.of_nat V <= id < Z.of_nat V)%Z) mask_ids ->
  Transformer.generate multinomial self batch_size dev temperature mask_ids
    log_p max_target_sequence_length start_id g = raise IndexError.
Proof.
  intros V HB HT HS Hnp Hlayers Hcls Hlp Hbad.
  unfold Transformer.generate.
  rewrite full_ok by lia. rewrite bind_ok, (range_from_one HT).
  cbn [Transformer.generate_loop]. unfold Transformer.generate_step.
  destruct (@generate_logits_ok self batch_size dev log_p start_id HB
              ltac:(fold V; lia) Hlayers Hcls Hlp 1 _
              (@start_column V (Z.to_nat batch_size) start_id HS)
              ltac:(lia) ltac:(simpl; lia))
    as (logits & Hlogits & Hsl).
  change (Z.of_nat 1) with 1%Z in Hlogits. rewrite Hlogits, bind_ok.
  unfold Transformer.generate_probs.
  rewrite (@mask_logits_raises mask_ids (Z.to_nat batch_size) V logits);
    [reflexivity | lia | exact Hsl | exact Hbad].
Qed.

(** Witness: the mask id 2 with a vocabulary of two tokens. *)
Lemma generate_mask_id_out_of_range_witness :
  Transformer.generate (multinomial_at (1 / 2)) tiny_transformer 1 cpu 1%R
    [2%Z] None 3 1 tt = raise IndexError.
Proof.
  apply (@generate_mask_id_out_of_range unit (multinomial_at (1 / 2))
           tiny_transformer 1 cpu 1%R [2%Z] None 3 1 tt).
  - lia.
  - lia.
  - simpl. lia.
  - simpl. lia.
  - constructor.
  - intros r. reflexivity.
  - discriminate.
  - constructor. simpl. lia.
Defined.



(** ** Generation extends its own prefixes *)

Lemma map2_app_assoc {X : Type} (a b c : list (list X)) :
  map2 (@app X) (map2 (@app X) a b) c = map2 (@app X) a (map2 (@app X) b c).
Proof.
  unfold map2. revert b c.
  induction a as [|x a IH]; intros [|y b] [|z c]; simpl; try reflexivity.
  f_equal; [symmetry; apply app_assoc | apply IH].
Qed.

Lemma map2_app_nil {X : Type} (a : list (list X)) :
  map2 (@app X) a (map (fun _ => []) a) = a.
Proof.
  unfold map2. induction a as [|x a IH]; simpl; [reflexivity|].
  rewrite app_nil_r. f_equal. exact IH.
Qed.

Lemma firstn_map2_app {X : Type} (n : nat) (a ext : list (list X)) :
  Forall (fun r => length r = n) a -> length a <= length ext ->
  map (firstn n) (map2 (@app X) a ext) = a.
Proof.
  intros Hall. revert ext.
  induction Hall as [|r a Hr Hall IH]; intros [|e ext] Hlen; simpl in *;
    try lia; try reflexivity.
  unfold map2 in *. simpl. f_equal.
  - rewrite firstn_app, Hr, Nat.sub_diag. simpl. rewrite app_nil_r.
    rewrite <- Hr. apply firstn_all.
  - apply IH. lia.
Qed.

Lemma range_split (T' T : Z) :
  (1 <= T' <= T)%Z -> range 1 T = range 1 T' ++ range T' T.
Proof.
  intros H. unfold range.
  replace (Z.to_nat (T - 1)) with (Z.to_nat (T' - 1) + Z.to_nat (T - T'))
    by lia.
  rewrite seq_app, map_app. f_equal. cbn [Nat.add].
  rewrite (map_seq_shift _ (Z.to_nat (T' - 1)) (Z.to_nat (T - T'))).
  apply map_ext. intros i. lia.
Qed.

Section GenerateExtends.
Variable rng : Type.
Variable multinomial : rng -> list (list R) -> list (list Z) * rng.
Variable self : Transformer.t.
Variable batch_size : Z.
Variable dev : device.
Variable temperature : R.
Variable mask_ids : list Z.
Variable log_p : option (list R).

Lemma generate_step_extends (ids : list (list Z)) (g : rng) (step : Z)
      ids' g' :
  Transformer.generate_step multinomial self batch_size dev temperature
    mask_ids log_p ids g step = ok (ids', g') ->
  exists choices, ids' = map2 (@app Z) ids choices.
Proof.
  intros H. unfold Transformer.generate_step in H.
  destruct (Transformer.generate_logits self batch_size dev log_p ids step)
    as [e | logits]; [discriminate|].
  rewrite bind_ok in H.
  destruct (Transformer.generate_probs temperature mask_ids logits)
    as [e | probs]; [discriminate|].
  rewrite bind_ok in H.
  destruct (multinomial g probs) as [choices g2].
  apply ok_inj in H. injection H as <- _.
  exists choices. reflexivity.
Qed.

Lemma generate_loop_extends (steps : list Z) :
  forall (ids : list (list Z)) (g : rng) ids' g',
    Transformer.generate_loop multinomial self batch_size dev temperature
      mask_ids log_p steps ids g = ok (ids', g') ->
    exists ext, ids' = map2 (@app Z) ids ext.
Proof.
  induction steps as [|step steps IH]; intros ids g ids' g' H;
    cbn [Transformer.generate_loop] in H.
  - apply ok_inj in H. injection H as <- _.
    eexists. symmetry. apply map2_app_nil.
  - destruct (Transformer.generate_step multinomial self batch_size dev
                temperature mask_ids log_p ids g step)
      as [e | [ids1 g1]] eqn:E; [discriminate|].
    rewrite bind_ok in H. cbn [fst snd] in H.
    destruct (generate_step_extends _ _ _ E) as [choices ->].
    destruct (IH _ _ _ _ H) as [ext ->].
    eexists. apply map2_app_assoc.
Qed.

End GenerateExtends.

(** X24.  Generation extends its own prefixes.  For an otherwise valid call
    and the same state of the random source, the result for a maximal
    length [T'] is the result for a larger maximal length [T] cut to its
    first [T'] columns: asking for more tokens never changes the tokens
    already drawn. *)
Theorem generate_prefix (rng : Type)
        (multinomial : rng -> list (list R) -> list (list Z) * rng)
        (self : Transformer.t) (batch_size : Z) (dev : device)
        (temperature : R) (mask_ids : list Z) (log_p : option (list R))
        (T T' start_id : Z) (g : rng) (ids : list (list Z)) (g1 : rng) :
  let V := length (Transformer.embedding self) in
  let num_positions := SinusoidalPositionalEmbedding.num_positions
                         (Transformer.positional_encoding self) in
  (1 <= batch_size)%Z ->
  (1 <= T' <= T)%Z -> (T <= num_positions + 1)%Z ->
  (0 <= start_id < Z.of_nat V)%Z ->
  temperature <> 0%R ->
  Forall (fun id => (- Z.of_nat V <= id < Z.of_nat V)%Z) mask_ids ->
  Forall LayerContract (Transformer.decoder_layers self) ->
  (forall r, length (Transformer.classifier self r) = V) ->
  (forall lp, log_p = Some lp -> length lp = Z.to_nat batch_size) ->
  SamplerContract multinomial ->
  Transformer.generate multinomial self batch_size dev temperature mask_ids
    log_p T start_id g = ok (ids, g1) ->
  exists g2,
    Transformer.generate multinomial self batch_size dev temperature mask_ids
      log_p T' start_id g = ok (map (firstn (Z.to_nat T')) ids, g2).
Proof.
  intros V num_positions HB HT HTmax HS Htemp Hmask Hlayers Hcls Hlp Hsampler
         Hgen.
  assert (HV : 0 < V) by lia.
  destruct (@generate_ok rng multinomial self batch_size dev temperature
              mask_ids log_p start_id HB HV Hlayers Hcls Hlp Htemp Hmask
              Hsampler T' g ltac:(unfold num_positions in *; lia) HS)
    as (ids' & g2 & Hgen' & Htok').
  destruct (@generate_ok rng multinomial self batch_size dev temperature
              mask_ids log_p start_id HB HV Hlayers Hcls Hlp Htemp Hmask
              Hsampler T g ltac:(unfold num_positions in *; lia) HS)
    as (ids0 & g0 & Hgen0 & Htok).
  rewrite Hgen in Hgen0. apply ok_inj in Hgen0. injection Hgen0 as <- <-.
  exists g2. rewrite Hgen'. f_equal. f_equal.
  unfold Transformer.generate in Hgen, Hgen'.
  rewrite full_ok in Hgen, Hgen' by lia. rewrite bind_ok in Hgen, Hgen'.
  rewrite (range_split HT), generate_loop_app, Hgen', bind_ok in Hgen.
  cbn [fst snd] in Hgen.
  destruct (generate_loop_extends _ _ _ _ _ _ _ _ _ _ Hgen) as [ext Hext].
  destruct Htok' as [[Hlen' Hrows'] _]. destruct Htok as [[Hlen _] _].
  subst ids. symmetry. apply firstn_map2_app; [exact Hrows'|].
  rewrite map2_length in Hlen. lia.
Qed.

(** Witness: three columns are the first three of five. *)
Lemma generate_prefix_witness :
  exists ids g1 g2,
    Transformer.generate (multinomial_at (1 / 2)) tiny_transformer 1 cpu 1%R
      [0%Z] None 5 1 tt = ok (ids, g1)
    /\ Transformer.generate (multinomial_at (1 / 2)) tiny_transformer 1 cpu
         1%R [0%Z] None 3 1 tt = ok (map (firstn 3) ids, g2).
Proof.
  assert (Hmask : Forall (fun id => (- Z.of_nat 2 <= id < Z.of_nat 2)%Z)
                         [0%Z])
    by (constructor; [lia | constructor]).
  assert (Hlp : forall lp : list R, None = Some lp -> length lp = Z.to_nat 1)
    by discriminate.
  destruct (@generate_ok unit (multinomial_at (1 / 2)) tiny_transformer 1 cpu
              1%R [0%Z] None 1 ltac:(lia) ltac:(simpl; lia)
              (Forall_nil _) (fun r => eq_refl) Hlp ltac:(lra) Hmask
              (multinomial_at_contract (1 / 2)) 5 tt ltac:(simpl; lia)
              ltac:(simpl; lia))
    as (ids & g1 & Hgen & _).
  destruct (@generate_prefix unit (multinomial_at (1 / 2)) tiny_transformer 1
              cpu 1%R [0%Z] None 5 3 1 tt ids g1 ltac:(lia) ltac:(lia)
              ltac:(simpl; lia) ltac:(simpl; lia) ltac:(lra) Hmask
              (Forall_nil _) (fun r => eq_refl) Hlp
              (multinomial_at_contract (1 / 2)) Hgen)
    as (g2 & Hgen').
  exists ids, g1, g2. split; [exact Hgen | exact Hgen'].
Defined.

(** ** The distribution the next token is drawn from *)


Open Scope R_scope.



Close Scope R_scope.





(** ** Head counts that the constructor's guard does not stop *)

Lemma reshape_to_batches_negative_heads {A : Type}
      (self : MultiHeadAttention.t) (x : list (list (list A))) :
  (MultiHeadAttention.head_num self < 0)%Z ->
  MultiHeadAttention._reshape_to_batches self x = raise RuntimeError.
Proof.
  intros Hneg. unfold MultiHeadAttention._reshape_to_batches.
  destruct (size3 x) as [[b l] f]. unfold floordiv.
  replace (MultiHeadAttention.head_num self =? 0)%Z with false
    by (symmetry; apply Z.eqb_neq; lia).
  rewrite bind_ok. unfold reshape4, reshape_ok. cbn [forallb].
  replace (0 <=? MultiHeadAttention.head_num self)%Z with false
    by (symmetry; apply Z.leb_gt; exact Hneg).
  rewrite !andb_false_r. reflexivity.
Qed.

(** X27.  The divisibility guard of [MultiHeadAttention.__init__] is the
    only check on the head count.  A head count of 0 is a
    ZeroDivisionError of the guard's own [%].  A negative head count that
    divides [in_features] passes the guard: the construction then fails only
    for a negative feature size (the RuntimeError of [nn.Linear]), and for a
    feature size that is not negative it succeeds and builds a layer that
    raises a RuntimeError on every call, because its first reshape asks for
    a negative size. *)
Theorem init_nonpositive_head_count (in_features head_num : Z) (bias : bool)
        (lq lk lv lo : list R -> list R) :
  (head_num = 0%Z ->
   MultiHeadAttention.__init__ in_features head_num bias lq lk lv lo
   = raise ZeroDivisionError)
  /\ ((head_num < 0)%Z -> (head_num | in_features)%Z ->
      ((in_features < 0)%Z ->
       MultiHeadAttention.__init__ in_features head_num bias lq lk lv lo
       = raise RuntimeError)
      /\ ((0 <= in_features)%Z ->
          MultiHeadAttention.__init__ in_features head_num bias lq lk lv lo
          = ok (MultiHeadAttention.mk in_features head_num bias lq lk lv lo)
          /\ forall q k v mask,
               MultiHeadAttention.forward
                 (MultiHeadAttention.mk in_features head_num bias lq lk lv
                    lo)
                 q k v mask = raise RuntimeError)).
Proof.
  split.
  - intros ->. reflexivity.
  - intros Hneg Hdiv. split.
    + intros Hin. unfold MultiHeadAttention.__init__, pymod.
      replace (head_num =? 0)%Z with false
        by (symmetry; apply Z.eqb_neq; lia).
      rewrite bind_ok.
      replace (in_features mod head_num)%Z with 0%Z
        by (symmetry; apply Z.mod_divide; [lia | exact Hdiv]).
      cbn [Z.eqb negb]. unfold MultiHeadAttention.nn_Linear.
      replace (in_features <? 0)%Z with true
        by (symmetry; apply Z.ltb_lt; exact Hin).
      reflexivity.
    + intros Hin. split.
      * apply init_passes; [lia | exact Hdiv | exact Hin].
      * intros q k v mask. unfold MultiHeadAttention.forward.
        rewrite reshape_to_batches_negative_heads by exact Hneg.
        reflexivity.
Qed.

(** ** A model with freshly initialised layer norms *)

Lemma normed_layer_well_formed : LayerWellFormed normed_layer.
Proof.
  split; [apply mha_fitted_well_formed; [lia | lia | reflexivity]|].
  split; intros B L x Hx; exact Hx.
Qed.

Lemma normed_transformer_layers :
  Forall LayerWellFormed (Transformer.decoder_layers normed_transformer)
  /\ Forall EvalMode (Transformer.decoder_layers normed_transformer).
Proof.
  split; (constructor; [|constructor]).
  - apply normed_layer_well_formed.
  - intros x. split; reflexivity.
Qed.

(** ** C10: the unguarded division by the temperature *)







(** ** C4: a generation step against the teacher-forced forward pass *)

Lemma dropout_keep_draw (p : R) (x : list (list (list R))) :
  DropoutDraw p x (dropout_keep p x).
Proof.
  unfold DropoutDraw, dropout_keep.
  induction x as [|m x IHx]; simpl; constructor; [|exact IHx].
  induction m as [|r m IHm]; simpl; constructor; [|exact IHm].
  induction r as [|v r IHr]; simpl; constructor; [right; reflexivity | exact IHr].
Qed.

Lemma dropout_zero_draw (p : R) (x : list (list (list R))) :
  DropoutDraw p x (dropout_zero x).
Proof.
  unfold DropoutDraw, dropout_zero.
  induction x as [|m x IHx]; simpl; constructor; [|exact IHx].
  induction m as [|r m IHm]; simpl; constructor; [|exact IHm].
  induction r as [|v r IHr]; simpl; constructor; [left; reflexivity | exact IHr].
Qed.

(** The logits of a generation step are those of the forward pass on the
    same tokens with every target length equal to the step, for one and the
    same realisation of the layers. *)
Lemma generate_logits_forward (self : Transformer.t) (batch_size : Z)
      (dev : device) (log_p : option (list R))
      (output_ids : list (list Z)) (step : Z) :
  (1 <= batch_size)%Z -> (1 <= step)%Z ->
  Transformer.generate_logits self batch_size dev log_p output_ids step
  = (out <- Transformer.forward self dev output_ids
              (repeat step (Z.to_nat batch_size)) log_p ;;
     select_last (Transformer.logits out)).
Proof.
  intros HB Hstep.
  unfold Transformer.generate_logits, Transformer.forward.
  rewrite full_ok by lia. simpl.
  rewrite (@create_self_attention_mask_closed dev
             (repeat step (Z.to_nat batch_size)) true step)
    by (try apply tensor_max_repeat; lia).
  simpl.
  destruct (Transformer._encode_output_ids self output_ids) as [e | emb];
    simpl; [reflexivity|].
  destruct (Transformer._decode self emb _ log_p) as [e | r];
    simpl; [reflexivity|].
  rewrite select_last_map. reflexivity.
Qed.

Lemma map_zero_pair (l : list R) :
  length l = 2 -> map (fun _ : R => 0%R) l = [0%R; 0%R].
Proof.
  destruct l as [|a [|b [|c l]]]; try discriminate. reflexivity.
Qed.

Open Scope R_scope.

Lemma layer_norm_pair (a b : R) :
  layer_norm [a; b]
  = [(a - b) / 2 / sqrt ((a - b) / 2 * ((a - b) / 2) + 1 / 100000);
     (b - a) / 2 / sqrt ((a - b) / 2 * ((a - b) / 2) + 1 / 100000)].
Proof.
  unfold layer_norm. cbn [length map Rsum fold_right INR].
  assert (Hm : (a + (b + 0)) / (1 + 1) = (a + b) / 2) by lra.
  rewrite Hm.
  assert (Hv : ((a - (a + b) / 2) * (a - (a + b) / 2)
                + ((b - (a + b) / 2) * (b - (a + b) / 2) + 0)) / (1 + 1)
               = (a - b) / 2 * ((a - b) / 2)) by field.
  rewrite Hv.
  replace (a - (a + b) / 2) with ((a - b) / 2) by lra.
  replace (b - (a + b) / 2) with ((b - a) / 2) by lra.
  reflexivity.
Qed.

Lemma layer_norm_equal (a : R) : layer_norm [a; a] = [0; 0].
Proof.
  rewrite layer_norm_pair.
  replace ((a - a) / 2) with 0 by lra.
  unfold Rdiv at 1 3. rewrite !Rmult_0_l. reflexivity.
Qed.

Close Scope R_scope.

Lemma training_encode d1 d2 :
  Transformer._encode_output_ids (training_transformer d1 d2) [[1%Z]]
  = ok [[[1%R; 1%R]]].
Proof.
  unfold Transformer._encode_output_ids.
  change (Transformer.embedding_lookup
            (Transformer.embedding (training_transformer d1 d2))
            [[1%Z]]) with (ok (A:=list (list (list R))) [[[1%R; 1%R]]]).
  rewrite bind_ok.
  unfold SinusoidalPositionalEmbedding.forward,
    SinusoidalPositionalEmbedding.encodings,
    SinusoidalPositionalEmbedding.band.
  cbn [training_transformer Transformer.positional_encoding
       SinusoidalPositionalEmbedding.dmodel
       SinusoidalPositionalEmbedding.num_positions
       hd length seq map evens odds map2 combine fst snd app bcast2 INR
       Z.of_nat Pos.of_succ_nat Z.gtb Z.compare Pos.compare Pos.compare_cont].
  unfold Rdiv. rewrite !Rmult_0_l, sin_0, Rplus_0_r. reflexivity.
Qed.

Lemma training_decode d2 (u v : R) :
  d2 [[[1%R; 0%R]]] = [[[u; v]]] ->
  exists als,
    Transformer._decode (training_transformer dropout_zero d2)
      [[[1%R; 1%R]]] (Some (mask_closed true 1 [1%Z])) None
    = ok ([[layer_norm [u; v]]], als).
Proof.
  intros Hd2.
  assert (Hx : Shape2 1 1 [[[1%R; 1%R]]])
    by (split; [reflexivity | repeat constructor]).
  destruct (@attention_forward_run (mha_fitted 2 2) 1 1 [[[1%R; 1%R]]]
              [[[1%R; 1%R]]] [[[1%R; 1%R]]] (mask_closed true 1 [1%Z])
              (@mha_fitted_well_formed 2 2 ltac:(lia) ltac:(lia) eq_refl)
              ltac:(lia) ltac:(lia) Hx Hx Hx
              (mask_closed_shape true 1 [1%Z]))
    as (qf & kf & vf & y & al & _ & _ & _ & _ & _ & _ & _ & Hy & _ & _ & Hf).
  exists [al].
  unfold Transformer._decode.
  cbn [training_transformer Transformer.decoder_layers
       Transformer._decode_layers].
  unfold TransformerDecoderLayer.forward.
  cbn [TransformerDecoderLayer.decoder_attention
       TransformerDecoderLayer.dropout1 TransformerDecoderLayer.dropout2
       TransformerDecoderLayer.norm1 TransformerDecoderLayer.norm2
       TransformerDecoderLayer.feedforward].
  rewrite Hf, bind_ok.
  destruct Hy as [Hlen Hrows].
  destruct y as [|m [|m' y]]; try discriminate.
  inversion Hrows as [|? ? [Hm _] _]; subst.
  destruct m as [|r [|r' m]]; try discriminate.
  cbn [map dropout_zero].
  rewrite map_zero_pair
    by (cbn [MultiHeadAttention.linear_o mha_fitted]; apply fit_length).
  unfold TransformerDecoderLayer.add3 at 2 3.
  cbn [map2 combine map fst snd].
  rewrite layer_norm_equal. rewrite Hd2.
  unfold TransformerDecoderLayer.add3.
  cbn [map2 combine map fst snd bind ok app].
  rewrite !Rplus_0_l. reflexivity.
Qed.

Lemma training_forward d2 (u v : R) :
  d2 [[[1%R; 0%R]]] = [[[u; v]]] ->
  (out <- Transformer.forward (training_transformer dropout_zero d2)
            cpu [[1%Z]] (repeat 1%Z (Z.to_nat 1)) None ;;
   select_last (Transformer.logits out))
  = ok [fit 2 (layer_norm [u; v])].
Proof.
  intros Hd2. unfold Transformer.forward.
  rewrite training_encode, bind_ok.
  rewrite (@create_self_attention_mask_closed cpu (repeat 1%Z (Z.to_nat 1))
             true 1) by (try reflexivity; lia).
  rewrite bind_ok.
  destruct (@training_decode d2 u v Hd2) as [als Hdec].
  change (Z.to_nat 1) with 1. change (repeat 1%Z 1) with [1%Z].
  rewrite Hdec, bind_ok. reflexivity.
Qed.

(** C4 fails as stated for a model in training mode, which [generate] does
    not leave: every call of [nn.Dropout] draws its mask afresh.  In a
    model of two features with one decoder layer, freshly initialised layer
    norms and a dropout rate of 1/2, take the start token 1 and let the
    first dropout zero its argument.  A generation step whose second
    dropout keeps every entry computes the logits [(c, -c)] with
    [c = 1 / sqrt (1 + 1e-5)]; a forward pass on the same token whose
    second dropout zeroes every entry computes the logits (0, 0).  Both are
    draws that [nn.Dropout] can make. *)
Lemma generate_logits_training_counterexample :
  (forall x, DropoutDraw (1 / 2) x (dropout_zero x)
             /\ DropoutDraw (1 / 2) x (dropout_keep (1 / 2) x))
  /\ Transformer.generate_logits
       (training_transformer dropout_zero (dropout_keep (1 / 2)))
       1 cpu None [[1%Z]] 1
     = ok [[(1 / sqrt (1 + 1 / 100000))%R; (-1 / sqrt (1 + 1 / 100000))%R]]
  /\ (out <- Transformer.forward
               (training_transformer dropout_zero dropout_zero)
               cpu [[1%Z]] (repeat 1%Z (Z.to_nat 1)) None ;;
      select_last (Transformer.logits out)) = ok [[0%R; 0%R]]
  /\ (0 < 1 / sqrt (1 + 1 / 100000))%R.
Proof.
  split; [|split; [|split]].
  - intros x. split; [apply dropout_zero_draw | apply dropout_keep_draw].
  - rewrite generate_logits_forward by lia.
    rewrite (@training_forward (dropout_keep (1 / 2))
               (1 / (1 - 1 / 2))%R (0 / (1 - 1 / 2))%R eq_refl).
    rewrite layer_norm_pair. cbn [fit firstn app repeat].
    replace ((1 / (1 - 1 / 2) - 0 / (1 - 1 / 2)) / 2)%R with 1%R by field.
    replace ((0 / (1 - 1 / 2) - 1 / (1 - 1 / 2)) / 2)%R with (-1)%R by field.
    replace (1 * 1)%R with 1%R by ring. reflexivity.
  - rewrite (@training_forward dropout_zero 0%R 0%R eq_refl).
    rewrite layer_norm_equal. reflexivity.
  - apply Rdiv_lt_0_compat; [lra|]. apply sqrt_lt_R0. lra.
Qed.

(** C4, amended.  In evaluation mode, for a step [t >= 1] of a batch of at
    least one example, the logits that the generation loop computes from
    the [t] tokens produced so far are the last-position logits of
    [Transformer.forward] on those tokens with every target length equal to
    [t] and the same conditioning signal (an exception of one side is the
    exception of the other); so a generation step is the masking, scaling
    and sampling applied to the forward pass.  With an empty batch the step
    raises before it has any logits. *)
Theorem generate_logits_consistent (rng : Type)
        (multinomial : rng -> list (list R) -> list (list Z) * rng)
        (self : Transformer.t) (batch_size : Z)
        (dev : device) (temperature : R) (mask_ids : list Z)
        (log_p : option (list R))
        (output_ids : list (list Z)) (g : rng) (step : Z) :
  Forall EvalMode (Transformer.decoder_layers self) ->
  (1 <= step)%Z ->
  Shape2 (Z.to_nat batch_size) (Z.to_nat step) output_ids ->
  (batch_size = 0%Z ->
   Transformer.generate_logits self batch_size dev log_p output_ids step
   = raise RuntimeError)
  /\ ((1 <= batch_size)%Z ->
      Transformer.generate_logits self batch_size dev log_p output_ids step
      = (out <- Transformer.forward self dev output_ids
                  (repeat step (Z.to_nat batch_size)) log_p ;;
         select_last (Transformer.logits out))
      /\ Transformer.generate_step multinomial self batch_size dev
           temperature mask_ids log_p output_ids g step
         = (out <- Transformer.forward self dev output_ids
                     (repeat step (Z.to_nat batch_size)) log_p ;;
            last_logits <- select_last (Transformer.logits out) ;;
            probs <- Transformer.generate_probs temperature mask_ids
                       last_logits ;;
            ok (map2 (@app Z) output_ids (fst (multinomial g probs)),
                snd (multinomial g probs)))).
Proof.
  intros _ Hstep _. split.
  - intros ->. unfold Transformer.generate_logits.
    rewrite full_ok by lia. reflexivity.
  - intros HB.
    pose proof (@generate_logits_forward self batch_size dev log_p output_ids
                  step HB Hstep) as Hlogits.
    split; [exact Hlogits|].
    unfold Transformer.generate_step. rewrite Hlogits.
    destruct (Transformer.forward self dev output_ids _ log_p) as [e | out];
      simpl; [reflexivity|].
    destruct (select_last (Transformer.logits out)) as [e | l];
      simpl; [reflexivity|].
    destruct (Transformer.generate_probs temperature mask_ids l)
      as [e | probs]; simpl; [reflexivity|].
    destruct (multinomial g probs). reflexivity.
Qed.

(** Witness: the second step of two examples in the model with one decoder
    layer of two heads; both sides return the logits of the two examples. *)
Lemma generate_logits_consistent_witness :
  exists logits,
    Transformer.generate_logits normed_transformer 2 cpu None
      [[0; 1]; [1; 1]]%Z 2 = ok logits
    /\ (out <- Transformer.forward normed_transformer cpu [[0; 1]; [1; 1]]%Z
                 (repeat 2%Z (Z.to_nat 2)) None ;;
        select_last (Transformer.logits out)) = ok logits
    /\ length logits = 2.
Proof.
  assert (Hids : Shape2 2 2 [[0; 1]; [1; 1]]%Z)
    by (split; [reflexivity | repeat constructor]).
  destruct (@generate_logits_consistent unit (multinomial_at (1 / 2))
              normed_transformer 2 cpu 1%R [] None [[0; 1]; [1; 1]]%Z tt 2
              (proj2 normed_transformer_layers) ltac:(lia) Hids)
    as [_ Heq].
  destruct (Heq ltac:(lia)) as [Heq1 _].
  destruct (@forward_run normed_transformer cpu 2 2 [[0; 1]; [1; 1]]%Z
              (repeat 2%Z (Z.to_nat 2)) None (proj1 normed_transformer_layers)
              ltac:(lia) ltac:(lia) Hids
              ltac:(repeat constructor; simpl; lia) ltac:(simpl; lia)
              eq_refl eq_refl ltac:(discriminate))
    as (emb & y & als & _ & _ & Hy & _ & Hf).
  destruct (@select_last_ok _ 2 2
              (map (map (Transformer.classifier normed_transformer)) y))
    as (l & Hl & Hlen).
  { destruct Hy as [Hlen Hrows]. split; [rewrite length_map; exact Hlen|].
    apply Forall_map. eapply Forall_impl; [|exact Hrows].
    intros m Hm. simpl. rewrite length_map. exact Hm. }
  { lia. }
  exists l. rewrite Heq1, Hf, bind_ok. cbn [Transformer.logits].
  split; [exact Hl|]. split; [exact Hl | exact Hlen].
Defined.

(** ** A sampler that skips what a float cannot hold *)





(** ** What every step of a generation draws from *)




Section GenerateTrace.
Variable rng : Type.
Variable multinomial : rng -> list (list R) -> list (list Z) * rng.
Variable self : Transformer.t.
Variable batch_size : Z.
Variable dev : device.
Variable temperature : R.
Variable mask_ids : list Z.
Variable log_p : option (list R).
Variable start_id : Z.

Let B := Z.to_nat batch_size.
Let V := length (Transformer.embedding self).
Let num_positions :=
  SinusoidalPositionalEmbedding.num_positions
    (Transformer.positional_encoding self).

Hypothesis batch_pos : (1 <= batch_size)%Z.
Hypothesis vocab_pos : 0 < V.
Hypothesis layers_ok : Forall LayerContract (Transformer.decoder_layers self).
Hypothesis classifier_width :
  forall r, length (Transformer.classifier self r) = V.
Hypothesis log_p_length : forall lp, log_p = Some lp -> length lp = B.
Hypothesis temperature_nonzero : temperature <> 0%R.
Hypothesis mask_ids_in_range :
  Forall (fun id => (- Z.of_nat V <= id < Z.of_nat V)%Z) mask_ids.
Hypothesis sampler_ok : SamplerContract multinomial.





End GenerateTrace.

(** ** Forbidden ids under float underflow *)

Open Scope R_scope.



Close Scope R_scope.


(** ** C5: the generation contract *)








